(** * FilesByDate: the file-organisation engine of [logic.py]

    A shallow embedding of the class [FileManagementLogic] (date resolution,
    destination planning, batched copy and move, single-level undo, bounded
    history) together with a model of the part of the Python runtime it
    calls: [os], [os.path], [shutil], [datetime] and the EXIF reader.

    Conventions of the model.
    - A path is the list of its components; [os.path.join folder name] adds
      one component.  File names, bucket names, format strings, EXIF texts
      and messages are strings, read as sequences of code points below 256.
    - The filesystem is a finite map from paths to nodes (regular file or
      directory), POSIX flavoured, on one device, without symbolic links or
      permission bits.  [os.listdir] returns names in arbitrary order in
      Python; the model lists them in lexicographic order.  A node carries
      its modification time; the model leaves the time of a directory as
      it is when an entry is added to it or removed from it.
    - A Python exception is a value of [exn]; a call that may raise returns
      a [result].  Engine methods run in the monad [M], which threads the
      engine object and the world and propagates exceptions until a
      [try_except] catches them.
    - [print] calls are not modelled.  Where the standard output cannot
      encode a message, [print] raises in the program at a point where the
      model goes on. *)

From Stdlib Require Import Ascii.
From stdpp Require Import gmap strings pretty list sorting.

(** ** Exceptions and results *)

Inductive exn :=
  | FileNotFoundError
  | FileExistsError
  | NotADirectoryError
  | IsADirectoryError
  | DirectoryNotEmpty        (* OSError, errno ENOTEMPTY *)
  | SameFileError            (* shutil.SameFileError *)
  | ShutilError (msg : string) (* shutil.Error *)
  | ValueError
  | TypeError
  | UnidentifiedImageError.  (* PIL: the file is not a decodable image *)

(** The text of [str(e)]; for an [OSError] the program's text also carries
    the error number and the path, which the model leaves out. *)
Definition exn_str (e : exn) : string :=
  match e with
  | FileNotFoundError => "No such file or directory"
  | FileExistsError => "File exists"
  | NotADirectoryError => "Not a directory"
  | IsADirectoryError => "Is a directory"
  | DirectoryNotEmpty => "Directory not empty"
  | SameFileError => "are the same file"
  | ShutilError msg => msg
  | ValueError => "time data does not match format"
  | TypeError => "argument is not iterable"
  | UnidentifiedImageError => "cannot identify image file"
  end.

Inductive result (A : Type) :=
  | Ok (a : A)
  | Raise (e : exn).
Arguments Ok {A} a.
Arguments Raise {A} e.

Global Instance result_ret : MRet result := λ A a, Ok a.
Global Instance result_bind : MBind result := λ A B f r,
  match r with
  | Ok a => f a
  | Raise e => Raise e
  end.

Definition is_Ok {A} (r : result A) : bool :=
  match r with Ok _ => true | Raise _ => false end.

(** ** Python string helpers *)

Module pystr.

(** [c in s] for a one-character [c]. *)
Fixpoint contains (c : ascii) (s : string) : bool :=
  match s with
  | EmptyString => false
  | String a s' => if decide (a = c) then true else contains c s'
  end.

(** [s.replace(old, new, count)] for one-character [old] and [new]. *)
Fixpoint replace (old new : ascii) (count : nat) (s : string) : string :=
  match s, count with
  | EmptyString, _ => EmptyString
  | _, O => s
  | String a s', S n =>
      if decide (a = old) then String new (replace old new n s')
      else String a (replace old new count s')
  end.

Definition lower_char (a : ascii) : ascii :=
  let n := nat_of_ascii a in
  if (65 <=? n) && (n <=? 90) then ascii_of_nat (n + 32) else a.

(** [s.lower()], on ASCII. *)
Fixpoint lower (s : string) : string :=
  match s with
  | EmptyString => EmptyString
  | String a s' => String (lower_char a) (lower s')
  end.

(** Truth value of a string: non-empty. *)
Definition truthy (s : string) : bool :=
  match s with EmptyString => false | _ => true end.

(** [s.rfind(c)], as an option. *)
Fixpoint rfind (c : ascii) (s : string) : option nat :=
  match s with
  | EmptyString => None
  | String a s' =>
      match rfind c s' with
      | Some i => Some (S i)
      | None => if decide (a = c) then Some 0 else None
      end
  end.

Fixpoint take (n : nat) (s : string) : string :=
  match n, s with
  | S n', String a s' => String a (take n' s')
  | _, _ => EmptyString
  end.

Fixpoint drop (n : nat) (s : string) : string :=
  match n, s with
  | S n', String _ s' => drop n' s'
  | _, _ => s
  end.

Fixpoint all_char (c : ascii) (s : string) : bool :=
  match s with
  | EmptyString => true
  | String a s' => if decide (a = c) then all_char c s' else false
  end.

End pystr.

(** ** [datetime] *)

Module datetime.

Record t := mk {
  year : nat; month : nat; day : nat;
  hour : nat; minute : nat; second : nat
}.

Global Instance t_eq_dec : EqDecision t.
Proof. solve_decision. Defined.

Definition pad2 (n : nat) : string :=
  if n <? 10 then "0" +:+ pretty n else pretty n.

(** One [strftime] directive.  [%Y] is the plain decimal year (four
    digits for the years 1000..9999). *)
Definition directive (c : ascii) (d : t) : string :=
  match c with
  | "Y"%char => pretty (year d)
  | "m"%char => pad2 (month d)
  | "d"%char => pad2 (day d)
  | "H"%char => pad2 (hour d)
  | "M"%char => pad2 (minute d)
  | "S"%char => pad2 (second d)
  | "%"%char => "%"
  | _ => String "%"%char (String c EmptyString)
  end.

(** [d.strftime(fmt)] *)
Fixpoint strftime (d : t) (fmt : string) : string :=
  match fmt with
  | EmptyString => EmptyString
  | String "%"%char (String c rest) => directive c d +:+ strftime d rest
  | String a rest => String a (strftime d rest)
  end.

(** *** [datetime.strptime]

    The library turns the format into a regular expression, one group
    of ordered alternatives per directive and [\s+] per run of blanks,
    takes the first match found by backtracking, rejects unconverted
    trailing data and lets the [datetime] constructor validate the
    fields. *)

Definition cls := ascii → bool.
Definition is_ (c : ascii) : cls := λ a, bool_decide (a = c).
Definition rng (lo hi : nat) : cls := λ a,
  let n := nat_of_ascii a in (48 + lo <=? n) && (n <=? 48 + hi).
Definition dig : cls := rng 0 9.

Definition alternatives (c : ascii) : list (list cls) :=
  match c with
  | "Y"%char => [[dig; dig; dig; dig]]
  | "m"%char => [[is_ "1"; rng 0 2]; [is_ "0"; rng 1 9]; [rng 1 9]]
  | "d"%char => [[is_ "3"; rng 0 1]; [rng 1 2; dig]; [is_ "0"; rng 1 9];
                 [rng 1 9]; [is_ " "; rng 1 9]]
  | "H"%char => [[is_ "2"; rng 0 3]; [rng 0 1; dig]; [dig]]
  | "M"%char => [[rng 0 5; dig]; [dig]]
  | "S"%char => [[is_ "6"; rng 0 1]; [rng 0 5; dig]; [dig]]
  | _ => []
  end.

Fixpoint match_alt (alt : list cls) (s : list ascii)
  : option (list ascii * list ascii) :=
  match alt, s with
  | [], _ => Some ([], s)
  | p :: alt', a :: s' =>
      if p a then
        match match_alt alt' s' with
        | Some (m, r) => Some (a :: m, r)
        | None => None
        end
      else None
  | _ :: _, [] => None
  end.

(** Decimal value of the matched text (a leading blank counts for nothing). *)
Definition value (m : list ascii) : nat :=
  foldl (λ acc a, if dig a then 10 * acc + (nat_of_ascii a - 48) else acc) 0 m.

(** The class [\s] of the regular expression, on code points below 256:
    tab to carriage return, the separators 0x1c..0x1f, the blank, NEL
    (0x85) and the no-break space (0xa0). *)
Definition is_whitespace (a : ascii) : bool :=
  let n := nat_of_ascii a in
  ((9 <=? n) && (n <=? 13)) || ((28 <=? n) && (n <=? 32))
  || (n =? 133) || (n =? 160).

Inductive item :=
  | Directive (c : ascii)
  | Whitespace
  | Literal (c : ascii).

Fixpoint compile (fmt : list ascii) : list item :=
  match fmt with
  | [] => []
  | "%"%char :: c :: rest => Directive c :: compile rest
  | a :: rest =>
      if is_whitespace a then
        match compile rest with
        | Whitespace :: its => Whitespace :: its
        | its => Whitespace :: its
        end
      else Literal a :: compile rest
  end.

Record fields := mkf {
  fY : option nat; fm : option nat; fd : option nat;
  fH : option nat; fM : option nat; fS : option nat
}.

Definition no_fields : fields := mkf None None None None None None.

Definition set_field (c : ascii) (v : nat) (f : fields) : fields :=
  match c with
  | "Y"%char => mkf (Some v) (fm f) (fd f) (fH f) (fM f) (fS f)
  | "m"%char => mkf (fY f) (Some v) (fd f) (fH f) (fM f) (fS f)
  | "d"%char => mkf (fY f) (fm f) (Some v) (fH f) (fM f) (fS f)
  | "H"%char => mkf (fY f) (fm f) (fd f) (Some v) (fM f) (fS f)
  | "M"%char => mkf (fY f) (fm f) (fd f) (fH f) (Some v) (fS f)
  | "S"%char => mkf (fY f) (fm f) (fd f) (fH f) (fM f) (Some v)
  | _ => f
  end.

Fixpoint leading_spaces (s : list ascii) : nat :=
  match s with
  | a :: s' => if is_whitespace a then S (leading_spaces s') else 0
  | [] => 0
  end.

(** All matches of the compiled format, most preferred first. *)
Fixpoint match_items (its : list item) (s : list ascii) (acc : fields)
  : list (fields * list ascii) :=
  match its with
  | [] => [(acc, s)]
  | Directive c :: its' =>
      flat_map (λ alt,
        match match_alt alt s with
        | Some (m, r) => match_items its' r (set_field c (value m) acc)
        | None => []
        end) (alternatives c)
  | Whitespace :: its' =>
      flat_map (λ k, match_items its' (list.drop k s) acc)
               (reverse (seq 1 (leading_spaces s)))
  | Literal c :: its' =>
      match s with
      | a :: s' =>
          if decide (pystr.lower_char a = pystr.lower_char c)
          then match_items its' s' acc else []
      | [] => []
      end
  end.

Definition is_leap (y : nat) : bool :=
  ((y mod 4 =? 0) && negb (y mod 100 =? 0)) || (y mod 400 =? 0).

Definition days_in_month (y m : nat) : nat :=
  match m with
  | 2 => if is_leap y then 29 else 28
  | 4 | 6 | 9 | 11 => 30
  | _ => 31
  end.

(** The [datetime(...)] constructor's range checks. *)
Definition construct (f : fields) : result t :=
  let y := default 1900 (fY f) in
  let m := default 1 (fm f) in
  let d := default 1 (fd f) in
  let H := default 0 (fH f) in
  let M := default 0 (fM f) in
  let S := default 0 (fS f) in
  if (1 <=? y) && (y <=? 9999) && (1 <=? m) && (m <=? 12)
     && (1 <=? d) && (d <=? days_in_month y m)
     && (H <=? 23) && (M <=? 59) && (S <=? 59)
  then Ok (mk y m d H M S)
  else Raise ValueError.

(** [datetime.strptime(date_string, format)] *)
Definition strptime (date_string format : string) : result t :=
  match match_items (compile (String.list_ascii_of_string format))
                    (String.list_ascii_of_string date_string) no_fields with
  | (f, []) :: _ => construct f
  | _ => Raise ValueError
  end.

(** [datetime.fromtimestamp(ts)], for a timestamp [ts] given by its local
    calendar reading [d], whose year is not bounded: the library raises
    where the year is not one a [datetime] can hold ([ValueError]; for a
    timestamp beyond the range of the platform it is [OverflowError] or
    [OSError], which the model does not tell apart from it). *)
Definition fromtimestamp (d : t) : result t :=
  if (1 <=? year d) && (year d <=? 9999) then Ok d else Raise ValueError.

End datetime.

(** ** The filesystem *)

(** A path, as the list of its components ([[]] is the root). *)
Abbreviation pathname := (list string).

(** A value of the EXIF dictionary, by its Python type: [str] for an ASCII
    tag, and what the reader makes of the other tag types. *)
Inductive tag_value :=
  | Text (s : string)
  | Int (n : Z)
  | Bytes (b : string)
  | Tuple (items : list Z).

(** What the EXIF reader sees in a file: on [NotAnImage] the reader
    raises ([Image.open(p)] cannot identify the file, or the image has no
    [_getexif]); [_getexif()] returns [None] on [NoExif] and the tag
    dictionary on [Exif]. *)
Inductive image_data :=
  | NotAnImage
  | NoExif
  | Exif (tags : gmap Z tag_value).

(** The modification time [st_mtime] of a node is kept as the local
    calendar reading of the timestamp; its year may lie outside the range
    of [datetime], see [datetime.fromtimestamp]. *)
Record regfile := mkfile {
  content : string;
  mtime : datetime.t;
  image : image_data
}.

Inductive node :=
  | File (f : regfile)
  | Dir (m : datetime.t).

Abbreviation filesystem := (gmap pathname node).

Definition node_mtime (n : node) : datetime.t :=
  match n with File f => mtime f | Dir m => m end.

Definition is_file (o : option node) : bool :=
  match o with Some (File _) => true | _ => false end.
Definition is_dir (o : option node) : bool :=
  match o with Some (Dir _) => true | _ => false end.

(** [child_name p k = Some n] when [k] is the entry [n] of directory [p]. *)
Fixpoint child_name (p k : pathname) : option string :=
  match p, k with
  | [], [n] => Some n
  | a :: p', b :: k' => if decide (a = b) then child_name p' k' else None
  | _, _ => None
  end.

(** [strip_prefix p k = Some r] when [k = p ++ r]. *)
Fixpoint strip_prefix (p k : pathname) : option pathname :=
  match p, k with
  | [], _ => Some k
  | a :: p', b :: k' => if decide (a = b) then strip_prefix p' k' else None
  | _ :: _, [] => None
  end.

Definition children (fs : filesystem) (p : pathname) : list string :=
  omap (child_name p) (elements (dom fs)).

Module os.

Module path.

Definition join (folder : pathname) (name : string) : pathname :=
  folder ++ [name].

Definition dirname (p : pathname) : pathname := removelast p.

Definition basename (p : pathname) : string := List.last p "".

(** [os.path.splitext] of a file name: the extension starts at the
    last dot, unless only dots precede it. *)
Definition splitext (name : string) : string * string :=
  match pystr.rfind "." name with
  | None => (name, "")
  | Some i =>
      if pystr.all_char "." (pystr.take i name) then (name, "")
      else (pystr.take i name, pystr.drop i name)
  end.

Definition exists_ (fs : filesystem) (p : pathname) : bool :=
  bool_decide (is_Some (fs !! p)).

Definition isdir (fs : filesystem) (p : pathname) : bool :=
  is_dir (fs !! p).

Definition isfile (fs : filesystem) (p : pathname) : bool :=
  is_file (fs !! p).

End path.

Record stat_result := { st_mtime : datetime.t }.

(** Whether a proper ancestor of the path is a regular file; the path is
    given in reverse. *)
Fixpoint below_file (fs : filesystem) (rp : pathname) : bool :=
  match rp with
  | [] => false
  | _ :: rp' => is_file (fs !! reverse rp') || below_file fs rp'
  end.

(** [os.stat(p)]: a missing path raises [FileNotFoundError], or
    [NotADirectoryError] where the walk towards it meets a regular file. *)
Definition stat (fs : filesystem) (p : pathname) : result stat_result :=
  match fs !! p with
  | Some n => Ok {| st_mtime := node_mtime n |}
  | None =>
      if below_file fs (reverse p) then Raise NotADirectoryError
      else Raise FileNotFoundError
  end.

Definition listdir (fs : filesystem) (p : pathname) : result (list string) :=
  match fs !! p with
  | Some (Dir _) => Ok (merge_sort String.le (children fs p))
  | Some (File _) => Raise NotADirectoryError
  | None => Raise FileNotFoundError
  end.

(** The directory that is to receive a new entry [p] must exist. *)
Definition check_parent (fs : filesystem) (p : pathname) : result unit :=
  match p with
  | [] => Raise FileExistsError
  | _ =>
      match fs !! path.dirname p with
      | Some (Dir _) => Ok ()
      | Some (File _) => Raise NotADirectoryError
      | None => Raise FileNotFoundError
      end
  end.

Definition mkdir (now : datetime.t) (fs : filesystem) (p : pathname)
  : result filesystem :=
  match fs !! p with
  | Some _ => Raise FileExistsError
  | None => _ ← check_parent fs p; Ok (<[p := Dir now]> fs)
  end.

(** [os.makedirs(p)]: create the missing ancestors, then [p] itself.
    The path is taken in reverse so that the recursion on the head of
    the path is structural. *)
Fixpoint makedirs_rev (now : datetime.t) (fs : filesystem)
    (rp : pathname) : result filesystem :=
  match rp with
  | [] => mkdir now fs []
  | tail :: rhead =>
      fs' ← (if negb (path.exists_ fs (reverse rhead)) && bool_decide (rhead ≠ [])
             then makedirs_rev now fs rhead else Ok fs);
      mkdir now fs' (reverse rp)
  end.

Definition makedirs (now : datetime.t) (fs : filesystem) (p : pathname)
  : result filesystem :=
  makedirs_rev now fs (reverse p).

Definition remove (fs : filesystem) (p : pathname) : result filesystem :=
  match fs !! p with
  | Some (File _) => Ok (delete p fs)
  | Some (Dir _) => Raise IsADirectoryError
  | None => Raise FileNotFoundError
  end.

Definition rmdir (fs : filesystem) (p : pathname) : result filesystem :=
  match fs !! p with
  | Some (Dir _) =>
      match children fs p with
      | [] => Ok (delete p fs)
      | _ => Raise DirectoryNotEmpty
      end
  | Some (File _) => Raise NotADirectoryError
  | None => Raise FileNotFoundError
  end.

End os.

Module shutil.

(** [shutil.copy(src, dst)]: contents and permission bits, not the
    timestamps, so the copy is stamped [now]. *)
Definition copy (now : datetime.t) (fs : filesystem) (src dst : pathname)
  : result filesystem :=
  let dst := if os.path.isdir fs dst
             then os.path.join dst (os.path.basename src) else dst in
  if bool_decide (src = dst) && os.path.exists_ fs src then Raise SameFileError
  else
    match fs !! src with
    | None => Raise FileNotFoundError
    | Some (Dir _) => Raise IsADirectoryError
    | Some (File f) =>
        let new := File (mkfile (content f) now (image f)) in
        match fs !! dst with
        | Some (Dir _) => Raise IsADirectoryError
        | Some (File _) => Ok (<[dst := new]> fs)
        | None => _ ← os.check_parent fs dst; Ok (<[dst := new]> fs)
        end
    end.

Definition rebase (src dst k : pathname) : pathname :=
  match strip_prefix src k with
  | Some rest => dst ++ rest
  | None => k
  end.

(** The whole tree under [src] renamed to [dst]. *)
Definition rename_tree (fs : filesystem) (src dst : pathname) : filesystem :=
  list_to_map (prod_map (rebase src dst) id <$> map_to_list fs).

(** [os.rename(src, real_dst)] and, where it fails, the fall-back of
    [shutil.move] (copy and delete), on one device. *)
Definition rename_or_copy (now : datetime.t) (fs : filesystem)
    (src real_dst dst : pathname) : result filesystem :=
  match fs !! src with
  | None => Raise FileNotFoundError
  | Some (File f) =>
      if decide (src = real_dst) then Ok fs
      else
        match fs !! real_dst with
        | Some (Dir _) => Raise IsADirectoryError
        | Some (File _) => Ok (<[real_dst := File f]> (delete src fs))
        | None =>
            _ ← os.check_parent fs real_dst;
            Ok (<[real_dst := File f]> (delete src fs))
        end
  | Some (Dir _) =>
      if bool_decide (is_Some (strip_prefix src dst))
      then Raise (ShutilError "Cannot move a directory into itself")
      else
        match fs !! real_dst with
        | Some _ => Raise FileExistsError
        | None =>
            fs' ← (if os.path.exists_ fs (os.path.dirname real_dst)
                   then _ ← os.check_parent fs real_dst; Ok fs
                   else os.makedirs now fs (os.path.dirname real_dst));
            Ok (rename_tree fs' src real_dst)
        end
  end.

(** [shutil.move(src, dst)] *)
Definition move (now : datetime.t) (fs : filesystem) (src dst : pathname)
  : result filesystem :=
  if os.path.isdir fs dst then
    if decide (src = dst) then Ok fs
    else
      let real_dst := os.path.join dst (os.path.basename src) in
      if os.path.exists_ fs real_dst
      then Raise (ShutilError "Destination path already exists")
      else rename_or_copy now fs src real_dst dst
  else rename_or_copy now fs src dst dst.

End shutil.

Module PIL.

(** [Image.open(p)._getexif()] *)
Definition getexif (fs : filesystem) (p : pathname)
  : result (option (gmap Z tag_value)) :=
  match fs !! p with
  | Some (File f) =>
      match image f with
      | NotAnImage => Raise UnidentifiedImageError
      | NoExif => Ok None
      | Exif tags => Ok (Some tags)
      end
  | Some (Dir _) => Raise IsADirectoryError
  | None => Raise FileNotFoundError
  end.

End PIL.

(** The world outside the engine object. *)
Record World := mkWorld {
  fs : filesystem;
  clock : datetime.t;        (* what datetime.now() returns *)
  pil_available : bool       (* whether [from PIL import Image] succeeds *)
}.

(** ** The engine object and its monad *)

(** One manifest entry (the dictionaries appended to [moved_files] and
    [copied_files]). *)
Record file_info := mk_file_info {
  file : string;
  from : pathname;
  to : pathname;
  date_folder : string;
  date_source : string
}.

(** The dictionary built by [_track_operation]. *)
Record operation := mk_operation {
  type : string;
  files : list file_info;
  timestamp : datetime.t
}.

Record FileManagementLogic := mk_logic {
  target_folder_path : pathname;
  destination_folder_path : pathname;
  format_type : string;
  last_operation : option operation;
  operation_history : list operation
}.

(** [FileManagementLogic.__init__] *)
Definition __init__ (target_folder_path project_folder_path : pathname)
    (format_type : string) : FileManagementLogic :=
  {| target_folder_path := target_folder_path;
     destination_folder_path := project_folder_path;
     format_type := format_type;
     last_operation := None;
     operation_history := [] |}.

Record State := mkState { self : FileManagementLogic; world : World }.

Definition M (A : Type) : Type := State → result A * State.

Global Instance M_ret : MRet M := λ A a st, (Ok a, st).
Global Instance M_bind : MBind M := λ A B f m st,
  match m st with
  | (Ok a, st') => f a st'
  | (Raise e, st') => (Raise e, st')
  end.

(** [try: body except Exception as e: handler e]; with [catches], the
    clause [except <class>] that only catches some exceptions. *)
Definition try_except_if {A} (catches : exn → bool) (body : M A)
    (handler : exn → M A) : M A := λ st,
  match body st with
  | (Ok a, st') => (Ok a, st')
  | (Raise e, st') => if catches e then handler e st' else (Raise e, st')
  end.

Definition try_except {A} (body : M A) (handler : exn → M A) : M A :=
  try_except_if (λ _, true) body handler.

(** Every exception of the model but [ValueError] and [TypeError] is an
    [OSError]. *)
Definition is_OSError (e : exn) : bool :=
  match e with ValueError | TypeError => false | _ => true end.
Definition is_ValueError (e : exn) : bool :=
  match e with ValueError => true | _ => false end.

(** [for x in xs: body], threading the local variables [s]. *)
Fixpoint for_ {A S} (xs : list A) (body : A → S → M S) (s : S) : M S :=
  match xs with
  | [] => mret s
  | x :: xs' => s' ← body x s; for_ xs' body s'
  end.

Definition get_self : M FileManagementLogic := λ st, (Ok (self st), st).
Definition get_world : M World := λ st, (Ok (world st), st).

(** A runtime call that reads the filesystem. *)
Definition reads {A} (f : filesystem → result A) : M A := λ st,
  (f (fs (world st)), st).

(** A runtime call that changes the filesystem. *)
Definition writes (f : datetime.t → filesystem → result filesystem)
  : M unit := λ st,
  match f (clock (world st)) (fs (world st)) with
  | Ok fs' =>
      (Ok (), mkState (self st)
                (mkWorld fs' (clock (world st)) (pil_available (world st))))
  | Raise e => (Raise e, st)
  end.

Definition set_last_operation (o : option operation) : M unit := λ st,
  let s := self st in
  (Ok (), mkState (mk_logic (target_folder_path s) (destination_folder_path s)
                     (format_type s) o (operation_history s)) (world st)).

Definition set_operation_history (h : list operation) : M unit := λ st,
  let s := self st in
  (Ok (), mkState (mk_logic (target_folder_path s) (destination_folder_path s)
                     (format_type s) (last_operation s) h) (world st)).

(** A runtime call that touches neither the engine nor the filesystem. *)
Definition call {A} (r : result A) : M A := λ st, (r, st).

Definition os_path_exists (p : pathname) : M bool :=
  reads (λ fs, Ok (os.path.exists_ fs p)).
Definition os_path_isdir (p : pathname) : M bool :=
  reads (λ fs, Ok (os.path.isdir fs p)).

Definition path_str (p : pathname) : string :=
  foldr (λ c acc, "/" +:+ c +:+ acc) "" p.

(** ** [FileManagementLogic]: date resolution *)

(** [format_date] *)
Definition format_date (self : FileManagementLogic) : string :=
  if decide (format_type self = "DD-MM-YYYY") then "%d-%m-%Y"
  else if decide (format_type self = "MM-DD-YYYY") then "%m-%d-%Y"
  else if decide (format_type self = "YYYY-MM-DD") then "%Y-%m-%d"
  else "%Y-%m-%d".

Definition image_extensions : list string :=
  [".jpg"; ".jpeg"; ".png"; ".gif"; ".bmp"; ".tiff"; ".tif"].

(** The EXIF tag numbers probed, in the order of the source. *)
Definition date_fields : list Z := [36867; 36868; 306; 50971]%Z.

(** The inner loop [for fmt in [...]: try: return strptime(date_str, fmt)
    except ValueError: continue].  [Ok (Some d)] is the [return];
    [Ok None] means that the loop ran to its end. *)
Fixpoint try_formats (date_str : string) (fmts : list string)
  : result (option datetime.t) :=
  match fmts with
  | [] => Ok None
  | fmt :: fmts' =>
      match datetime.strptime date_str fmt with
      | Ok d => Ok (Some d)
      | Raise e =>
          if is_ValueError e then try_formats date_str fmts' else Raise e
      end
  end.

(** The body of [try:] for one tag value. *)
Definition parse_exif_value (date_str : string) : result (option datetime.t) :=
  if pystr.contains ":" date_str then
    let date_str := pystr.replace ":" "-" 2 date_str in
    let date_str := pystr.replace ":" " " 1 date_str in
    d ← datetime.strptime date_str "%Y-%m-%d %H:%M:%S"; Ok (Some d)
  else
    try_formats date_str ["%Y-%m-%d %H:%M:%S"; "%Y-%m-%d"; "%Y/%m/%d"].

(** Truth value of a tag value, as [if date_str:] takes it. *)
Definition tag_truthy (v : tag_value) : bool :=
  match v with
  | Text s => pystr.truthy s
  | Int n => bool_decide (n ≠ 0%Z)
  | Bytes b => pystr.truthy b
  | Tuple items => bool_decide (items ≠ [])
  end.

(** The body of [try:] for a tag value of any type.  On a number or on
    bytes the test [':' in date_str] raises [TypeError]; on a tuple of
    numbers the test is false and the first [strptime] of the [else]
    branch raises [TypeError], which [except ValueError] lets through. *)
Definition parse_tag_value (v : tag_value) : result (option datetime.t) :=
  match v with
  | Text date_str => parse_exif_value date_str
  | Int _ | Bytes _ | Tuple _ => Raise TypeError
  end.

(** The loop [for field_id in date_fields], then [return None]. *)
Fixpoint probe_fields (exif_data : gmap Z tag_value) (fields : list Z)
  : result (option datetime.t) :=
  match fields with
  | [] => Ok None
  | field_id :: fields' =>
      match exif_data !! field_id with
      | Some date_str =>
          if tag_truthy date_str then
            match parse_tag_value date_str with
            | Ok (Some d) => Ok (Some d)
            | Ok None => probe_fields exif_data fields'
            | Raise e =>
                if is_ValueError e then probe_fields exif_data fields'
                else Raise e
            end
          else probe_fields exif_data fields'
      | None => probe_fields exif_data fields'
      end
  end.

(** [_get_exif_date]; the handler prints a warning before it returns
    [None]. *)
Definition _get_exif_date (file_path : pathname) : M (option datetime.t) :=
  try_except
    (let file_ext :=
       pystr.lower (os.path.splitext (os.path.basename file_path)).2 in
     if negb (bool_decide (file_ext ∈ image_extensions)) then mret None
     else
       w ← get_world;
       if negb (pil_available w) then mret None
       else
         exif_data ← reads (λ fs, PIL.getexif fs file_path);
         match exif_data with
         | None => mret None
         | Some exif_data => call (probe_fields exif_data date_fields)
         end)
    (λ e, mret None).

(** The dictionary returned by [get_file_date_info]. *)
Record date_info := mk_date_info {
  date : string;
  source : string;
  original_date : datetime.t;
  datetime_original : string
}.

(** [get_file_date_info] *)
Definition get_file_date_info (file_name : string) : M date_info :=
  self ← get_self;
  let file_path := os.path.join (target_folder_path self) file_name in
  file_stats ← reads (λ fs, os.stat fs file_path);
  photo_date ← _get_exif_date file_path;
  match photo_date with
  | Some photo_date =>
      mret {| date := datetime.strftime photo_date (format_date self);
              source := "EXIF data";
              original_date := photo_date;
              datetime_original :=
                datetime.strftime photo_date "%Y-%m-%d %H:%M:%S" |}
  | None =>
      mtime ← call (datetime.fromtimestamp (os.st_mtime file_stats));
      mret {| date := datetime.strftime mtime (format_date self);
              source := "File modification time";
              original_date := mtime;
              datetime_original :=
                datetime.strftime mtime "%Y-%m-%d %H:%M:%S" |}
  end.

(** [read_file_date_properties] *)
Definition read_file_date_properties (file_name : string) : M string :=
  self ← get_self;
  let file_path := os.path.join (target_folder_path self) file_name in
  file_stats ← reads (λ fs, os.stat fs file_path);
  photo_date ← _get_exif_date file_path;
  match photo_date with
  | Some photo_date => mret (datetime.strftime photo_date (format_date self))
  | None =>
      mtime ← call (datetime.fromtimestamp (os.st_mtime file_stats));
      mret (datetime.strftime mtime (format_date self))
  end.

(** ** Listing, counting and the history *)

(** [get_target_folder_files_count] *)
Definition get_target_folder_files_count : M nat :=
  self ← get_self;
  names ← reads (λ fs, os.listdir fs (target_folder_path self));
  w ← get_world;
  mret (length (filter
    (λ name, os.path.isfile (fs w) (os.path.join (target_folder_path self) name) = true)
    names)).

(** [get_target_files] *)
Definition get_target_files : M (list string) :=
  self ← get_self;
  reads (λ fs, os.listdir fs (target_folder_path self)).

(** [_track_operation] *)
Definition _track_operation (operation_type : string)
    (files_info : list file_info) : M unit :=
  w ← get_world;
  let op := {| type := operation_type; files := files_info;
               timestamp := clock w |} in
  _ ← set_last_operation (Some op);
  self ← get_self;
  _ ← set_operation_history (operation_history self ++ [op]);
  self ← get_self;
  if 10 <? length (operation_history self)
  then set_operation_history (tail (operation_history self))
  else mret ().

(** The block [if not os.path.exists(folder_path): os.makedirs(folder_path)],
    which [create_folder_with_date] and both batch loops contain. *)
Definition ensure_folder (folder_path : pathname) : M unit :=
  ex ← os_path_exists folder_path;
  if negb ex then writes (λ now fs, os.makedirs now fs folder_path)
  else mret ().

(** The body of the loop of [create_folder_with_date] (the loop has no
    local variable to thread). *)
Definition create_folder_body (file_name : string) (_ : unit) : M unit :=
  file_date ← read_file_date_properties file_name;
  self ← get_self;
  let folder_path := os.path.join (destination_folder_path self) file_date in
  ensure_folder folder_path.

(** [create_folder_with_date] *)
Definition create_folder_with_date : M unit :=
  names ← get_target_files;
  for_ names create_folder_body ().

(** ** Batch execution *)

(** The loop [while os.path.exists(destination_path)] of the collision
    policy, with [counter] and [destination_path] as loop variables.  The
    recursion is bounded by [fuel]; [collision_loop_total] shows that
    [S (size fs)] iterations always suffice, so [None] never comes out of
    [unique_destination]. *)
Fixpoint collision_loop (fuel : nat) (fs : filesystem) (folder_path : pathname)
    (base_name extension : string) (destination_path : pathname)
    (counter : nat) : option pathname :=
  if os.path.exists_ fs destination_path then
    match fuel with
    | O => None
    | S fuel' =>
        let new_name := base_name +:+ "_" +:+ pretty counter +:+ extension in
        collision_loop fuel' fs folder_path base_name extension
          (os.path.join folder_path new_name) (S counter)
    end
  else Some destination_path.

(** The block [if os.path.exists(destination_path): ...] shared by copy
    and move. *)
Definition unique_destination (folder_path : pathname) (file_name : string)
    (destination_path : pathname) : M pathname :=
  ex ← os_path_exists destination_path;
  if ex : bool then
    let base_name := (os.path.splitext file_name).1 in
    let extension := (os.path.splitext file_name).2 in
    w ← get_world;
    mret (default destination_path
            (collision_loop (S (size (fs w))) (fs w) folder_path
               base_name extension destination_path 1))
  else mret destination_path.

(** The body of the [for] loop of the two batch methods; they differ in
    the transfer ([shutil.move] or [shutil.copy]) only.  Each branch also
    prints its message (the folder created, the file transferred, the
    error), the handler included. *)
Definition transfer_body
    (transfer : datetime.t → filesystem → pathname → pathname → result filesystem)
    (file_name : string) (acc : list file_info * list string)
  : M (list file_info * list string) :=
  let '(done, errors) := acc in
  try_except
    (file_date_info ← get_file_date_info file_name;
     let file_date := date file_date_info in
     self ← get_self;
     let folder_path := os.path.join (destination_folder_path self) file_date in
     _ ← ensure_folder folder_path;
     let source_path := os.path.join (target_folder_path self) file_name in
     let destination_path := os.path.join folder_path file_name in
     ex ← os_path_exists source_path;
     if negb ex then
       mret (done, errors ++ ["Source file not found: " +:+ path_str source_path])
     else
       destination_path ← unique_destination folder_path file_name destination_path;
       _ ← writes (λ now fs, transfer now fs source_path destination_path);
       mret (done ++ [{| file := file_name;
                         from := source_path;
                         to := destination_path;
                         date_folder := file_date;
                         date_source := source file_date_info |}],
             errors))
    (λ e, mret (done, errors ++ ["Error processing file '" +:+ file_name
                                   +:+ "': " +:+ exn_str e])).

(** [move_files_to_destination_folder] *)
Definition move_files_to_destination_folder
  : M (list file_info * list string) :=
  names ← get_target_files;
  '(moved_files, errors) ← for_ names (transfer_body shutil.move) ([], []);
  _ ← (if bool_decide (moved_files ≠ []) then _track_operation "move" moved_files
       else mret ());
  mret (moved_files, errors).

(** [copy_files_to_destination_folder] *)
Definition copy_files_to_destination_folder
  : M (list file_info * list string) :=
  names ← get_target_files;
  '(copied_files, errors) ← for_ names (transfer_body shutil.copy) ([], []);
  _ ← (if bool_decide (copied_files ≠ []) then _track_operation "copy" copied_files
       else mret ());
  mret (copied_files, errors).

(** [organize_files_by_date]: the first loop only gathers what is printed
    (the header, the groups, and a message for every name whose date
    cannot be read). *)
Definition organize_files_by_date : M (list file_info * list string) :=
  names ← get_target_files;
  files_with_dates ← for_ names (λ file_name files_with_dates,
    try_except
      (file_date_info ← get_file_date_info file_name;
       mret (files_with_dates ++ [(file_name, date file_date_info)]))
      (λ e, mret files_with_dates)) [];
  move_files_to_destination_folder.

(** [move] *)
Definition move : M (list file_info * list string) :=
  organize_files_by_date.

(** [copy] *)
Definition copy : M (list file_info * list string) :=
  _ ← create_folder_with_date;
  copy_files_to_destination_folder.

(** ** Undo *)

(** The body of the loop of [_remove_empty_folders]; [removed_folders]
    is the loop's counter. *)
Definition remove_empty_body (folder_path : pathname) (removed_folders : nat)
  : M nat :=
  ex ← os_path_exists folder_path;
  isd ← os_path_isdir folder_path;
  if ex && isd then
    try_except_if is_OSError
      (contents ← reads (λ fs, os.listdir fs folder_path);
       match contents with
       | [] =>
           _ ← writes (λ _ fs, os.rmdir fs folder_path);
           mret (S removed_folders)
       | _ => mret removed_folders
       end)
      (λ e, mret removed_folders)
  else mret removed_folders.

(** [_remove_empty_folders]; the Python set is visited in the order of
    [elements]. *)
Definition _remove_empty_folders (folders_to_check : gset pathname) : M unit :=
  try_except
    (removed_folders ← for_ (elements folders_to_check) remove_empty_body 0;
     mret ())
    (λ e, mret ()).

(** The body of the loop of [_undo_move_operation]. *)
Definition undo_move_body (file_info : file_info)
    (acc : nat * gset pathname) : M (nat * gset pathname) :=
  let '(moved_back, folders_to_check) := acc in
  let source_path := from file_info in
  let current_path := to file_info in
  ex ← os_path_exists current_path;
  if ex : bool then
    _ ← writes (λ now fs, shutil.move now fs current_path source_path);
    mret (S moved_back, {[os.path.dirname current_path]} ∪ folders_to_check)
  else mret (moved_back, folders_to_check).

(** [_undo_move_operation] *)
Definition _undo_move_operation (files_info : list file_info) : M bool :=
  try_except
    ('(moved_back, folders_to_check) ← for_ files_info undo_move_body (0, ∅);
     _ ← _remove_empty_folders folders_to_check;
     _ ← set_last_operation None;
     mret true)
    (λ e, mret false).

(** The body of the loop of [_undo_copy_operation]. *)
Definition undo_copy_body (file_info : file_info)
    (acc : nat * gset pathname) : M (nat * gset pathname) :=
  let '(removed, folders_to_check) := acc in
  let current_path := to file_info in
  ex ← os_path_exists current_path;
  if ex : bool then
    _ ← writes (λ _ fs, os.remove fs current_path);
    mret (S removed, {[os.path.dirname current_path]} ∪ folders_to_check)
  else mret (removed, folders_to_check).

(** [_undo_copy_operation] *)
Definition _undo_copy_operation (files_info : list file_info) : M bool :=
  try_except
    ('(removed, folders_to_check) ← for_ files_info undo_copy_body (0, ∅);
     _ ← _remove_empty_folders folders_to_check;
     _ ← set_last_operation None;
     mret true)
    (λ e, mret false).

(** [undo_last_action] *)
Definition undo_last_action : M bool :=
  self ← get_self;
  match last_operation self with
  | None => mret false
  | Some last_operation =>
      try_except
        (let operation_type := type last_operation in
         let files_info := files last_operation in
         if decide (operation_type = "move") then
           _undo_move_operation files_info
         else if decide (operation_type = "copy") then
           _undo_copy_operation files_info
         else mret false)
        (λ e, mret false)
  end.

(** ** Preview *)

Module preview.

(** The dictionaries gathered in [files_with_dates]. *)
Record entry := mk_entry {
  name : string;
  date : string;
  source : string;
  source_path : pathname
}.

End preview.

(** The first loop of [preview_organization]: the date of every listed
    name; a name whose date cannot be read is left out. *)
Definition files_with_dates : M (list preview.entry) :=
  names ← get_target_files;
  for_ names (λ file_name files_with_dates,
    try_except
      (file_date_info ← get_file_date_info file_name;
       self ← get_self;
       mret (files_with_dates ++
               [{| preview.name := file_name;
                   preview.date := date file_date_info;
                   preview.source := source file_date_info;
                   preview.source_path :=
                     os.path.join (target_folder_path self) file_name |}]))
      (λ e, mret files_with_dates)) [].

(** One round of the loop [for file_info in files_with_dates] that fills
    the dictionary [date_groups]. *)
Definition group_step (date_groups : gmap string (list preview.entry))
    (file_info : preview.entry) : gmap string (list preview.entry) :=
  let date := preview.date file_info in
  let date_groups :=
    match date_groups !! date with
    | None => <[date := []]> date_groups
    | Some _ => date_groups
    end in
  <[date := default [] (date_groups !! date) ++ [file_info]]> date_groups.

(** [preview_organization]; the dictionary it returns maps every date to
    the list of its files (the order of the keys is not modelled).  The
    method prints a header, a message for every name whose date cannot be
    read, and every group with its names. *)
Definition preview_organization : M (gmap string (list preview.entry)) :=
  files_with_dates ← files_with_dates;
  mret (foldl group_step ∅ files_with_dates).

(** * Definitions used by the statements and the proofs *)

(** The name tried at round [counter] of the collision loop. *)
Definition candidate (folder_path : pathname) (base_name extension : string)
    (counter : nat) : pathname :=
  os.path.join folder_path (base_name +:+ "_" +:+ pretty counter +:+ extension).

Definition with_fs (st : State) (fs' : filesystem) : State :=
  mkState (self st)
    (mkWorld fs' (clock (world st)) (pil_available (world st))).

(** [steps R m]: whatever [m] returns or raises, the state it leaves is
    related by [R] to the state it started from. *)
Definition steps (R : relation State) {A} (m : M A) : Prop :=
  ∀ st, R st (m st).2.

(** A relation on states from one on engine objects and one on
    filesystems; the clock and the EXIF capability never change. *)
Definition state_rel (Rs : relation FileManagementLogic)
    (Rf : relation filesystem) : relation State := λ st st',
  Rs (self st) (self st')
  ∧ clock (world st') = clock (world st)
  ∧ pil_available (world st') = pil_available (world st)
  ∧ Rf (fs (world st)) (fs (world st')).

Definition any_fs : relation filesystem := λ _ _, True.

(** Only directories are added. *)
Definition grows_dirs : relation filesystem := λ fs fs',
  fs ⊆ fs' ∧ ∀ p f, fs' !! p = Some (File f) → fs !! p = Some (File f).

(** Only directories are added, and only on the way to [p]. *)
Definition grows_toward (p : pathname) : relation filesystem := λ fs fs',
  grows_dirs fs fs'
  ∧ ∀ q, fs !! q = None → is_Some (fs' !! q) → q `prefix_of` p.

(** Only directories are added, and only on the way to a bucket of the
    destination root [dest]. *)
Definition grows_in (dest : pathname) : relation filesystem := λ fs fs',
  grows_dirs fs fs'
  ∧ ∀ q, fs !! q = None → is_Some (fs' !! q) →
         ∃ bucket, q `prefix_of` os.path.join dest bucket.

(** Cleaning up folders deletes directories only. *)
Definition dirs_removed : relation filesystem := λ fs fs',
  ∀ p, fs' !! p = fs !! p ∨ (is_dir (fs !! p) = true ∧ fs' !! p = None).

(** What holds while a move batch over the regular files [rest] runs. *)
Definition move_inv (target : pathname) (rest : list string)
    (done : list file_info) (fs : filesystem) : Prop :=
  NoDup rest
  ∧ NoDup (to <$> done)
  ∧ (∀ e, e ∈ done → is_Some (fs !! to e))
  ∧ (∀ n, n ∈ rest → is_file (fs !! os.path.join target n) = true)
  ∧ (∀ e n, e ∈ done → n ∈ rest → to e ≠ os.path.join target n).

(** What holds of the manifest [done] and the filesystem [fs] while a
    copy batch that started from [fs0] runs. *)
Definition copy_inv (target dest : pathname) (fs0 : filesystem)
    (done : list file_info) (fs : filesystem) : Prop :=
  fs0 ⊆ fs
  ∧ NoDup (to <$> done)
  ∧ (∀ e, e ∈ done →
       fs0 !! to e = None
       ∧ is_file (fs !! to e) = true
       ∧ is_file (fs0 !! from e) = true
       ∧ from e = os.path.join target (file e)
       ∧ ∃ n, to e = os.path.join (os.path.join dest (date_folder e)) n)
  ∧ (∀ p f, fs !! p = Some (File f) →
       fs0 !! p = Some (File f) ∨ p ∈ to <$> done)
  ∧ (∀ p, fs0 !! p = None → is_dir (fs !! p) = true →
       ∃ bucket, p `prefix_of` os.path.join dest bucket).

(** The engine object after [_track_operation] has recorded [op]. *)
Definition track (s : FileManagementLogic) (op : operation)
  : FileManagementLogic :=
  {| target_folder_path := target_folder_path s;
     destination_folder_path := destination_folder_path s;
     format_type := format_type s;
     last_operation := Some op;
     operation_history :=
       let h := operation_history s ++ [op] in
       if 10 <? length h then tail h else h |}.

(** The engine object after a batch that produced the manifest [entries]. *)
Definition after_batch (s : FileManagementLogic) (operation_type : string)
    (entries : list file_info) (now : datetime.t) : FileManagementLogic :=
  match entries with
  | [] => s
  | _ => track s (mk_operation operation_type entries now)
  end.

(** The shape shared by [move_files_to_destination_folder] and
    [copy_files_to_destination_folder]. *)
Definition batch_files
    (transfer : datetime.t → filesystem → pathname → pathname → result filesystem)
    (operation_type : string) : M (list file_info * list string) :=
  names ← get_target_files;
  '(done, errors) ← for_ names (transfer_body transfer) ([], []);
  _ ← (if bool_decide (done ≠ []) then _track_operation operation_type done
       else mret ());
  mret (done, errors).

(** The filesystem without the paths [ps]. *)
Definition delete_all (ps : list pathname) (fs : filesystem) : filesystem :=
  foldl (λ acc p, delete p acc) fs ps.

(** [p] is a directory without entries. *)
Definition empty_dir (fs : filesystem) (p : pathname) : Prop :=
  is_dir (fs !! p) = true ∧ children fs p = [].

Definition clear_last (s : FileManagementLogic) : FileManagementLogic :=
  mk_logic (target_folder_path s) (destination_folder_path s) (format_type s)
    None (operation_history s).

(** The methods of [FileManagementLogic] that can be called on an engine
    object, with their arguments. *)
Inductive method :=
  | Undo_last_action
  | Undo_move_operation (files_info : list file_info)
  | Undo_copy_operation (files_info : list file_info)
  | Remove_empty_folders (folders_to_check : gset pathname)
  | Track_operation (operation_type : string) (files_info : list file_info)
  | Get_target_folder_files_count
  | Get_target_files
  | Get_file_date_info (file_name : string)
  | Read_file_date_properties (file_name : string)
  | Get_exif_date (file_path : pathname)
  | Create_folder_with_date
  | Format_date
  | Move_files_to_destination_folder
  | Copy_files_to_destination_folder
  | Preview_organization
  | Organize_files_by_date
  | Move
  | Copy.

(** The state in which a call leaves the engine and the world, whether it
    returns or raises. *)
Definition perform (c : method) (st : State) : State :=
  match c with
  | Undo_last_action => (undo_last_action st).2
  | Undo_move_operation files_info => (_undo_move_operation files_info st).2
  | Undo_copy_operation files_info => (_undo_copy_operation files_info st).2
  | Remove_empty_folders folders_to_check =>
      (_remove_empty_folders folders_to_check st).2
  | Track_operation operation_type files_info =>
      (_track_operation operation_type files_info st).2
  | Get_target_folder_files_count => (get_target_folder_files_count st).2
  | Get_target_files => (get_target_files st).2
  | Get_file_date_info file_name => (get_file_date_info file_name st).2
  | Read_file_date_properties file_name =>
      (read_file_date_properties file_name st).2
  | Get_exif_date file_path => (_get_exif_date file_path st).2
  | Create_folder_with_date => (create_folder_with_date st).2
  | Format_date => st
  | Move_files_to_destination_folder => (move_files_to_destination_folder st).2
  | Copy_files_to_destination_folder => (copy_files_to_destination_folder st).2
  | Preview_organization => (preview_organization st).2
  | Organize_files_by_date => (organize_files_by_date st).2
  | Move => (move st).2
  | Copy => (copy st).2
  end.

(** What the manifest returned by a batch makes of an operation: a batch
    that raises or returns an empty manifest has none to record. *)
Definition operation_of (operation_type : string) (now : datetime.t)
    (r : result (list file_info * list string)) : option operation :=
  match r with
  | Ok (entries, _) =>
      if decide (entries = []) then None
      else Some (mk_operation operation_type entries now)
  | Raise _ => None
  end.

(** The operation that a call in the state [st] has to append to the
    history: the manifest of a batch with the kind of the batch and the
    time of the call, and the arguments of a direct [_track_operation];
    nothing for the other methods. *)
Definition recorded (c : method) (st : State) : option operation :=
  let now := clock (world st) in
  match c with
  | Track_operation operation_type files_info =>
      Some (mk_operation operation_type files_info now)
  | Move_files_to_destination_folder =>
      operation_of "move" now (move_files_to_destination_folder st).1
  | Organize_files_by_date =>
      operation_of "move" now (organize_files_by_date st).1
  | Move => operation_of "move" now (move st).1
  | Copy_files_to_destination_folder =>
      operation_of "copy" now (copy_files_to_destination_folder st).1
  | Copy => operation_of "copy" now (copy st).1
  | _ => None
  end.

Inductive event :=
  | Call (c : method)
  | Environment (w : World) (* the world is replaced from outside *).

Definition happen (ev : event) (st : State) : State :=
  match ev with
  | Call c => perform c st
  | Environment w => mkState (self st) w
  end.

(** The events in the order in which they happen. *)
Definition run_events (evs : list event) (st : State) : State :=
  foldl (λ st ev, happen ev st) st evs.

(** The operations that the calls of a run have to append, in the order of
    the calls. *)
Fixpoint recorded_along (evs : list event) (st : State) : list operation :=
  match evs with
  | [] => []
  | ev :: evs' =>
      match ev with
      | Call c => option_list (recorded c st)
      | Environment _ => []
      end ++ recorded_along evs' (happen ev st)
  end.

Definition with_format (s : FileManagementLogic) (format_type : string)
  : FileManagementLogic :=
  mk_logic (target_folder_path s) (destination_folder_path s) format_type
    (last_operation s) (operation_history s).

(** What [_get_exif_date] computes, as a function of the world. *)
Definition exif_date_of (w : World) (file_path : pathname) : option datetime.t :=
  let file_ext := pystr.lower (os.path.splitext (os.path.basename file_path)).2 in
  if negb (bool_decide (file_ext ∈ image_extensions)) then None
  else if negb (pil_available w) then None
  else
    match PIL.getexif (fs w) file_path with
    | Ok (Some exif_data) =>
        match probe_fields exif_data date_fields with
        | Ok o => o
        | Raise _ => None
        end
    | _ => None
    end.

(** The date that the two date queries settle on: the EXIF date where
    there is one, else the modification time as [datetime.fromtimestamp]
    gives it. *)
Definition resolved_date (w : World) (file_path : pathname)
    (file_stats : os.stat_result) : result datetime.t :=
  match exif_date_of w file_path with
  | Some photo_date => Ok photo_date
  | None => datetime.fromtimestamp (os.st_mtime file_stats)
  end.

Definition to_option {A} (r : result A) : option A :=
  match r with Ok a => Some a | Raise _ => None end.

(** The first format of [fmts] that parses [s]. *)
Definition first_parse (s : string) (fmts : list string) : option datetime.t :=
  head (omap (λ fmt, to_option (datetime.strptime s fmt)) fmts).

(** The three formats, in the order of the specification. *)
Definition exif_formats : list string :=
  ["%Y-%m-%d %H:%M:%S"; "%Y-%m-%d"; "%Y/%m/%d"].

(** The conversion: the first two colons become hyphens, the third a blank. *)
Definition convert_colons (s : string) : string :=
  pystr.replace ":" " " 1 (pystr.replace ":" "-" 2 s).

(** Parsing one tag value as the specification words it: convert, parse
    as [%Y-%m-%d %H:%M:%S], and on failure retry the same text against
    [%Y-%m-%d] and [%Y/%m/%d]. *)
Definition spec_parse_value (date_str : string) : option datetime.t :=
  first_parse (convert_colons date_str) exif_formats.

(** Parsing one tag value as the code does it: a value with a colon is
    converted and parsed as [%Y-%m-%d %H:%M:%S] only; a value without a
    colon is tried against the three formats. *)
Definition code_parse_value (date_str : string) : option datetime.t :=
  if pystr.contains ":" date_str
  then first_parse (convert_colons date_str) ["%Y-%m-%d %H:%M:%S"]
  else first_parse date_str exif_formats.

(** The procedure of the claim with the retry applied to the tag value as
    stored, before the conversion. *)
Definition spec_parse_stored_value (date_str : string) : option datetime.t :=
  match first_parse (convert_colons date_str) ["%Y-%m-%d %H:%M:%S"] with
  | Some d => Some d
  | None => first_parse date_str ["%Y-%m-%d"; "%Y/%m/%d"]
  end.

(** Whether the value of the tag [field_id] ends the probe: it is present
    and true, and it is no text. *)
Definition ends_probe (exif_data : gmap Z tag_value) (field_id : Z) : bool :=
  match exif_data !! field_id with
  | Some (Text _) | None => false
  | Some v => tag_truthy v
  end.

(** The tags of [fields] that come before the first one whose value ends
    the probe. *)
Fixpoint reached (exif_data : gmap Z tag_value) (fields : list Z) : list Z :=
  match fields with
  | [] => []
  | field_id :: fields' =>
      if ends_probe exif_data field_id then []
      else field_id :: reached exif_data fields'
  end.

(** The date of the tag [field_id], when the tag holds a non-empty text
    which [parse] accepts. *)
Definition tag_date (parse : string → option datetime.t)
    (exif_data : gmap Z tag_value) (field_id : Z) : option datetime.t :=
  match exif_data !! field_id with
  | Some (Text date_str) => if pystr.truthy date_str then parse date_str else None
  | _ => None
  end.

(** The date of the first tag with a date, among the tags of
    [date_fields] that the probe reaches, in their order. *)
Definition first_tag_date (parse : string → option datetime.t)
    (exif_data : gmap Z tag_value) : option datetime.t :=
  head (omap (tag_date parse exif_data) (reached exif_data date_fields)).

(** The dictionary that the date queries return for the date [d] taken
    from [source]. *)
Definition info_of (s : FileManagementLogic) (source : string) (d : datetime.t)
  : date_info :=
  {| date := datetime.strftime d (format_date s);
     source := source;
     original_date := d;
     datetime_original := datetime.strftime d "%Y-%m-%d %H:%M:%S" |}.


Definition noon (y m d : nat) : datetime.t := datetime.mk y m d 12 0 0.

Definition today : datetime.t := datetime.mk 2026 11 3 9 0 0.

Definition plain (c : string) (m : datetime.t) : node :=
  File (mkfile c m NotAnImage).

Definition photo (c : string) (m : datetime.t) (tags : gmap Z tag_value) : node :=
  File (mkfile c m (Exif tags)).

Definition engine : FileManagementLogic := __init__ ["src"] ["dst"] "YYYY-MM-DD".

(** A source with one document, an empty destination. *)
Definition world_plain : World :=
  mkWorld (list_to_map [
    ([], Dir (noon 2024 1 1)); (["src"], Dir (noon 2024 1 1));
    (["dst"], Dir (noon 2024 1 1));
    (["src"; "doc.txt"], plain "hello" (noon 2024 3 10))]) today true.

(** A source with a document and a subdirectory. *)
Definition world_subdir : World :=
  mkWorld (list_to_map [
    ([], Dir (noon 2024 1 1)); (["src"], Dir (noon 2024 1 1));
    (["dst"], Dir (noon 2024 1 1));
    (["src"; "doc.txt"], plain "hello" (noon 2024 3 10));
    (["src"; "sub"], Dir (noon 2023 1 15));
    (["src"; "sub"; "x.txt"], plain "x" (noon 2023 1 15))]) today true.

(** The destination root is a regular file. *)
Definition world_destfile : World :=
  mkWorld (list_to_map [
    ([], Dir (noon 2024 1 1)); (["src"], Dir (noon 2024 1 1));
    (["src"; "doc.txt"], plain "hello" (noon 2024 3 10));
    (["dst"], plain "not a directory" (noon 2024 1 1))]) today true.

(** Organising a directory in place: source and destination are [/d],
    which holds the bucket [2024-01-01] of an earlier run. *)
Definition engine_inplace : FileManagementLogic :=
  __init__ ["d"] ["d"] "YYYY-MM-DD".

Definition world_inplace : World :=
  mkWorld (list_to_map [
    ([], Dir (noon 2024 1 1)); (["d"], Dir (noon 2024 1 1));
    (["d"; "2024"], plain "first" (noon 2024 1 1));
    (["d"; "2024_1"], plain "second" (noon 2024 1 1));
    (["d"; "2024-01-01"], Dir today);
    (["d"; "2024-01-01"; "2024"], plain "old" (noon 2024 1 1))]) today true.

(** Photos whose tag 36867 is a date with colons, the canonical EXIF
    text, and a text with a colon between date and time; and a photo whose
    tag 36867 is a number, with a date in tag 306. *)
Definition world_photos : World :=
  mkWorld (list_to_map [
    ([], Dir (noon 2024 1 1)); (["src"], Dir (noon 2024 1 1));
    (["dst"], Dir (noon 2024 1 1));
    (["src"; "a.jpg"], photo "a" (noon 2024 3 10)
                         {[ 36867%Z := Text "2023:01:15" ]});
    (["src"; "b.jpg"], photo "b" (noon 2024 3 10)
                         {[ 36867%Z := Text "2023:01:15 10:20:30" ]});
    (["src"; "c.jpg"], photo "c" (noon 2024 3 10)
                         {[ 36867%Z := Text "2023:01:15:10:20:30" ]});
    (["src"; "d.jpg"], photo "d" (noon 2024 3 10)
                         {[ 36867%Z := Int 20230115;
                            306%Z := Text "2023-01-15" ]})]) today true.

(** A moved file whose source path has been taken by a newer file. *)
Definition world_reoccupied : World :=
  mkWorld (list_to_map [
    ([], Dir (noon 2024 1 1)); (["src"], Dir (noon 2024 1 1));
    (["dst"], Dir (noon 2024 1 1)); (["dst"; "2024-03-10"], Dir today);
    (["dst"; "2024-03-10"; "doc.txt"], plain "moved" (noon 2024 3 10));
    (["src"; "doc.txt"], plain "newer" today)]) today true.

Definition doc_entry : file_info :=
  {| file := "doc.txt"; from := ["src"; "doc.txt"];
     to := ["dst"; "2024-03-10"; "doc.txt"]; date_folder := "2024-03-10";
     date_source := "File modification time" |}.

Definition engine_moved : FileManagementLogic :=
  track engine (mk_operation "move" [doc_entry] today).






(** Organising [/d] in place, with the empty bucket [2024-03-10] of an
    earlier run in it. *)
Definition world_inplace_bucket : World :=
  mkWorld (list_to_map [
    ([], Dir (noon 2024 1 1)); (["d"], Dir (noon 2024 1 1));
    (["d"; "doc.txt"], plain "hello" (noon 2024 3 10));
    (["d"; "2024-03-10"], Dir (noon 2024 3 10))]) today true.

(** The moved file is still at its destination, the source directory is
    gone. *)
Definition world_source_gone : World :=
  mkWorld (list_to_map [
    ([], Dir (noon 2024 1 1));
    (["dst"], Dir (noon 2024 1 1)); (["dst"; "2024-03-10"], Dir today);
    (["dst"; "2024-03-10"; "doc.txt"], plain "moved" (noon 2024 3 10))])
    today true.

(** What the copy loop knows of every manifest entry: the data copied and
    the date that chose the bucket, as read in [fs0]. *)
Definition copy_data (st0 : State) (fs0 : filesystem)
    (done : list file_info) (fs : filesystem) : Prop :=
  ∀ e, e ∈ done →
    ∃ f info,
      fs0 !! from e = Some (File f)
      ∧ fs !! to e
        = Some (File (mkfile (content f) (clock (world st0)) (image f)))
      ∧ (get_file_date_info (file e) (with_fs st0 fs0)).1 = Ok info
      ∧ date_folder e = date info
      ∧ date_source e = source info
      ∧ (to e = os.path.join
                  (os.path.join (destination_folder_path (self st0)) (date info))
                  (file e)
         ∨ ∃ k, 1 ≤ k ∧
             to e = candidate
                      (os.path.join (destination_folder_path (self st0)) (date info))
                      (os.path.splitext (file e)).1 (os.path.splitext (file e)).2 k).

(** What the move loop knows while it runs over the regular files [rest]
    of the source directory: the files still to come are untouched, and
    every manifest entry holds, at its destination, the file that [fs0]
    had at its source. *)
Definition move_data (st0 : State) (fs0 : filesystem) (rest : list string)
    (done : list file_info) (fs : filesystem) : Prop :=
  NoDup rest
  ∧ (∀ n, n ∈ rest →
       ∃ f, fs0 !! os.path.join (target_folder_path (self st0)) n = Some (File f)
            ∧ fs !! os.path.join (target_folder_path (self st0)) n = Some (File f))
  ∧ NoDup (to <$> done)
  ∧ (∀ e n, e ∈ done → n ∈ rest →
       to e ≠ os.path.join (target_folder_path (self st0)) n ∧ file e ≠ n)
  ∧ (∀ e, e ∈ done →
       ∃ f info,
         from e = os.path.join (target_folder_path (self st0)) (file e)
         ∧ fs0 !! from e = Some (File f)
         ∧ fs !! to e = Some (File f)
         ∧ (get_file_date_info (file e) (with_fs st0 fs0)).1 = Ok info
         ∧ date_folder e = date info
         ∧ date_source e = source info
         ∧ (to e = os.path.join
                     (os.path.join (destination_folder_path (self st0)) (date info))
                     (file e)
            ∨ ∃ k, 1 ≤ k ∧
                to e = candidate
                         (os.path.join (destination_folder_path (self st0)) (date info))
                         (os.path.splitext (file e)).1
                         (os.path.splitext (file e)).2 k)).

(** Besides the moved files, a move batch that started from [fs0] has
    changed nothing but for new directories: the sources of the manifest
    are vacant, its destinations were vacant in [fs0]. *)
Definition move_frame (fs0 : filesystem) (done : list file_info)
    (fs : filesystem) : Prop :=
  (∀ e, e ∈ done → fs !! from e = None ∧ fs0 !! to e = None)
  ∧ (∀ p, p ∉ from <$> done → p ∉ to <$> done →
       fs !! p = fs0 !! p ∨ (fs0 !! p = None ∧ is_dir (fs !! p) = true)).

(** [fs'] is [fs] without some regular files among [T] and some
    directories among [D], each of them without entries when it went. *)
Definition removes_only (T D : pathname → Prop) : relation filesystem := λ fs fs',
  ∀ p, fs' !! p = fs !! p
       ∨ (fs' !! p = None
          ∧ ((T p ∧ is_file (fs !! p) = true)
             ∨ (D p ∧ is_dir (fs !! p) = true
                ∧ ∀ n, fs' !! (p ++ [n]) = None))).

(** [s.count(c)] for a one-character [c]. *)
Fixpoint str_count (c : ascii) (s : string) : nat :=
  match s with
  | EmptyString => 0
  | String a s' => (if decide (a = c) then 1 else 0) + str_count c s'
  end.

(** The colons of a text, and the literal colons of a compiled format. *)
Definition colons (s : list ascii) : nat :=
  length (filter (λ a, a = ":"%char) s).

Fixpoint literal_colons (its : list datetime.item) : nat :=
  match its with
  | [] => 0
  | datetime.Literal c :: its' =>
      (if decide (c = ":"%char) then 1 else 0) + literal_colons its'
  | _ :: its' => literal_colons its'
  end.

(** The group of the date [k] among [l]: its files in the order of [l],
    and no group at all when there is none. *)
Definition group_of (k : string) (l : list preview.entry)
  : option (list preview.entry) :=
  match filter (λ x, preview.date x = k) l with
  | [] => None
  | g => Some g
  end.

(** One round of the first loop of the preview. *)
Definition preview_round (file_name : string)
    (files_with_dates : list preview.entry) : M (list preview.entry) :=
  try_except
    (file_date_info ← get_file_date_info file_name;
     self ← get_self;
     mret (files_with_dates ++
             [{| preview.name := file_name;
                 preview.date := date file_date_info;
                 preview.source := source file_date_info;
                 preview.source_path :=
                   os.path.join (target_folder_path self) file_name |}]))
    (λ e, mret files_with_dates).

(** The names whose date can be read. *)
Definition dated (st : State) (names : list string) : list string :=
  filter (λ n, is_Ok (get_file_date_info n st).1 = true) names.

(** The four digits of a year between 1000 and 9999. *)
Definition year_digits_ok (y : nat) : bool :=
  match String.list_ascii_of_string (pretty y) with
  | [a; b; c; d] =>
      datetime.dig a && datetime.dig b && datetime.dig c && datetime.dig d
      && (datetime.value [a; b; c; d] =? y)
  | _ => false
  end.

(** * Properties *)

(** ** Strings and candidate names *)

Lemma string_length_app (s t : string) :
  String.length (s +:+ t) = String.length s + String.length t.
Proof. induction s as [|a s IH]; simpl; [done|]. by rewrite IH. Qed.

Lemma string_app_inv_tail (s1 s2 t : string) : s1 +:+ t = s2 +:+ t → s1 = s2.
Proof.
  intros H.
  assert (String.length s1 = String.length s2) as Hlen.
  { apply (f_equal String.length) in H. rewrite !string_length_app in H. lia. }
  revert s2 H Hlen. induction s1 as [|a s1 IH]; intros [|b s2] H Hlen;
    simplify_eq/=; [done|].
  f_equal. by apply IH.
Qed.

Lemma candidate_inj folder_path base_name extension :
  Inj (=) (=) (candidate folder_path base_name extension).
Proof.
  intros j k H. unfold candidate, os.path.join in H.
  apply app_inv_head in H. injection H as H.
  apply String.app_inj in H. apply (String.app_inj "_") in H.
  apply string_app_inv_tail in H. by apply (inj pretty) in H.
Qed.

Lemma dirname_join folder name : os.path.dirname (os.path.join folder name) = folder.
Proof. unfold os.path.dirname, os.path.join. apply removelast_last. Qed.

Lemma child_name_Some p k n : child_name p k = Some n ↔ k = p ++ [n].
Proof.
  revert k. induction p as [|a p IH]; intros k; simpl.
  - destruct k as [|b [|c k]]; split; intros; by simplify_eq.
  - destruct k as [|b k]; [split; intros; by simplify_eq|].
    case_decide as Hab; [subst; rewrite IH|]; split; intros; by simplify_eq/=.
Qed.

Lemma elem_of_children fs p n : n ∈ children fs p ↔ is_Some (fs !! (p ++ [n])).
Proof.
  unfold children. rewrite list_elem_of_omap. split.
  - intros (k & Hk & Hn). apply child_name_Some in Hn as ->.
    by apply elem_of_elements, elem_of_dom in Hk.
  - intros H. exists (p ++ [n]). split; [|by apply child_name_Some].
    by apply elem_of_elements, elem_of_dom.
Qed.

Lemma children_nil fs p : children fs p = [] ↔ ∀ n, fs !! (p ++ [n]) = None.
Proof.
  split.
  - intros H n. destruct (fs !! (p ++ [n])) eqn:E; [|done].
    assert (n ∈ children fs p) as Hin by (apply elem_of_children; eauto).
    rewrite H in Hin. by apply elem_of_nil in Hin.
  - intros H. destruct (children fs p) as [|n l] eqn:E; [done|].
    assert (n ∈ children fs p) as Hin by (rewrite E; left).
    apply elem_of_children in Hin as [? Hin]. by rewrite H in Hin.
Qed.

Lemma merge_sort_nil (l : list string) : merge_sort String.le l = [] ↔ l = [].
Proof.
  split; intros H.
  - apply Permutation_nil_r. rewrite <-H. symmetry. apply merge_sort_Permutation.
  - by subst.
Qed.

Lemma elem_of_listdir fs p names n :
  os.listdir fs p = Ok names → n ∈ names ↔ is_Some (fs !! (p ++ [n])).
Proof.
  unfold os.listdir. destruct (fs !! p) as [[]|]; intros H; simplify_eq.
  by rewrite merge_sort_Permutation, elem_of_children.
Qed.

(** ** How a method may change the state *)

Section steps.
Context (R : relation State) `{!PreOrder R}.

Lemma steps_ret {A} (a : A) : steps R (mret a : M A).
Proof. intros st. simpl. reflexivity. Qed.

Lemma steps_bind {A B} (m : M A) (f : A → M B) :
  steps R m → (∀ a, steps R (f a)) → steps R (m ≫= f).
Proof.
  intros Hm Hf st. unfold mbind, M_bind. specialize (Hm st).
  destruct (m st) as [[a|e] st']; simpl in *; [|done].
  etrans; [done|apply Hf].
Qed.

Lemma steps_try_except_if {A} c (m : M A) (h : exn → M A) :
  steps R m → (∀ e, steps R (h e)) → steps R (try_except_if c m h).
Proof.
  intros Hm Hh st. unfold try_except_if. specialize (Hm st).
  destruct (m st) as [[a|e] st']; simpl in *; [done|].
  destruct (c e); simpl; [|done]. etrans; [done|apply Hh].
Qed.

Lemma steps_try_except {A} (m : M A) (h : exn → M A) :
  steps R m → (∀ e, steps R (h e)) → steps R (try_except m h).
Proof. apply steps_try_except_if. Qed.

Lemma steps_for_ {A S} (xs : list A) (body : A → S → M S) (s : S) :
  (∀ x s, steps R (body x s)) → steps R (for_ xs body s).
Proof.
  intros Hb. revert s. induction xs as [|x xs IH]; intros s; simpl.
  - apply steps_ret.
  - apply steps_bind; [apply Hb|apply IH].
Qed.

Lemma steps_reads {A} (f : filesystem → result A) : steps R (reads f).
Proof. intros st. simpl. reflexivity. Qed.

Lemma steps_call {A} (r : result A) : steps R (call r).
Proof. intros st. simpl. reflexivity. Qed.

Lemma steps_get_self : steps R get_self.
Proof. intros st. simpl. reflexivity. Qed.

Lemma steps_get_world : steps R get_world.
Proof. intros st. simpl. reflexivity. Qed.

Lemma steps_os_path_exists p : steps R (os_path_exists p).
Proof. apply steps_reads. Qed.

Lemma steps_os_path_isdir p : steps R (os_path_isdir p).
Proof. apply steps_reads. Qed.

Lemma steps_writes f :
  (∀ st fs', f (clock (world st)) (fs (world st)) = Ok fs' →
             R st (with_fs st fs')) →
  steps R (writes f).
Proof.
  intros Hf st. unfold writes.
  destruct (f _ _) as [fs'|e] eqn:E; simpl; [by apply Hf|reflexivity].
Qed.
End steps.

Lemma steps_of_eq (R : relation State) `{!Reflexive R} {A} (m : M A) :
  steps eq m → steps R m.
Proof. intros H st. by rewrite <-(H st). Qed.

Lemma steps_eq {A} (m : M A) st : steps eq m → (m st).2 = st.
Proof. intros H. symmetry. apply H. Qed.

Create HintDb steps.

(** Splits a [steps] goal along the structure of the method; methods
    already analysed are looked up in the hint database [steps]. *)
Ltac steps_tac :=
  repeat first
    [ solve [auto 1 with steps]
    | solve [apply steps_of_eq; [apply _|auto 1 with steps]]
    | apply steps_ret; apply _
    | apply steps_get_self; apply _
    | apply steps_get_world; apply _
    | apply steps_os_path_exists; apply _
    | apply steps_os_path_isdir; apply _
    | apply steps_reads; apply _
    | apply steps_call; apply _
    | apply steps_bind; [apply _| |intros ?]
    | apply steps_try_except; [apply _| |intros ?]
    | apply steps_try_except_if; [apply _| |intros ?]
    | apply steps_for_; [apply _|intros ? ?]
    | match goal with
      | |- steps _ (if ?b then _ else _) => destruct b
      | |- steps _ (match ?x with _ => _ end) => destruct x
      end ].

(** Date resolution only reads. *)
Lemma _get_exif_date_pure file_path : steps eq (_get_exif_date file_path).
Proof. unfold _get_exif_date. steps_tac. Qed.
Global Hint Resolve _get_exif_date_pure : steps.

Lemma _get_exif_date_Ok file_path st : ∃ o, _get_exif_date file_path st = (Ok o, st).
Proof.
  pose proof (steps_eq _ st (_get_exif_date_pure file_path)) as Hst.
  unfold _get_exif_date, try_except, try_except_if in *.
  destruct (_ st) as [[o|e] st'] eqn:E; simpl in *; subst; eauto.
Qed.

Lemma get_file_date_info_pure file_name : steps eq (get_file_date_info file_name).
Proof. unfold get_file_date_info. steps_tac. Qed.
Global Hint Resolve get_file_date_info_pure : steps.

Lemma read_file_date_properties_pure file_name :
  steps eq (read_file_date_properties file_name).
Proof. unfold read_file_date_properties. steps_tac. Qed.
Global Hint Resolve read_file_date_properties_pure : steps.

Lemma unique_destination_pure folder_path file_name destination_path :
  steps eq (unique_destination folder_path file_name destination_path).
Proof. unfold unique_destination. steps_tac. Qed.
Global Hint Resolve unique_destination_pure : steps.

Lemma get_target_files_pure : steps eq get_target_files.
Proof. unfold get_target_files. steps_tac. Qed.
Global Hint Resolve get_target_files_pure : steps.

Global Instance state_rel_preorder Rs Rf `{!PreOrder Rs, !PreOrder Rf} :
  PreOrder (state_rel Rs Rf).
Proof.
  split.
  - intros st. by repeat split.
  - intros st1 st2 st3 (?&?&?&?) (?&?&?&?). repeat split; [|congruence..|];
      by etrans.
Qed.

Global Instance any_fs_preorder : PreOrder any_fs.
Proof. by split. Qed.

Global Instance grows_dirs_preorder : PreOrder grows_dirs.
Proof.
  split.
  - intros fs. by split.
  - intros fs1 fs2 fs3 [? H12] [? H23]. split; [by etrans|]. eauto.
Qed.

Lemma state_rel_with_fs Rs Rf `{!Reflexive Rs} st fs' :
  Rf (fs (world st)) fs' → state_rel Rs Rf st (with_fs st fs').
Proof. intros H. by repeat split. Qed.

(** *** The runtime calls *)

Lemma mkdir_Ok now fs p fs' :
  os.mkdir now fs p = Ok fs' → fs !! p = None ∧ fs' = <[p := Dir now]> fs.
Proof.
  unfold os.mkdir. destruct (fs !! p) eqn:E; [done|].
  destruct (os.check_parent fs p); simpl; naive_solver.
Qed.

Lemma mkdir_grows now fs p fs' : os.mkdir now fs p = Ok fs' → grows_dirs fs fs'.
Proof.
  intros [Hp ->]%mkdir_Ok. split.
  - by apply insert_subseteq.
  - intros q f. destruct (decide (p = q)) as [->|].
    + by rewrite lookup_insert_eq.
    + by rewrite lookup_insert_ne.
Qed.

Lemma makedirs_rev_grows now fs rp fs' :
  os.makedirs_rev now fs rp = Ok fs' → grows_dirs fs fs'.
Proof.
  revert fs fs'. induction rp as [|tail rhead IH]; intros fs fs'; simpl.
  - apply mkdir_grows.
  - destruct (negb _ && _).
    + destruct (os.makedirs_rev now fs rhead) as [fs1|] eqn:E; simpl; [|done].
      intros H. etrans; [by eapply IH|by eapply mkdir_grows].
    + simpl. apply mkdir_grows.
Qed.

Lemma makedirs_grows now fs p fs' :
  os.makedirs now fs p = Ok fs' → grows_dirs fs fs'.
Proof. apply makedirs_rev_grows. Qed.

Global Instance grows_in_preorder dest : PreOrder (grows_in dest).
Proof.
  split.
  - intros fs. split; [done|]. intros q Hq [? Hq']. by rewrite Hq in Hq'.
  - intros fs1 fs2 fs3 [H12 N12] [H23 N23]. split; [by etrans|].
    intros q Hq1 Hq3. destruct (fs2 !! q) eqn:Hq2.
    + apply N12; [done|eauto].
    + by apply N23.
Qed.

Lemma grows_toward_in dest bucket fs fs' :
  grows_toward (os.path.join dest bucket) fs fs' → grows_in dest fs fs'.
Proof. intros [Hg Hn]. split; [done|]. intros q ??. exists bucket. by apply Hn. Qed.

Lemma mkdir_toward now fs p fs' :
  os.mkdir now fs p = Ok fs' → grows_toward p fs fs'.
Proof.
  intros H. split; [by eapply mkdir_grows|].
  apply mkdir_Ok in H as [Hp ->]. intros q Hq Hq'.
  destruct (decide (p = q)) as [->|Hne]; [done|].
  rewrite lookup_insert_ne, Hq in Hq' by done. by destruct Hq'.
Qed.

Lemma makedirs_rev_toward now fs rp fs' :
  os.makedirs_rev now fs rp = Ok fs' → grows_toward (reverse rp) fs fs'.
Proof.
  revert fs fs'. induction rp as [|tail rhead IH]; intros fs fs'; simpl.
  - apply mkdir_toward.
  - destruct (negb _ && _).
    + destruct (os.makedirs_rev now fs rhead) as [fs1|] eqn:E; simpl; [|done].
      intros [H2 N2]%mkdir_toward. apply IH in E as [H1 N1].
      split; [by etrans|]. intros q Hq Hq'.
      destruct (fs1 !! q) eqn:Hq1.
      * rewrite reverse_cons. apply prefix_app_r. apply N1; [done|eauto].
      * by apply N2.
    + simpl. apply mkdir_toward.
Qed.

Lemma makedirs_toward now fs p fs' :
  os.makedirs now fs p = Ok fs' → grows_toward p fs fs'.
Proof.
  intros H%makedirs_rev_toward. by rewrite reverse_involutive in H.
Qed.

Lemma exists_false fs p : os.path.exists_ fs p = false ↔ fs !! p = None.
Proof.
  unfold os.path.exists_. rewrite bool_decide_eq_false, <-eq_None_not_Some. done.
Qed.

Lemma exists_true fs p : os.path.exists_ fs p = true ↔ is_Some (fs !! p).
Proof. unfold os.path.exists_. by rewrite bool_decide_eq_true. Qed.

Lemma shutil_copy_fresh now fs src dst fs' :
  fs !! dst = None →
  shutil.copy now fs src dst = Ok fs' →
  ∃ f, fs !! src = Some (File f)
       ∧ fs' = <[dst := File (mkfile (content f) now (image f))]> fs.
Proof.
  intros Hdst. unfold shutil.copy, os.path.isdir. rewrite Hdst. simpl.
  destruct (_ && _); [done|].
  destruct (fs !! src) as [[f|]|]; [|done..].
  rewrite Hdst. destruct (os.check_parent fs dst); simpl; naive_solver.
Qed.

Lemma remove_Ok fs p fs' :
  os.remove fs p = Ok fs' → is_file (fs !! p) = true ∧ fs' = delete p fs.
Proof. unfold os.remove. destruct (fs !! p) as [[]|]; naive_solver. Qed.

Lemma rmdir_Ok fs p fs' :
  os.rmdir fs p = Ok fs' →
  is_dir (fs !! p) = true ∧ children fs p = [] ∧ fs' = delete p fs.
Proof.
  unfold os.rmdir. destruct (fs !! p) as [[]|]; [done| |done].
  destruct (children fs p); naive_solver.
Qed.

(** *** The collision loop *)

Lemma collision_loop_Some fuel fs folder_path base_name extension p c q :
  collision_loop fuel fs folder_path base_name extension p c = Some q →
  fs !! q = None ∧
  (q = p ∨
   (is_Some (fs !! p) ∧
    ∃ k, c ≤ k ∧ q = candidate folder_path base_name extension k
         ∧ ∀ j, c ≤ j < k →
             is_Some (fs !! candidate folder_path base_name extension j))).
Proof.
  revert p c. induction fuel as [|fuel IH]; intros p c; simpl.
  - destruct (os.path.exists_ fs p) eqn:E; [done|].
    intros [= ->]. split; [by apply exists_false|by left].
  - destruct (os.path.exists_ fs p) eqn:E.
    + intros [Hq Hk]%IH. split; [done|]. right.
      split; [by apply exists_true|].
      destruct Hk as [->|(Hc & k & Hk & -> & Hj)].
      * exists c. split; [done|]. split; [done|]. intros j ?; lia.
      * exists k. split; [lia|]. split; [done|]. intros j Hjk.
        destruct (decide (j = c)) as [->|]; [done|]. apply Hj. lia.
    + intros [= ->]. split; [by apply exists_false|by left].
Qed.

(** Pigeonhole: the candidates are pairwise distinct, so they cannot all
    be among the finitely many existing paths. *)
Lemma collision_loop_fuel (fuel : nat) (fs : filesystem)
    (folder_path : pathname) (base_name extension : string) (c : nat)
    (seen : gset pathname) :
  seen ⊆ dom fs →
  (∀ k, c ≤ k → candidate folder_path base_name extension k ∉ seen) →
  size (dom fs) < size seen + 1 + fuel →
  is_Some (collision_loop fuel fs folder_path base_name extension
             (candidate folder_path base_name extension c) (S c)).
Proof.
  revert c seen. induction fuel as [|fuel IH]; intros c seen Hsub Hfresh Hsz;
    simpl; destruct (os.path.exists_ fs _) eqn:E; try by eauto.
  - exfalso. apply exists_true, elem_of_dom in E.
    assert (size ({[candidate folder_path base_name extension c]} ∪ seen)
            ≤ size (dom fs)) as Hle.
    { apply subseteq_size, union_subseteq. split; [|done].
      by apply singleton_subseteq_l. }
    rewrite size_union, size_singleton in Hle; [lia|].
    apply disjoint_singleton_l, Hfresh. lia.
  - apply exists_true, elem_of_dom in E.
    apply (IH (S c) ({[candidate folder_path base_name extension c]} ∪ seen)).
    + apply union_subseteq. split; [|done]. by apply singleton_subseteq_l.
    + intros k Hk [Heq%elem_of_singleton|Hin]%elem_of_union.
      * apply candidate_inj in Heq. lia.
      * apply (Hfresh k); [lia|done].
    + rewrite size_union, size_singleton; [lia|].
      apply disjoint_singleton_l, Hfresh. lia.
Qed.

(** The loop never runs out of the fuel [unique_destination] gives it. *)
Lemma collision_loop_total fs folder_path base_name extension destination_path :
  is_Some (collision_loop (S (size fs)) fs folder_path base_name extension
             destination_path 1).
Proof.
  simpl. destruct (os.path.exists_ fs destination_path); [|by eauto].
  apply (collision_loop_fuel _ _ _ _ _ 1 ∅).
  - apply empty_subseteq.
  - intros k _. apply not_elem_of_empty.
  - rewrite size_dom, size_empty. lia.
Qed.

(** What [unique_destination] returns: an unused path in [folder_path],
    the first of [stem_1.ext], [stem_2.ext], ... when the initial
    candidate is taken. *)
Lemma unique_destination_spec folder_path file_name destination_path st :
  ∃ q, unique_destination folder_path file_name destination_path st = (Ok q, st)
    ∧ fs (world st) !! q = None
    ∧ ((q = destination_path)
       ∨ (is_Some (fs (world st) !! destination_path) ∧
          ∃ k, 1 ≤ k
            ∧ q = candidate folder_path (os.path.splitext file_name).1
                    (os.path.splitext file_name).2 k
            ∧ ∀ j, 1 ≤ j < k →
                is_Some (fs (world st) !!
                  candidate folder_path (os.path.splitext file_name).1
                    (os.path.splitext file_name).2 j))).
Proof.
  unfold unique_destination, os_path_exists, reads, get_world, mbind, M_bind,
    mret, M_ret.
  destruct (os.path.exists_ (fs (world st)) destination_path) eqn:E.
  - destruct (collision_loop_total (fs (world st)) folder_path
                (os.path.splitext file_name).1 (os.path.splitext file_name).2
                destination_path) as [q Hq].
    rewrite Hq. simpl. exists q. split; [done|].
    apply collision_loop_Some in Hq as [Hnone Hq]. split; [done|].
    destruct Hq as [->|?]; [|by right].
    apply exists_true in E. rewrite Hnone in E. by destruct E.
  - exists destination_path. split; [done|]. split; [by apply exists_false|by left].
Qed.

Lemma with_fs_id st : with_fs st (fs (world st)) = st.
Proof. by destruct st as [? []]. Qed.

Lemma with_fs_with_fs st fs1 fs2 : with_fs (with_fs st fs1) fs2 = with_fs st fs2.
Proof. done. Qed.

Lemma pure_run {A} (m : M A) st : steps eq m → m st = ((m st).1, st).
Proof. intros H. rewrite (H st) at 3. by destruct (m st). Qed.

Lemma ensure_folder_spec folder_path st r st' :
  ensure_folder folder_path st = (r, st') →
  ∃ fsm, st' = with_fs st fsm ∧ grows_toward folder_path (fs (world st)) fsm.
Proof.
  assert (grows_toward folder_path (fs (world st)) (fs (world st))) as Hrefl.
  { split; [done|]. intros q Hq [? Hq']. by rewrite Hq in Hq'. }
  unfold ensure_folder, os_path_exists, reads, writes, mbind, M_bind, mret, M_ret.
  destruct (negb _).
  - destruct (os.makedirs _ _ _) as [fs'|e] eqn:E; intros [= <- <-].
    + exists fs'. split; [done|]. by eapply makedirs_toward.
    + exists (fs (world st)). by rewrite with_fs_id.
  - intros [= <- <-]. exists (fs (world st)). by rewrite with_fs_id.
Qed.

(** *** One round of a batch loop *)

(** Either the round records an error (or nothing) and at most creates
    directories, or it creates the bucket if needed, picks an unused
    destination, transfers the file and appends the manifest entry. *)
Lemma transfer_body_spec transfer file_name done errors st :
  let s := self st in
  let source_path := os.path.join (target_folder_path s) file_name in
  ∃ done' errors' fs',
    transfer_body transfer file_name (done, errors) st
      = (Ok (done', errors'), with_fs st fs')
    ∧ ((done' = done ∧ grows_in (destination_folder_path s) (fs (world st)) fs')
       ∨ (∃ info fsm q,
            let folder_path :=
              os.path.join (destination_folder_path s) (date info) in
            get_file_date_info file_name st = (Ok info, st)
            ∧ grows_in (destination_folder_path s) (fs (world st)) fsm
            ∧ is_Some (fsm !! source_path)
            ∧ fsm !! q = None
            ∧ (q = os.path.join folder_path file_name
               ∨ (is_Some (fsm !! os.path.join folder_path file_name) ∧
                  ∃ k, 1 ≤ k
                    ∧ q = candidate folder_path (os.path.splitext file_name).1
                            (os.path.splitext file_name).2 k
                    ∧ ∀ j, 1 ≤ j < k →
                        is_Some (fsm !! candidate folder_path
                                   (os.path.splitext file_name).1
                                   (os.path.splitext file_name).2 j)))
            ∧ transfer (clock (world st)) fsm source_path q = Ok fs'
            ∧ done' = done ++ [{| file := file_name; from := source_path;
                                  to := q; date_folder := date info;
                                  date_source := source info |}]
            ∧ errors' = errors)).
Proof.
  intros s source_path.
  unfold transfer_body, try_except, try_except_if.
  unfold mbind at 1, M_bind at 1.
  rewrite (pure_run _ st (get_file_date_info_pure file_name)).
  destruct (get_file_date_info file_name st).1 as [info|e] eqn:Einfo; simpl.
  2:{ eexists _, _, _. rewrite with_fs_id. split; [done|]. left.
      split; [done|reflexivity]. }
  assert (get_file_date_info file_name st = (Ok info, st)) as Hinfo.
  { by rewrite (pure_run _ st (get_file_date_info_pure file_name)), Einfo. }
  unfold mbind, M_bind, get_self, os_path_exists, reads, mret, M_ret, writes.
  fold s. fold source_path.
  set (folder_path := os.path.join (destination_folder_path s) (date info)).
  destruct (ensure_folder folder_path st) as [[[]|e] st1] eqn:Efolder;
    apply ensure_folder_spec in Efolder as (fsm & -> & Hgrow%grows_toward_in);
    simpl.
  2:{ eexists _, _, _. split; [done|]. by left. }
  destruct (os.path.exists_ fsm source_path) eqn:Esrc; simpl.
  2:{ eexists _, _, _. split; [done|]. by left. }
  destruct (unique_destination_spec folder_path file_name
              (os.path.join folder_path file_name) (with_fs st fsm))
    as (q & -> & Hq & Hcase); simpl in *.
  destruct (transfer (clock (world st)) fsm source_path q) as [fs'|e] eqn:Etr;
    simpl.
  2:{ eexists _, _, _. split; [done|]. by left. }
  eexists _, _, fs'. split; [done|]. right.
  exists info, fsm, q. split_and!; try done. by apply exists_true.
Qed.

(** *** The copy loop *)

Lemma copy_inv_start target dest fs0 : copy_inv target dest fs0 [] fs0.
Proof.
  split_and!; [done|constructor| |by left|].
  - intros e He. by apply elem_of_nil in He.
  - intros p Hp Hd. by rewrite Hp in Hd.
Qed.

Lemma copy_inv_grows target dest fs0 done fs fs' :
  copy_inv target dest fs0 done fs → grows_in dest fs fs' →
  copy_inv target dest fs0 done fs'.
Proof.
  intros (Hsub & Hnd & Hdone & Hfiles & Hdirs) [[Hsub' Hgrow] Hnew]. split_and!.
  - by etrans.
  - done.
  - intros e He. destruct (Hdone e He) as (H1 & H2 & H3 & H4 & H5).
    split_and!; try done.
    destruct (fs !! to e) as [[f|]|] eqn:E; try done.
    by rewrite (lookup_weaken _ _ _ _ E Hsub').
  - intros p f Hp. apply Hfiles. by apply Hgrow.
  - intros p Hp Hd. destruct (fs !! p) as [n|] eqn:E.
    + apply Hdirs; [done|]. rewrite (lookup_weaken _ _ _ _ E Hsub') in Hd.
      by rewrite E.
    + apply Hnew; [done|]. by destruct (fs' !! p).
Qed.

Lemma copy_inv_step target dest fs0 done fs src q f now name datef dsrc :
  copy_inv target dest fs0 done fs →
  is_Some (fs0 !! src) → src = os.path.join target name →
  fs !! src = Some (File f) → fs !! q = None →
  (∃ n, q = os.path.join (os.path.join dest datef) n) →
  copy_inv target dest fs0
    (done ++ [{| file := name; from := src; to := q; date_folder := datef;
                 date_source := dsrc |}])
    (<[q := File (mkfile (content f) now (image f))]> fs).
Proof.
  intros (Hsub & Hnd & Hdone & Hfiles & Hdirs) [n0 Hsrc0] Hname Hsrc Hq Hform.
  assert (fs0 !! q = None) as Hq0 by (by eapply lookup_weaken_None).
  assert (q ∉ to <$> done) as Hnotin.
  { intros (e & -> & He)%list_elem_of_fmap.
    destruct (Hdone e He) as (_ & Hf & _). by rewrite Hq in Hf. }
  split_and!.
  - etrans; [done|]. by apply insert_subseteq.
  - rewrite fmap_app. apply NoDup_app. split_and!; [done| |apply NoDup_singleton].
    intros p Hp [= ->]%list_elem_of_singleton. done.
  - intros e [He| ->%list_elem_of_singleton]%elem_of_app.
    + destruct (Hdone e He) as (H1 & H2 & H3 & H4 & H5).
      split_and!; try done.
      rewrite lookup_insert_ne; [done|]. intros ->. by rewrite Hq in H2.
    + simpl. split_and!; try done.
      * by rewrite lookup_insert_eq.
      * rewrite (lookup_weaken _ _ _ _ Hsrc0 Hsub) in Hsrc.
        by rewrite Hsrc0, Hsrc.
  - intros p g. destruct (decide (q = p)) as [<-|Hne].
    + intros _. right. rewrite fmap_app. apply elem_of_app. right.
      by apply list_elem_of_singleton.
    + rewrite lookup_insert_ne by done. intros [?|?]%Hfiles; [by left|].
      right. rewrite fmap_app. apply elem_of_app. by left.
  - intros p Hp Hd. apply Hdirs; [done|].
    destruct (decide (q = p)) as [<-|Hne].
    + by rewrite lookup_insert_eq in Hd.
    + by rewrite lookup_insert_ne in Hd.
Qed.

Lemma for_cons {A S} (x : A) (xs : list A) (body : A → S → M S) (s : S) st :
  for_ (x :: xs) body s st
  = match body x s st with
    | (Ok s', st') => for_ xs body s' st'
    | (Raise e, st') => (Raise e, st')
    end.
Proof. done. Qed.

Lemma copy_loop_spec names done errors st fs0 :
  let target := target_folder_path (self st) in
  let dest := destination_folder_path (self st) in
  (∀ n, n ∈ names → is_Some (fs0 !! os.path.join target n)) →
  copy_inv target dest fs0 done (fs (world st)) →
  ∃ done' errors' fs',
    for_ names (transfer_body shutil.copy) (done, errors) st
      = (Ok (done', errors'), with_fs st fs')
    ∧ copy_inv target dest fs0 done' fs'.
Proof.
  intros target dest. revert done errors st target dest.
  induction names as [|name names IH]; intros done errors st target dest Hnames Hinv.
  - exists done, errors, (fs (world st)). by rewrite with_fs_id.
  - rewrite for_cons.
    destruct (transfer_body_spec shutil.copy name done errors st)
      as (done1 & errors1 & fs1 & -> & Hcase).
    assert (copy_inv target dest fs0 done1 fs1) as Hinv1.
    { destruct Hcase as [[-> Hg]|(info & fsm & q & _ & Hg & Hsrc & Hq & Hform & Hcp & -> & ->)].
      - by eapply copy_inv_grows.
      - apply shutil_copy_fresh in Hcp as (f & Hf & ->); [|done].
        apply copy_inv_step; try done.
        + by eapply copy_inv_grows.
        + apply Hnames. left.
        + destruct Hform as [->|(_ & k & _ & -> & _)]; eauto. }
    destruct (IH done1 errors1 (with_fs st fs1)) as (done' & errors' & fs' & Hrun & Hinv');
      [intros n Hn; apply Hnames; by right|done|].
    exists done', errors', fs'. by rewrite Hrun.
Qed.

(** *** Recording an operation *)

Lemma _track_operation_run operation_type files_info st :
  _track_operation operation_type files_info st
  = (Ok (), mkState (track (self st)
                       (mk_operation operation_type files_info (clock (world st))))
                    (world st)).
Proof.
  unfold _track_operation, track, mbind, M_bind, get_world, get_self,
    set_last_operation, set_operation_history, mret, M_ret. simpl.
  by destruct (10 <? _).
Qed.

Lemma run_bind {A B} (m : M A) (f : A → M B) st :
  (m ≫= f) st
  = match m st with
    | (Ok a, st') => f a st'
    | (Raise e, st') => (Raise e, st')
    end.
Proof. done. Qed.

Lemma get_target_files_run st :
  get_target_files st
  = (os.listdir (fs (world st)) (target_folder_path (self st)), st).
Proof. done. Qed.

(** *** A whole batch *)

Lemma ensure_folder_steps folder_path :
  steps (state_rel eq grows_dirs) (ensure_folder folder_path).
Proof.
  intros st. destruct (ensure_folder folder_path st) as [r st'] eqn:E.
  apply ensure_folder_spec in E as (fsm & -> & Hg & _). simpl.
  by apply state_rel_with_fs.
Qed.
Global Hint Resolve ensure_folder_steps : steps.

Lemma create_folder_with_date_steps :
  steps (state_rel eq grows_dirs) create_folder_with_date.
Proof. unfold create_folder_with_date, create_folder_body. steps_tac. Qed.

Lemma create_folder_body_run file_name u st r st' :
  create_folder_body file_name u st = (r, st') →
  ∃ fs', st' = with_fs st fs'
         ∧ grows_in (destination_folder_path (self st)) (fs (world st)) fs'.
Proof.
  unfold create_folder_body. rewrite run_bind.
  rewrite (pure_run _ st (read_file_date_properties_pure file_name)).
  destruct (read_file_date_properties file_name st).1 as [file_date|e].
  - rewrite run_bind. cbn [get_self].
    intros (fs' & -> & Hg%grows_toward_in)%ensure_folder_spec. eauto.
  - intros [= <- <-]. exists (fs (world st)). by rewrite with_fs_id.
Qed.

(** [create_folder_with_date] only creates directories, each on the way
    to a bucket of the destination root. *)
Lemma create_folder_with_date_run st :
  ∃ r fs', create_folder_with_date st = (r, with_fs st fs')
           ∧ grows_in (destination_folder_path (self st)) (fs (world st)) fs'.
Proof.
  unfold create_folder_with_date. rewrite run_bind, get_target_files_run.
  destruct (os.listdir _ _) as [names|e].
  2:{ exists (Raise e), (fs (world st)). by rewrite with_fs_id. }
  generalize (). revert st.
  induction names as [|name names IH]; intros st u.
  - exists (Ok u), (fs (world st)). by rewrite with_fs_id.
  - rewrite for_cons.
    destruct (create_folder_body name u st) as [[u1|e] st1] eqn:E;
      apply create_folder_body_run in E as (fs1 & -> & Hg1).
    + destruct (IH (with_fs st fs1) u1) as (r & fs' & -> & Hg).
      exists r, fs'. split; [done|]. by etrans.
    + by exists (Raise e), fs1.
Qed.

(** The loop of a batch never raises and leaves the engine object alone. *)
Lemma transfer_loop_total transfer names acc st :
  ∃ acc' fs',
    for_ names (transfer_body transfer) acc st = (Ok acc', with_fs st fs').
Proof.
  revert acc st. induction names as [|name names IH]; intros [done errors] st.
  - exists (done, errors), (fs (world st)). by rewrite with_fs_id.
  - rewrite for_cons.
    destruct (transfer_body_spec transfer name done errors st)
      as (done1 & errors1 & fs1 & -> & _).
    destruct (IH (done1, errors1) (with_fs st fs1)) as (acc' & fs' & ->).
    by exists acc', fs'.
Qed.

Lemma move_files_batch :
  move_files_to_destination_folder = batch_files shutil.move "move".
Proof. done. Qed.

Lemma copy_files_batch :
  copy_files_to_destination_folder = batch_files shutil.copy "copy".
Proof. done. Qed.

Lemma batch_files_run transfer operation_type st :
  match os.listdir (fs (world st)) (target_folder_path (self st)) with
  | Raise e => batch_files transfer operation_type st = (Raise e, st)
  | Ok names =>
      ∃ entries errors fs',
        for_ names (transfer_body transfer) ([], []) st
          = (Ok (entries, errors), with_fs st fs')
        ∧ batch_files transfer operation_type st
          = (Ok (entries, errors),
             mkState (after_batch (self st) operation_type entries
                        (clock (world st)))
                     (world (with_fs st fs')))
  end.
Proof.
  unfold batch_files. rewrite run_bind, get_target_files_run.
  destruct (os.listdir _ _) as [names|e]; [|done].
  rewrite run_bind.
  destruct (transfer_loop_total transfer names ([], []) st)
    as ([entries errors] & fs' & Hloop).
  exists entries, errors, fs'. split; [done|]. rewrite Hloop, run_bind.
  destruct entries as [|e entries]; simpl; [done|].
  by rewrite _track_operation_run.
Qed.

Lemma state_rel_eq_with_fs Rf st st' :
  state_rel eq Rf st st' → st' = with_fs st (fs (world st')).
Proof.
  destruct st as [s [f c p]], st' as [s' [f' c' p']].
  intros (Hs & Hc & Hp & _); simpl in *. by subst.
Qed.

(** *** [copy] as a whole *)

Lemma copy_run st :
  let target := target_folder_path (self st) in
  let dest := destination_folder_path (self st) in
  (∃ e st', copy st = (Raise e, st') ∧ state_rel eq grows_dirs st st')
  ∨ (∃ entries errors fsA fs1,
       grows_in dest (fs (world st)) fsA
       ∧ copy_inv target dest fsA entries fs1
       ∧ copy st
         = (Ok (entries, errors),
            mkState (after_batch (self st) "copy" entries (clock (world st)))
                    (world (with_fs st fs1)))).
Proof.
  intros target dest. unfold copy. rewrite run_bind.
  destruct (create_folder_with_date_run st) as (r & fsA & -> & Hgrow).
  fold dest in Hgrow. destruct r as [[]|e].
  2:{ left. exists e, (with_fs st fsA). split; [done|].
      apply state_rel_with_fs; [apply _|]. by destruct Hgrow. }
  rewrite copy_files_batch.
  pose proof (batch_files_run shutil.copy "copy" (with_fs st fsA)) as Hrun.
  simpl in Hrun. fold target in Hrun.
  destruct (os.listdir fsA target) as [names|e] eqn:Els.
  - destruct Hrun as (entries & errors & fs1 & Hloop & ->).
    right. exists entries, errors, fsA, fs1. split_and!; [done| |done].
    destruct (copy_loop_spec names [] [] (with_fs st fsA) fsA)
      as (done' & errors' & fs' & Hloop' & Hinv).
    + intros n Hn. simpl. fold target. by eapply elem_of_listdir.
    + apply copy_inv_start.
    + rewrite Hloop in Hloop'. by simplify_eq.
  - left. exists e, (with_fs st fsA). split; [done|].
    apply state_rel_with_fs; [apply _|]. by destruct Hgrow.
Qed.

(** *** Undoing a copy *)

Lemma lookup_delete_all ps fs p :
  delete_all ps fs !! p = if decide (p ∈ ps) then None else fs !! p.
Proof.
  unfold delete_all. revert fs. induction ps as [|q ps IH]; intros fs.
  - destruct (decide (p ∈ [])) as [H|]; [by apply elem_of_nil in H|done].
  - cbn [foldl]. rewrite IH.
    destruct (decide (p ∈ ps)) as [Hin|Hin], (decide (p ∈ q :: ps)) as [Hin'|Hin'];
      try done.
    + exfalso. apply Hin'. by right.
    + apply elem_of_cons in Hin' as [->|?]; [|done]. by rewrite lookup_delete_eq.
    + rewrite lookup_delete_ne; [done|]. intros ->. apply Hin'. left.
Qed.

Lemma undo_copy_loop es removed folders st :
  NoDup (to <$> es) →
  (∀ e, e ∈ es → is_file (fs (world st) !! to e) = true) →
  for_ es undo_copy_body (removed, folders) st
  = (Ok (length es + removed,
         list_to_set (os.path.dirname ∘ to <$> es) ∪ folders),
     with_fs st (delete_all (to <$> es) (fs (world st)))).
Proof.
  revert removed folders st.
  induction es as [|e es IH]; intros removed folders st Hnd Hfiles.
  - csimpl. rewrite with_fs_id, (left_id_L ∅ (∪)). done.
  - rewrite for_cons. rewrite fmap_cons in Hnd.
    apply NoDup_cons in Hnd as [Hnotin Hnd].
    unfold undo_copy_body at 1. rewrite run_bind.
    unfold os_path_exists, reads.
    assert (is_file (fs (world st) !! to e) = true) as He by (apply Hfiles; left).
    destruct (fs (world st) !! to e) as [[f|]|] eqn:E; try done.
    assert (os.path.exists_ (fs (world st)) (to e) = true) as ->
      by (apply exists_true; eauto).
    rewrite run_bind. unfold writes, os.remove. rewrite E.
    cbn [world fs clock pil_available self mret M_ret].
    rewrite IH; [|done|].
    + rewrite !fmap_cons, list_to_set_cons. cbn [length compose].
      do 3 f_equal; [lia|].
      apply set_eq. intros x. rewrite !elem_of_union. tauto.
    + intros e' He'. cbn [world fs with_fs].
      rewrite lookup_delete_ne; [apply Hfiles; by right|].
      intros Heq. apply Hnotin. rewrite Heq. apply list_elem_of_fmap. eauto.
Qed.

(** *** Cleaning up empty folders *)

Global Instance empty_dir_dec fs p : Decision (empty_dir fs p).
Proof. unfold empty_dir. apply _. Defined.

Lemma remove_empty_body_run p n st :
  remove_empty_body p n st
  = if decide (empty_dir (fs (world st)) p)
    then (Ok (S n), with_fs st (delete p (fs (world st))))
    else (Ok n, st).
Proof.
  unfold remove_empty_body, os_path_exists, os_path_isdir, reads.
  rewrite !run_bind. unfold os.path.isdir.
  destruct (decide (empty_dir (fs (world st)) p)) as [[Hd Hc]|Hn].
  - rewrite Hd. destruct (fs (world st) !! p) as [[f|m]|] eqn:E; try done.
    assert (os.path.exists_ (fs (world st)) p = true) as ->
      by (apply exists_true; eauto).
    cbn [andb]. unfold try_except_if. rewrite run_bind.
    unfold os.listdir. rewrite E, Hc. cbn.
    unfold writes, os.rmdir, mbind, M_bind. rewrite E, Hc. reflexivity.
  - destruct (os.path.exists_ (fs (world st)) p && is_dir (fs (world st) !! p))
      eqn:Eb; [|reflexivity].
    apply andb_prop in Eb as [_ Hd].
    destruct (fs (world st) !! p) as [[f|m]|] eqn:E; try done.
    unfold try_except_if. rewrite run_bind. unfold os.listdir. rewrite E.
    destruct (merge_sort String.le (children (fs (world st)) p)) as [|c cs] eqn:Es;
      [|reflexivity].
    apply (proj1 (merge_sort_nil _)) in Es. exfalso. apply Hn. split; [|done].
    by rewrite E.
Qed.

Lemma empty_dir_delete_other fs p q :
  length p = length q → p ≠ q →
  empty_dir (delete p fs) q ↔ empty_dir fs q.
Proof.
  intros Hlen Hne. unfold empty_dir.
  rewrite lookup_delete_ne by done. rewrite !children_nil.
  apply and_iff_compat_l. apply forall_proper. intros n.
  rewrite lookup_delete_ne; [done|]. intros ->.
  rewrite length_app in Hlen. simpl in Hlen. lia.
Qed.

Lemma filter_ext_elem {A} (P Q : A → Prop) `{!∀ x, Decision (P x)}
    `{!∀ x, Decision (Q x)} (l : list A) :
  (∀ x, x ∈ l → P x ↔ Q x) → filter P l = filter Q l.
Proof.
  induction l as [|x l IH]; intros Hext; [done|].
  rewrite !filter_cons, IH by (intros y ?; apply Hext; by right).
  assert (P x ↔ Q x) as Hx by (apply Hext; left).
  destruct (decide (P x)) as [HP|HP], (decide (Q x)) as [HQ|HQ]; tauto.
Qed.

Lemma remove_empty_loop l n st :
  NoDup l →
  (∀ p q, p ∈ l → q ∈ l → length p = length q) →
  ∃ n', for_ l remove_empty_body n st
        = (Ok n', with_fs st (delete_all (filter (empty_dir (fs (world st))) l)
                                         (fs (world st)))).
Proof.
  revert n st. induction l as [|p l IH]; intros n st Hnd Hlen.
  - exists n. cbn. by rewrite with_fs_id.
  - apply NoDup_cons in Hnd as [Hp Hnd].
    rewrite for_cons, remove_empty_body_run, filter_cons.
    assert (∀ q, q ∈ l → length p = length q ∧ p ≠ q) as Hq.
    { intros q Hq. split; [apply Hlen; [left|by right]|]. by intros ->. }
    assert (∀ a b, a ∈ l → b ∈ l → length a = length b) as Hlen'.
    { intros a b ??. apply Hlen; by right. }
    destruct (decide (empty_dir (fs (world st)) p)) as [He|He].
    + destruct (IH (S n) (with_fs st (delete p (fs (world st)))) Hnd Hlen')
        as (n' & ->).
      exists n'. cbn [with_fs world fs self clock pil_available].
      rewrite (filter_ext_elem (empty_dir (delete p (fs (world st))))
                 (empty_dir (fs (world st))) l); [done|].
      intros q Hin. destruct (Hq q Hin). by apply empty_dir_delete_other.
    + destruct (IH n st Hnd Hlen') as (n' & ->). by exists n'.
Qed.

(** [_remove_empty_folders] on folders of one depth deletes exactly those
    that are empty directories, and nothing else. *)
Lemma _remove_empty_folders_run (folders : gset pathname) st :
  (∀ p q, p ∈ folders → q ∈ folders → length p = length q) →
  _remove_empty_folders folders st
  = (Ok (), with_fs st
      (delete_all (filter (empty_dir (fs (world st))) (elements folders))
                  (fs (world st)))).
Proof.
  intros Hlen. unfold _remove_empty_folders, try_except, try_except_if.
  rewrite run_bind.
  destruct (remove_empty_loop (elements folders) 0 st) as (n' & ->); [| |done].
  - apply NoDup_elements.
  - intros p q Hp%elem_of_elements Hq%elem_of_elements. by apply Hlen.
Qed.

Lemma remove_empty_body_steps p n :
  steps (state_rel eq any_fs) (remove_empty_body p n).
Proof.
  intros st. rewrite remove_empty_body_run. case_decide; cbn; [|reflexivity].
  by apply state_rel_with_fs.
Qed.
Global Hint Resolve remove_empty_body_steps : steps.

Lemma _remove_empty_folders_steps folders :
  steps (state_rel eq any_fs) (_remove_empty_folders folders).
Proof. unfold _remove_empty_folders. steps_tac. Qed.
Global Hint Resolve _remove_empty_folders_steps : steps.

(** [_remove_empty_folders] never raises. *)
Lemma _remove_empty_folders_Ok folders st :
  ∃ st', _remove_empty_folders folders st = (Ok (), st').
Proof.
  unfold _remove_empty_folders, try_except, try_except_if.
  destruct ((for_ (elements folders) remove_empty_body 0 ≫= λ _, mret ()) st)
    as [[[]|e] st']; cbn; eauto.
Qed.

(** A [try] whose handler returns a value never raises. *)
Lemma try_except_Ok {A} (m : M A) (a : A) st :
  ∃ r st', try_except m (λ _, mret a) st = (Ok r, st').
Proof.
  unfold try_except, try_except_if. destruct (m st) as [[r|e] st']; cbn; eauto.
Qed.

Lemma undo_last_action_copy_run s w entries now :
  last_operation s = Some (mk_operation "copy" entries now) →
  undo_last_action (mkState s w) = _undo_copy_operation entries (mkState s w).
Proof.
  intros Hlast. unfold undo_last_action. rewrite run_bind. cbn [get_self self].
  rewrite Hlast. unfold try_except at 1, try_except_if. cbn [type files].
  rewrite decide_False by done. rewrite decide_True by done.
  destruct (try_except_Ok
    ('(removed, folders_to_check) ← for_ entries undo_copy_body (0, ∅);
     _ ← _remove_empty_folders folders_to_check;
     _ ← set_last_operation None;
     mret true) false (mkState s w)) as (r & st' & Hr).
  unfold _undo_copy_operation. by rewrite Hr.
Qed.

(** Undoing a copy whose manifest entries are distinct existing files under
    buckets of one depth. *)
Lemma _undo_copy_operation_run dest entries st :
  NoDup (to <$> entries) →
  (∀ e, e ∈ entries → is_file (fs (world st) !! to e) = true) →
  (∀ e, e ∈ entries →
     ∃ n, to e = os.path.join (os.path.join dest (date_folder e)) n) →
  let fs' := delete_all (to <$> entries) (fs (world st)) in
  let folders : gset pathname :=
    list_to_set (os.path.dirname ∘ to <$> entries) in
  _undo_copy_operation entries st
  = (Ok true,
     mkState (clear_last (self st))
       (world (with_fs st
          (delete_all (filter (empty_dir fs') (elements folders)) fs')))).
Proof.
  intros Hnd Hfiles Hlen fs' folders.
  unfold _undo_copy_operation, try_except, try_except_if.
  rewrite run_bind, undo_copy_loop by done.
  rewrite run_bind, (right_id_L ∅ (∪)).
  rewrite _remove_empty_folders_run.
  - reflexivity.
  - intros p q (e & -> & He)%elem_of_list_to_set%list_elem_of_fmap
               (e' & -> & He')%elem_of_list_to_set%list_elem_of_fmap.
    unfold compose. destruct (Hlen e He) as [n ->], (Hlen e' He') as [n' ->].
    rewrite !dirname_join. unfold os.path.join. rewrite !length_app. done.
Qed.

Lemma after_batch_last s operation_type entries now :
  entries ≠ [] →
  last_operation (after_batch s operation_type entries now)
  = Some (mk_operation operation_type entries now).
Proof. by destruct entries. Qed.

Lemma prefix_join_join target n dest bucket :
  os.path.join target n `prefix_of` os.path.join dest bucket →
  target `prefix_of` dest.
Proof.
  unfold os.path.join. intros [k Hk].
  destruct k as [|x k _] using rev_ind.
  - rewrite app_nil_r in Hk. by apply app_inj_tail in Hk as [-> _].
  - rewrite !app_assoc in Hk. apply app_inj_tail in Hk as [-> _].
    rewrite <-app_assoc. by apply prefix_app_r.
Qed.

(** C3, as amended.  After a [copy] that recorded at least one entry,
    [undo_last_action] returns [True] and clears the last operation; every
    manifest entry was a regular file under [destination/bucket] and is
    gone afterwards; no bucket of an entry is left behind as an empty
    directory; the regular files of the filesystem -- those of the source
    directory among them -- are exactly the ones from before the copy, with
    their data; every manifest source path holds the same file before the
    copy, after it and after the undo; and unless the destination root is
    the source directory or lies inside it, every entry of the source
    directory, subdirectories included, is as before. *)
Theorem undo_reverses_copy st entries errors st1 :
  copy st = (Ok (entries, errors), st1) →
  entries ≠ [] →
  let target := target_folder_path (self st) in
  let dest := destination_folder_path (self st) in
  let fs0 := fs (world st) in
  let fs1 := fs (world st1) in
  ∃ st2,
    undo_last_action st1 = (Ok true, st2)
    ∧ last_operation (self st2) = None
    ∧ (∀ e, e ∈ entries →
         (∃ n, to e = os.path.join (os.path.join dest (date_folder e)) n)
         ∧ is_file (fs1 !! to e) = true
         ∧ fs (world st2) !! to e = None)
    ∧ (∀ e, e ∈ entries →
         ¬ empty_dir (fs (world st2)) (os.path.dirname (to e)))
    ∧ (∀ p f, fs (world st2) !! p = Some (File f) ↔ fs0 !! p = Some (File f))
    ∧ (∀ e, e ∈ entries →
         from e = os.path.join target (file e)
         ∧ is_file (fs0 !! from e) = true
         ∧ fs1 !! from e = fs0 !! from e
         ∧ fs (world st2) !! from e = fs0 !! from e)
    ∧ (¬ target `prefix_of` dest →
       ∀ n, fs (world st2) !! os.path.join target n
            = fs0 !! os.path.join target n).
Proof.
  intros Hcopy Hne target dest fs0 fs1.
  destruct (copy_run st) as [(e & st' & Hr & _)|
    (entries' & errors' & fsA & fs1' & Hgrow & Hinv & Hr)];
    rewrite Hr in Hcopy; [done|].
  injection Hcopy as <- <- <-.
  destruct Hinv as (Hsub & Hnd & Hdone & Hfiles & Hdirs).
  fold target dest in Hdone, Hdirs, Hgrow. subst fs1 fs0. cbn [world with_fs fs] in *.
  set (fs' := delete_all (to <$> entries') fs1').
  set (folders := (list_to_set (os.path.dirname ∘ to <$> entries') : gset pathname)).
  set (fs2 := delete_all (filter (empty_dir fs') (elements folders)) fs').
  assert (∀ p, fs2 !! p = if decide (p ∈ filter (empty_dir fs') (elements folders))
                          then None else
                          if decide (p ∈ to <$> entries') then None else fs1' !! p)
    as Hfs2.
  { intros p. unfold fs2, fs'. by rewrite !lookup_delete_all. }
  assert (∀ p, p ∈ filter (empty_dir fs') (elements folders) →
               is_dir (fs' !! p) = true ∧ length p = S (length dest)) as Hfilt.
  { intros p [[Hd _] Hin]%list_elem_of_filter. split; [done|].
    apply elem_of_elements, elem_of_list_to_set, list_elem_of_fmap in Hin
      as (e & -> & He).
    destruct (Hdone e He) as (_ & _ & _ & _ & n & Hto). unfold compose.
    rewrite Hto, dirname_join. unfold os.path.join. rewrite length_app. simpl. lia. }
  eexists. split.
  { erewrite undo_last_action_copy_run by (by apply after_batch_last).
    rewrite (_undo_copy_operation_run dest); [reflexivity|done|..].
    - intros e He. by destruct (Hdone e He) as (_ & ? & _).
    - intros e He. by destruct (Hdone e He) as (_ & _ & _ & _ & ?). }
  cbn [self world fs with_fs clear_last last_operation].
  fold fs' folders fs2.
  split_and!.
  - done.
  - intros e He. destruct (Hdone e He) as (H0 & Hf & _ & _ & Hn).
    split_and!; [done..|].
    rewrite Hfs2. case_decide; [done|]. rewrite decide_True; [done|].
    apply list_elem_of_fmap. eauto.
  - intros e He [Hd Hc].
    set (d := os.path.dirname (to e)) in *.
    assert (d ∈ elements folders) as Hin.
    { apply elem_of_elements, elem_of_list_to_set, list_elem_of_fmap. eauto. }
    assert (d ∉ filter (empty_dir fs') (elements folders)) as Hnf.
    { intros Hf. rewrite Hfs2, decide_True in Hd by done. done. }
    assert (fs2 !! d = fs' !! d) as Hd'.
    { unfold fs2. rewrite lookup_delete_all. by rewrite decide_False. }
    apply Hnf, list_elem_of_filter. split; [|done].
    split; [by rewrite <-Hd'|].
    apply children_nil. intros n. rewrite children_nil in Hc.
    specialize (Hc n). unfold fs2 in Hc. rewrite lookup_delete_all in Hc.
    case_decide as Hcf; [|done].
    apply Hfilt in Hcf as [_ Hlen].
    destruct (Hdone e He) as (_ & _ & _ & _ & n' & Hto).
    unfold d in Hlen. rewrite Hto, dirname_join in Hlen.
    unfold os.path.join in Hlen. rewrite !length_app in Hlen. simpl in Hlen. lia.
  - intros p f. rewrite Hfs2. split.
    + repeat case_decide; try done. intros Hp.
      apply Hfiles in Hp as [Hp|Hp]; [|done]. by apply Hgrow.
    + intros Hp. destruct Hgrow as [[HsubA _] _].
      pose proof (lookup_weaken _ _ _ _ Hp HsubA) as HpA.
      pose proof (lookup_weaken _ _ _ _ HpA Hsub) as Hp1.
      rewrite decide_False, decide_False; [done| |].
      * intros (e & -> & He)%list_elem_of_fmap.
        destruct (Hdone e He) as (H0 & _). by rewrite H0 in HpA.
      * intros [Hd _]%Hfilt. unfold fs' in Hd. rewrite lookup_delete_all in Hd.
        case_decide; [done|]. by rewrite Hp1 in Hd.
  - intros e He. destruct (Hdone e He) as (H0 & _ & Hf & Hfrom & _).
    assert (is_file (fs (world st) !! from e) = true) as Hf0.
    { destruct (fsA !! from e) as [[f|]|] eqn:E; try done.
      apply Hgrow in E. by rewrite E. }
    destruct (fs (world st) !! from e) as [[f|]|] eqn:E; try done.
    destruct Hgrow as [[HsubA _] _].
    pose proof (lookup_weaken _ _ _ _ E HsubA) as HpA.
    pose proof (lookup_weaken _ _ _ _ HpA Hsub) as Hp1.
    split_and!; [done..|].
    rewrite Hfs2, decide_False, decide_False; [done| |].
    + intros (e' & Heq & He')%list_elem_of_fmap.
      destruct (Hdone e' He') as (H0' & _). by rewrite <-Heq, HpA in H0'.
    + intros [Hd _]%Hfilt. unfold fs' in Hd. rewrite lookup_delete_all in Hd.
      case_decide; [done|]. by rewrite Hp1 in Hd.
  - intros Hnp n. set (p := os.path.join target n).
    destruct Hgrow as [[HsubA HfA] HnewA].
    assert (p ∉ filter (empty_dir fs') (elements folders)) as Hnf.
    { intros [_ Hin]%list_elem_of_filter.
      apply elem_of_elements, elem_of_list_to_set, list_elem_of_fmap in Hin
        as (e & Hp & He).
      destruct (Hdone e He) as (_ & _ & _ & _ & n' & Hto). unfold compose in Hp.
      rewrite Hto, dirname_join in Hp. apply Hnp.
      apply (prefix_join_join target n dest (date_folder e)).
      fold p. by rewrite Hp. }
    rewrite Hfs2, decide_False by done.
    destruct (fs (world st) !! p) as [node|] eqn:E0.
    + pose proof (lookup_weaken _ _ _ _ E0 HsubA) as HpA.
      pose proof (lookup_weaken _ _ _ _ HpA Hsub) as Hp1.
      rewrite decide_False; [done|].
      intros (e & Heq & He)%list_elem_of_fmap.
      destruct (Hdone e He) as (H0 & _). by rewrite <-Heq, HpA in H0.
    + case_decide; [done|].
      destruct (fs1' !! p) as [[f|m]|] eqn:E1; [| |done].
      * apply Hfiles in E1 as [EA|?]; [|done]. apply HfA in EA. congruence.
      * exfalso. apply Hnp.
        destruct (fsA !! p) as [nodeA|] eqn:EA.
        -- destruct (HnewA p E0) as [bucket Hb]; [eauto|].
           by apply (prefix_join_join target n dest bucket).
        -- destruct (Hdirs p EA) as [bucket Hb]; [by rewrite E1|].
           by apply (prefix_join_join target n dest bucket).
Qed.

(** *** [move] as a whole *)

Lemma writes_steps_any f : steps (state_rel eq any_fs) (writes f).
Proof. apply steps_writes; [apply _|]. intros. by apply state_rel_with_fs. Qed.
Global Hint Resolve writes_steps_any : steps.

Lemma for_total_pure {A S} (body : A → S → M S) :
  (∀ x s st, ∃ s', body x s st = (Ok s', st)) →
  ∀ xs s st, ∃ s', for_ xs body s st = (Ok s', st).
Proof.
  intros Hbody xs. induction xs as [|x xs IH]; intros s st; [by eexists|].
  rewrite for_cons. destruct (Hbody x s st) as (s1 & ->). apply IH.
Qed.

Lemma move_run st :
  match os.listdir (fs (world st)) (target_folder_path (self st)) with
  | Raise e => move st = (Raise e, st)
  | Ok names =>
      ∃ entries errors fs',
        for_ names (transfer_body shutil.move) ([], []) st
          = (Ok (entries, errors), with_fs st fs')
        ∧ move st
          = (Ok (entries, errors),
             mkState (after_batch (self st) "move" entries (clock (world st)))
                     (world (with_fs st fs')))
  end.
Proof.
  pose proof (batch_files_run shutil.move "move" st) as Hbatch.
  unfold move, organize_files_by_date.
  rewrite run_bind, get_target_files_run.
  destruct (os.listdir _ _) as [names|e]; [|done].
  rewrite run_bind.
  match goal with
  | |- context [for_ names ?body [] st] =>
      destruct (for_total_pure body) with (xs := names) (s := @nil (string * string)) (st := st)
        as (fwd & ->)
  end.
  - intros x s st0.
    match goal with
    | |- ∃ s', ?m st0 = _ =>
        assert (steps eq m) as Hpure by (steps_tac);
        destruct (try_except_Ok
          (file_date_info ← get_file_date_info x; mret (s ++ [(x, date file_date_info)]))
          s st0) as (r & st1 & Hr)
    end.
    exists r. rewrite Hr. f_equal. specialize (Hpure st0).
    rewrite Hr in Hpure. done.
  - rewrite move_files_batch. done.
Qed.

(** *** Undo never raises *)

Lemma undo_move_body_steps e acc :
  steps (state_rel eq any_fs) (undo_move_body e acc).
Proof. unfold undo_move_body. steps_tac. Qed.
Global Hint Resolve undo_move_body_steps : steps.

Lemma undo_copy_body_steps e acc :
  steps (state_rel eq any_fs) (undo_copy_body e acc).
Proof. unfold undo_copy_body. steps_tac. Qed.
Global Hint Resolve undo_copy_body_steps : steps.

Lemma set_last_operation_run o st :
  set_last_operation o st
  = (Ok (), mkState (mk_logic (target_folder_path (self st))
                       (destination_folder_path (self st))
                       (format_type (self st)) o
                       (operation_history (self st))) (world st)).
Proof. done. Qed.

(** The two undo methods have one shape: either everything up to
    [self.last_operation = None] ran and [True] is returned, or an
    exception was caught before the engine object changed and [False] is
    returned. *)
Lemma undo_shape (loop : M (nat * gset pathname)) st :
  steps (state_rel eq any_fs) loop →
  ∃ b st',
    try_except
      ('(n, folders_to_check) ← loop;
       _ ← _remove_empty_folders folders_to_check;
       _ ← set_last_operation None;
       mret true)
      (λ e, mret false) st = (Ok b, st')
    ∧ self st' = if b then clear_last (self st) else self st.
Proof.
  intros Hloop. unfold try_except, try_except_if. rewrite run_bind.
  specialize (Hloop st). destruct (loop st) as [[[n folders]|e] st1];
    destruct Hloop as (Hself & _); cbn in Hself.
  - rewrite run_bind.
    pose proof (_remove_empty_folders_steps folders st1) as (Hself' & _).
    destruct (_remove_empty_folders_Ok folders st1) as (st2 & Hst2).
    rewrite Hst2 in Hself' |- *. cbn in Hself'.
    rewrite run_bind, set_last_operation_run. cbn.
    eexists true, _. split; [done|]. cbn. unfold clear_last. by rewrite <-Hself', <-Hself.
  - cbn. exists false, st1. split; [done|]. done.
Qed.

Lemma _undo_move_operation_shape files_info st :
  ∃ b st', _undo_move_operation files_info st = (Ok b, st')
           ∧ self st' = if b then clear_last (self st) else self st.
Proof. apply undo_shape. steps_tac. Qed.

Lemma _undo_copy_operation_shape files_info st :
  ∃ b st', _undo_copy_operation files_info st = (Ok b, st')
           ∧ self st' = if b then clear_last (self st) else self st.
Proof. apply undo_shape. steps_tac. Qed.

Lemma undo_last_action_run st :
  undo_last_action st
  = match last_operation (self st) with
    | None => (Ok false, st)
    | Some op =>
        if decide (type op = "move") then _undo_move_operation (files op) st
        else if decide (type op = "copy") then _undo_copy_operation (files op) st
        else (Ok false, st)
    end.
Proof.
  unfold undo_last_action. rewrite run_bind. cbn [get_self].
  destruct (last_operation (self st)) as [op|]; [|done].
  unfold try_except at 1, try_except_if.
  destruct (decide (type op = "move")).
  - by destruct (_undo_move_operation_shape (files op) st) as (b & st' & -> & _).
  - destruct (decide (type op = "copy")); [|done].
    by destruct (_undo_copy_operation_shape (files op) st) as (b & st' & -> & _).
Qed.

(** [undo_last_action] returns a boolean in every state; the engine object
    is then as before, but for the last operation, which [True] clears. *)
Lemma undo_last_action_shape st :
  ∃ b st', undo_last_action st = (Ok b, st')
           ∧ self st' = if b then clear_last (self st) else self st.
Proof.
  rewrite undo_last_action_run.
  destruct (last_operation (self st)) as [op|]; [|by exists false, st].
  destruct (decide (type op = "move")); [apply _undo_move_operation_shape|].
  destruct (decide (type op = "copy")); [apply _undo_copy_operation_shape|].
  by exists false, st.
Qed.

(** An exception in the loop of an undo method ends the method in its
    handler: [False], in the state the exception left. *)
Lemma undo_shape_raise (loop : M (nat * gset pathname)) e st st1 :
  loop st = (Raise e, st1) →
  try_except
    ('(n, folders_to_check) ← loop;
     _ ← _remove_empty_folders folders_to_check;
     _ ← set_last_operation None;
     mret true)
    (λ e, mret false) st = (Ok false, st1).
Proof.
  intros Hloop. unfold try_except, try_except_if. by rewrite run_bind, Hloop.
Qed.

Lemma undo_loop_self {S} (body : file_info → S → M S) es s st :
  (∀ e acc, steps (state_rel eq any_fs) (body e acc)) →
  self (for_ es body s st).2 = self st.
Proof.
  intros Hbody.
  assert (steps (state_rel eq any_fs) (for_ es body s)) as Hsteps by steps_tac.
  specialize (Hsteps st). destruct (for_ es body s st) as [r st1].
  by destruct Hsteps as [Hself _].
Qed.

(** ** Undo fails closed *)

(** C5.  [undo_last_action] never raises: it returns a boolean in every
    state.  Without a last operation, or with one whose kind is neither
    move nor copy, it returns [False] and changes nothing at all.  Where
    the loop of the undo of a move or of a copy raises (a [shutil.move] or
    an [os.remove] that fails), the exception is converted into [False]:
    the call ends in the state the exception left, with the same last
    operation, so that a retry is possible.  Whenever [False] is returned
    the engine object is as before; when [True] is returned the last
    operation is cleared and the rest of the engine object is as before; so
    the last operation is cleared only by a successful undo. *)
Theorem undo_last_action_fails_closed st :
  ∃ b st',
    undo_last_action st = (Ok b, st')
    ∧ (last_operation (self st) = None → b = false ∧ st' = st)
    ∧ (∀ op, last_operation (self st) = Some op →
         type op ≠ "move" → type op ≠ "copy" → b = false ∧ st' = st)
    ∧ (∀ op e st1, last_operation (self st) = Some op → type op = "move" →
         for_ (files op) undo_move_body (0, ∅) st = (Raise e, st1) →
         b = false ∧ st' = st1 ∧ last_operation (self st') = Some op)
    ∧ (∀ op e st1, last_operation (self st) = Some op → type op = "copy" →
         for_ (files op) undo_copy_body (0, ∅) st = (Raise e, st1) →
         b = false ∧ st' = st1 ∧ last_operation (self st') = Some op)
    ∧ (b = false → self st' = self st)
    ∧ (b = true → self st' = clear_last (self st))
    ∧ (last_operation (self st') ≠ last_operation (self st) → b = true).
Proof.
  destruct (undo_last_action_shape st) as (b & st' & Hrun & Hself).
  exists b, st'. split; [done|].
  assert (∀ op e st1 (loop : M (nat * gset pathname)),
    last_operation (self st) = Some op →
    undo_last_action st
    = try_except
        ('(n, folders_to_check) ← loop;
         _ ← _remove_empty_folders folders_to_check;
         _ ← set_last_operation None;
         mret true)
        (λ e, mret false) st →
    self st1 = self st →
    loop st = (Raise e, st1) →
    b = false ∧ st' = st1 ∧ last_operation (self st') = Some op) as Hraise.
  { intros op e st1 loop Hlast Hundo Hself1 Hloop.
    rewrite (undo_shape_raise _ _ _ _ Hloop), Hrun in Hundo.
    injection Hundo as -> ->. by rewrite Hself1. }
  rewrite undo_last_action_run in Hrun, Hraise.
  split_and!.
  - intros Hlast. rewrite Hlast in Hrun. by injection Hrun as <- <-.
  - intros op Hlast Hm Hc. rewrite Hlast in Hrun.
    rewrite !decide_False in Hrun by done. by injection Hrun as <- <-.
  - intros op e st1 Hlast Hm Hloop.
    apply (Hraise op e st1 (for_ (files op) undo_move_body (0, ∅)) Hlast).
    + rewrite Hlast. by rewrite decide_True.
    + rewrite <-(undo_loop_self undo_move_body (files op) (0, ∅) st)
        by apply undo_move_body_steps.
      by rewrite Hloop.
    + done.
  - intros op e st1 Hlast Hc Hloop.
    apply (Hraise op e st1 (for_ (files op) undo_copy_body (0, ∅)) Hlast).
    + rewrite Hlast. rewrite decide_False by (rewrite Hc; discriminate).
      by rewrite decide_True.
    + rewrite <-(undo_loop_self undo_copy_body (files op) (0, ∅) st)
        by apply undo_copy_body_steps.
      by rewrite Hloop.
    + done.
  - by intros ->.
  - by intros ->.
  - destruct b; [done|]. rewrite Hself. by intros [].
Qed.

(** ** The last operation *)

(** C7.  A batch records an operation exactly when its manifest is not
    empty, and the operation recorded is the batch's own (kind, entries,
    time of recording), replacing whatever was recorded before; with an
    empty manifest, or when the call is aborted, the engine object is as
    before.  A successful undo leaves no last operation.  (That there is
    at most one last operation is the type [option operation].) *)
Theorem last_operation_tracking st :
  (match copy st with
   | (Ok (entries, _), st') =>
       self st' = after_batch (self st) "copy" entries (clock (world st))
       ∧ last_operation (self st')
         = if decide (entries = []) then last_operation (self st)
           else Some (mk_operation "copy" entries (clock (world st)))
   | (Raise _, st') => self st' = self st
   end)
  ∧ (match move st with
     | (Ok (entries, _), st') =>
         self st' = after_batch (self st) "move" entries (clock (world st))
         ∧ last_operation (self st')
           = if decide (entries = []) then last_operation (self st)
             else Some (mk_operation "move" entries (clock (world st)))
     | (Raise _, st') => self st' = self st
     end)
  ∧ (match undo_last_action st with
     | (Ok true, st') => last_operation (self st') = None
     | _ => True
     end).
Proof.
  assert (∀ ty entries,
    last_operation (after_batch (self st) ty entries (clock (world st)))
    = if decide (entries = []) then last_operation (self st)
      else Some (mk_operation ty entries (clock (world st)))) as Hlast.
  { intros ty [|e entries]; by case_decide. }
  split_and!.
  - destruct (copy_run st) as [(e & st' & -> & Hs & _)|
      (entries & errors & fsA & fs1 & _ & _ & ->)]; [done|].
    split; [done|]. apply Hlast.
  - pose proof (move_run st) as Hmove.
    destruct (os.listdir _ _) as [names|e].
    + destruct Hmove as (entries & errors & fs' & _ & ->). split; [done|]. apply Hlast.
    + by rewrite Hmove.
  - destruct (undo_last_action_shape st) as (b & st' & -> & Hself).
    destruct b; [|done]. by rewrite Hself.
Qed.

(** ** The bounded history *)

Lemma track_history_drop s op :
  length (operation_history s) ≤ 10 →
  operation_history (track s op)
  = drop (length (operation_history s ++ [op]) - 10) (operation_history s ++ [op]).
Proof.
  intros Hlen. unfold track. cbn [operation_history]. rewrite length_app.
  cbn [length].
  destruct (10 <? length (operation_history s) + 1) eqn:E.
  - apply Nat.ltb_lt in E.
    replace (length (operation_history s) + 1 - 10) with 1 by lia.
    by destruct (operation_history s ++ [op]).
  - apply Nat.ltb_ge in E.
    by replace (length (operation_history s) + 1 - 10) with 0 by lia.
Qed.

Lemma drop_latest {A} (h r : list A) :
  drop (length (drop (length h - 10) h ++ r) - 10) (drop (length h - 10) h ++ r)
  = drop (length (h ++ r) - 10) (h ++ r).
Proof.
  destruct (decide (length h ≤ 10)) as [Hle|Hgt].
  - by replace (length h - 10) with 0 by lia.
  - rewrite <-(drop_app_le h r) by lia. rewrite drop_drop, length_drop. f_equal.
    rewrite !length_app. lia.
Qed.

Lemma after_batch_history s ty entries now :
  operation_history (after_batch s ty entries now)
  = match operation_of ty now (Ok (entries, @nil string)) with
    | Some op => operation_history (track s op)
    | None => operation_history s
    end.
Proof. by destruct entries. Qed.

Lemma operation_of_errors ty now entries (errors errors' : list string) :
  operation_of ty now (Ok (entries, errors))
  = operation_of ty now (Ok (entries, errors')).
Proof. done. Qed.

Lemma batch_files_history transfer ty st :
  operation_history (self (batch_files transfer ty st).2)
  = match operation_of ty (clock (world st)) (batch_files transfer ty st).1 with
    | Some op => operation_history (track (self st) op)
    | None => operation_history (self st)
    end.
Proof.
  pose proof (batch_files_run transfer ty st) as Hrun.
  destruct (os.listdir _ _) as [names|e]; [|by rewrite Hrun].
  destruct Hrun as (entries & errors & fs' & _ & ->). cbn [fst snd self].
  rewrite after_batch_history. by rewrite (operation_of_errors _ _ _ errors []).
Qed.

Lemma preview_organization_pure : steps eq preview_organization.
Proof. unfold preview_organization, files_with_dates. steps_tac. Qed.

Lemma get_target_folder_files_count_pure : steps eq get_target_folder_files_count.
Proof. unfold get_target_folder_files_count. steps_tac. Qed.

(** What a call does to the history. *)
Lemma perform_history c st :
  operation_history (self (perform c st))
  = match recorded c st with
    | Some op => operation_history (track (self st) op)
    | None => operation_history (self st)
    end.
Proof.
  assert (∀ (b : bool) st',
    self st' = (if b then clear_last (self st) else self st) →
    operation_history (self st') = operation_history (self st)) as Hundo.
  { by intros [] st' ->. }
  assert (∀ A (m : M A), steps eq m →
    operation_history (self (m st).2) = operation_history (self st)) as Hpure.
  { intros A m Hm. by rewrite (steps_eq m st Hm). }
  destruct c; cbn [perform recorded].
  - destruct (undo_last_action_shape st) as (b & st' & -> & Hself).
    by apply (Hundo b).
  - destruct (_undo_move_operation_shape files_info st) as (b & st' & -> & Hself).
    by apply (Hundo b).
  - destruct (_undo_copy_operation_shape files_info st) as (b & st' & -> & Hself).
    by apply (Hundo b).
  - pose proof (_remove_empty_folders_steps folders_to_check st) as Hst.
    destruct (_remove_empty_folders folders_to_check st) as [r st'].
    destruct Hst as [Hself _]. cbn in *. by rewrite <-Hself.
  - by rewrite _track_operation_run.
  - apply Hpure, get_target_folder_files_count_pure.
  - apply Hpure, get_target_files_pure.
  - apply Hpure, get_file_date_info_pure.
  - apply Hpure, read_file_date_properties_pure.
  - apply Hpure, _get_exif_date_pure.
  - by destruct (create_folder_with_date_run st) as (r & fs' & -> & _).
  - done.
  - rewrite move_files_batch. apply batch_files_history.
  - rewrite copy_files_batch. apply batch_files_history.
  - apply Hpure, preview_organization_pure.
  - pose proof (move_run st) as Hmove. unfold move in Hmove.
    destruct (os.listdir _ _) as [names|e]; [|by rewrite Hmove].
    destruct Hmove as (entries & errors & fs' & _ & ->). cbn [fst snd self].
    rewrite after_batch_history. by rewrite (operation_of_errors _ _ _ errors []).
  - pose proof (move_run st) as Hmove.
    destruct (os.listdir _ _) as [names|e]; [|by rewrite Hmove].
    destruct Hmove as (entries & errors & fs' & _ & ->). cbn [fst snd self].
    rewrite after_batch_history. by rewrite (operation_of_errors _ _ _ errors []).
  - destruct (copy_run st) as [(e & st' & -> & Hs & _)|
      (entries & errors & fsA & fs1 & _ & _ & ->)]; cbn [fst snd self].
    + cbn. by rewrite Hs.
    + rewrite after_batch_history. by rewrite (operation_of_errors _ _ _ errors []).
Qed.

Lemma perform_history_bound c st :
  length (operation_history (self st)) ≤ 10 →
  length (operation_history (self (perform c st))) ≤ 10.
Proof.
  intros Hlen. rewrite perform_history. destruct (recorded c st) as [op|]; [|done].
  rewrite track_history_drop by done. rewrite length_drop, length_app. cbn. lia.
Qed.

Lemma run_events_history evs st :
  length (operation_history (self st)) ≤ 10 →
  let all := operation_history (self st) ++ recorded_along evs st in
  operation_history (self (run_events evs st)) = drop (length all - 10) all.
Proof.
  unfold run_events. revert st. induction evs as [|ev evs IH]; intros st Hlen.
  - cbn. rewrite app_nil_r.
    by replace (length (operation_history (self st)) - 10) with 0 by lia.
  - cbn [foldl recorded_along]. cbn zeta. rewrite IH.
    + cbn zeta. rewrite app_assoc. destruct ev as [c|w']; cbn [happen self].
      * rewrite perform_history. destruct (recorded c st) as [op|]; cbn [option_list].
        -- rewrite track_history_drop by done. apply drop_latest.
        -- rewrite app_nil_r. done.
      * rewrite app_nil_r. done.
    + destruct ev as [c|w']; cbn [happen self]; [|done].
      by apply perform_history_bound.
Qed.

(** C8.  Starting from a fresh engine object, whatever methods are called
    and however the world changes in between, the history holds the
    operations recorded so far in the order of recording, cut down to the
    10 latest, and so never more than 10.  A further call of any method
    leaves a history of at most 10, and changes it exactly when the call
    has an operation to record (a [copy] or a [move], or the batch behind
    them, that returns a non-empty manifest, or [_track_operation]
    itself): that operation is then appended at the end, and when the
    history already holds 10 its oldest entry is dropped.  Every other
    call, one that raises included, leaves the history as it is. *)
Theorem operation_history_bounded target_folder_path project_folder_path
    format_type w evs :
  let st0 := mkState (__init__ target_folder_path project_folder_path format_type) w in
  let st := run_events evs st0 in
  let h := operation_history (self st) in
  length h ≤ 10
  ∧ h = drop (length (recorded_along evs st0) - 10) (recorded_along evs st0)
  ∧ ∀ c,
      let h' := operation_history (self (perform c st)) in
      length h' ≤ 10
      ∧ match recorded c st with
        | None => h' = h
        | Some op =>
            (length h < 10 → h' = h ++ [op])
            ∧ (length h = 10 →
               ∃ oldest rest, h = oldest :: rest ∧ h' = rest ++ [op])
        end.
Proof.
  intros st0 st h.
  assert (h = drop (length (recorded_along evs st0) - 10) (recorded_along evs st0))
    as Hh.
  { subst h st. rewrite run_events_history by (cbn; lia). done. }
  assert (length h ≤ 10) as Hlen.
  { rewrite Hh, length_drop. lia. }
  split_and!; [done..|].
  intros c h'. split; [by apply perform_history_bound|].
  subst h'. rewrite perform_history. destruct (recorded c st) as [op|]; [|done].
  fold h. unfold track. cbn [operation_history]. fold h.
  rewrite length_app. cbn [length]. split.
  - intros Hlt. destruct (10 <? length h + 1) eqn:E; [|done].
    apply Nat.ltb_lt in E. lia.
  - intros Heq. destruct (10 <? length h + 1) eqn:E.
    + destruct h as [|oldest rest]; [done|]. by exists oldest, rest.
    + apply Nat.ltb_ge in E. lia.
Qed.

(** ** The date format *)

Lemma _get_exif_date_run file_path st :
  _get_exif_date file_path st = (Ok (exif_date_of (world st) file_path), st).
Proof.
  unfold _get_exif_date, exif_date_of, try_except, try_except_if.
  destruct (negb (bool_decide _)); [done|].
  rewrite run_bind. cbn [get_world].
  destruct (negb (pil_available (world st))); [done|].
  rewrite run_bind. unfold reads.
  destruct (PIL.getexif _ _) as [[exif_data|]|e]; try done.
  unfold call. by destruct (probe_fields _ _).
Qed.

Lemma fromtimestamp_Ok d d' :
  datetime.fromtimestamp d = Ok d' → d' = d ∧ 1 ≤ datetime.year d ≤ 9999.
Proof.
  unfold datetime.fromtimestamp.
  destruct (1 <=? datetime.year d) eqn:E1; [|done].
  destruct (datetime.year d <=? 9999) eqn:E2; [|done].
  intros [= <-]. apply Nat.leb_le in E1, E2. done.
Qed.

Lemma get_file_date_info_run file_name st :
  get_file_date_info file_name st
  = (let file_path := os.path.join (target_folder_path (self st)) file_name in
     file_stats ← os.stat (fs (world st)) file_path;
     d ← resolved_date (world st) file_path file_stats;
     Ok {| date := datetime.strftime d (format_date (self st));
           source := match exif_date_of (world st) file_path with
                     | Some _ => "EXIF data"
                     | None => "File modification time"
                     end;
           original_date := d;
           datetime_original := datetime.strftime d "%Y-%m-%d %H:%M:%S" |},
     st).
Proof.
  unfold get_file_date_info, resolved_date. rewrite run_bind. cbn [get_self].
  rewrite run_bind. unfold reads.
  destruct (os.stat _ _) as [file_stats|e]; [|done].
  rewrite run_bind, _get_exif_date_run. cbn.
  destruct (exif_date_of _ _); [done|].
  rewrite run_bind. unfold call. by destruct (datetime.fromtimestamp _).
Qed.

Lemma read_file_date_properties_run file_name st :
  read_file_date_properties file_name st
  = (let file_path := os.path.join (target_folder_path (self st)) file_name in
     file_stats ← os.stat (fs (world st)) file_path;
     d ← resolved_date (world st) file_path file_stats;
     Ok (datetime.strftime d (format_date (self st))),
     st).
Proof.
  unfold read_file_date_properties, resolved_date. rewrite run_bind. cbn [get_self].
  rewrite run_bind. unfold reads.
  destruct (os.stat _ _) as [file_stats|e]; [|done].
  rewrite run_bind, _get_exif_date_run. cbn.
  destruct (exif_date_of _ _); [done|].
  rewrite run_bind. unfold call. by destruct (datetime.fromtimestamp _).
Qed.

(** C9.  A format selector other than the three recognised ones yields the
    format of [YYYY-MM-DD] (a value, never an exception), and with it the
    same date information and the same bucket name for every file in
    every world as the selector [YYYY-MM-DD] does. *)
Theorem format_date_default s format_type :
  format_type ≠ "DD-MM-YYYY" →
  format_type ≠ "MM-DD-YYYY" →
  format_type ≠ "YYYY-MM-DD" →
  format_date (with_format s format_type) = "%Y-%m-%d"
  ∧ format_date (with_format s format_type)
    = format_date (with_format s "YYYY-MM-DD")
  ∧ ∀ w file_name,
      (get_file_date_info file_name (mkState (with_format s format_type) w)).1
      = (get_file_date_info file_name (mkState (with_format s "YYYY-MM-DD") w)).1
      ∧ (read_file_date_properties file_name (mkState (with_format s format_type) w)).1
        = (read_file_date_properties file_name (mkState (with_format s "YYYY-MM-DD") w)).1.
Proof.
  intros H1 H2 H3.
  assert (format_date (with_format s format_type) = "%Y-%m-%d") as Hfmt.
  { unfold format_date. cbn. by rewrite !decide_False. }
  split_and!; [done|by rewrite Hfmt|].
  intros w file_name.
  rewrite !get_file_date_info_run, !read_file_date_properties_run. cbn [fst self world].
  by rewrite Hfmt.
Qed.

Lemma format_date_default_witness :
  format_date (with_format (__init__ ["src"] ["dst"] "DD-MM-YYYY") "invalid_format")
  = "%Y-%m-%d".
Proof.
  apply (format_date_default (__init__ ["src"] ["dst"] "DD-MM-YYYY") "invalid_format");
    intros H; discriminate H.
Defined.

(** ** Probing the EXIF tags *)

Lemma strptime_raises s fmt e : datetime.strptime s fmt = Raise e → e = ValueError.
Proof.
  unfold datetime.strptime, datetime.construct.
  repeat case_match; naive_solver.
Qed.

Lemma try_formats_first_parse s fmts :
  try_formats s fmts = Ok (first_parse s fmts).
Proof.
  unfold first_parse. induction fmts as [|fmt fmts IH]; [done|]. cbn.
  destruct (datetime.strptime s fmt) as [d|e] eqn:E; cbn; [done|].
  apply strptime_raises in E as ->. by cbn.
Qed.

Lemma parse_exif_value_code s :
  parse_exif_value s = Ok (code_parse_value s)
  ∨ (parse_exif_value s = Raise ValueError ∧ code_parse_value s = None).
Proof.
  unfold parse_exif_value, code_parse_value, convert_colons, first_parse.
  destruct (pystr.contains ":" s).
  - cbn. destruct (datetime.strptime _ _) as [d|e] eqn:E; cbn; [by left|].
    apply strptime_raises in E as ->. by right.
  - left. apply try_formats_first_parse.
Qed.

(** The result of the probe: the date of the first tag with a date, unless
    a value that is no text is met before; such a value ends the probe in
    [TypeError]. *)
Lemma probe_fields_code exif_data fields :
  probe_fields exif_data fields
  = match head (omap (tag_date code_parse_value exif_data)
                  (reached exif_data fields)) with
    | Some d => Ok (Some d)
    | None =>
        if existsb (ends_probe exif_data) fields then Raise TypeError
        else Ok None
    end.
Proof.
  induction fields as [|field_id fields IH]; [done|].
  cbn [probe_fields reached existsb]. rewrite IH. clear IH.
  assert (∀ v, exif_data !! field_id = Some v → tag_truthy v = false →
    ends_probe exif_data field_id = false
    ∧ tag_date code_parse_value exif_data field_id = None) as Hfalse.
  { intros v E Hv. unfold ends_probe, tag_date. rewrite E.
    destruct v; cbn in Hv |- *; by rewrite ?Hv. }
  destruct (exif_data !! field_id) as [v|] eqn:E.
  2:{ assert (ends_probe exif_data field_id = false) as ->
        by (unfold ends_probe; by rewrite E).
      assert (tag_date code_parse_value exif_data field_id = None) as Hd
        by (unfold tag_date; by rewrite E).
      cbn [omap list_omap orb]. by rewrite Hd. }
  destruct (tag_truthy v) eqn:Hv.
  2:{ destruct (Hfalse v eq_refl Hv) as [-> Hd]. cbn [omap list_omap orb]. by rewrite Hd. }
  destruct v as [date_str|n|b|items]; cbn [parse_tag_value].
  - assert (ends_probe exif_data field_id = false) as ->
      by (unfold ends_probe; by rewrite E).
    assert (tag_date code_parse_value exif_data field_id = code_parse_value date_str)
      as Hd by (unfold tag_date; rewrite E; cbn in Hv; by rewrite Hv).
    cbn [omap list_omap orb]. rewrite Hd.
    destruct (parse_exif_value_code date_str) as [->|[-> ->]]; [|done].
    by destruct (code_parse_value date_str).
  - assert (ends_probe exif_data field_id = true) as ->
      by (unfold ends_probe; by rewrite E). done.
  - assert (ends_probe exif_data field_id = true) as ->
      by (unfold ends_probe; by rewrite E). done.
  - assert (ends_probe exif_data field_id = true) as ->
      by (unfold ends_probe; by rewrite E). done.
Qed.

(** What [_get_exif_date] returns for a decodable image with the tag
    dictionary [exif_data]. *)
Lemma exif_date_of_tags w file_path f exif_data :
  pystr.lower (os.path.splitext (os.path.basename file_path)).2 ∈ image_extensions →
  pil_available w = true →
  fs w !! file_path = Some (File f) →
  image f = Exif exif_data →
  exif_date_of w file_path = first_tag_date code_parse_value exif_data.
Proof.
  intros Hext Hpil Hfile Himage. unfold exif_date_of.
  rewrite bool_decide_eq_true_2 by done. rewrite Hpil. cbn [negb].
  unfold PIL.getexif. rewrite Hfile, Himage, probe_fields_code.
  unfold first_tag_date. destruct (head _); [done|]. by destruct (existsb _ _).
Qed.

(** C2, as amended.  For a recognised image file whose metadata decodes to
    the tag dictionary [exif_data], the tags 36867, 36868, 306, 50971 are
    probed in this order.  A tag that is absent or whose value is false
    (an empty text) is passed over; so is a text that is not parsed, where
    parsing is [code_parse_value] (a text with a colon: converted and
    parsed as [%Y-%m-%d %H:%M:%S] only; a text without a colon: the three
    formats in order).  The first text that is parsed gives the date, and
    the source is then the EXIF data.  A true value that is no text ends
    the probe: [TypeError], no later tag is probed.  Where the probe gives
    no date the answer is the modification time: exactly so (with the
    exception of [datetime.fromtimestamp] for a time out of range) when
    the probe ran to its end, and whenever the query returns when the
    probe was ended by a value that is no text. *)
Theorem exif_date_resolution s w file_name f exif_data :
  let file_path := os.path.join (target_folder_path s) file_name in
  let found := first_tag_date code_parse_value exif_data in
  let ended := existsb (ends_probe exif_data) date_fields in
  pystr.lower (os.path.splitext file_name).2 ∈ image_extensions →
  pil_available w = true →
  fs w !! file_path = Some (File f) →
  image f = Exif exif_data →
  probe_fields exif_data date_fields
    = match found with
      | Some d => Ok (Some d)
      | None => if ended then Raise TypeError else Ok None
      end
  ∧ (∀ d, found = Some d →
       get_file_date_info file_name (mkState s w)
       = (Ok (info_of s "EXIF data" d), mkState s w))
  ∧ (found = None → ended = false →
       get_file_date_info file_name (mkState s w)
       = (match datetime.fromtimestamp (mtime f) with
          | Ok d => Ok (info_of s "File modification time" d)
          | Raise e => Raise e
          end, mkState s w))
  ∧ (found = None →
       ∀ info st', get_file_date_info file_name (mkState s w) = (Ok info, st') →
         info = info_of s "File modification time" (mtime f)
         ∧ 1 ≤ datetime.year (mtime f) ≤ 9999
         ∧ st' = mkState s w).
Proof.
  intros file_path found ended Hext Hpil Hfile Himage.
  split; [apply probe_fields_code|].
  assert (exif_date_of w file_path = found) as Hexif.
  { apply (exif_date_of_tags w file_path f exif_data); try done.
    unfold file_path, os.path.join, os.path.basename. by rewrite last_last. }
  assert (get_file_date_info file_name (mkState s w)
          = (match found with
             | Some d => Ok (info_of s "EXIF data" d)
             | None =>
                 match datetime.fromtimestamp (mtime f) with
                 | Ok d => Ok (info_of s "File modification time" d)
                 | Raise e => Raise e
                 end
             end, mkState s w)) as Hrun.
  { rewrite get_file_date_info_run. cbn [self world]. fold file_path.
    unfold os.stat, resolved_date. rewrite Hfile, Hexif. cbn.
    destruct found; [done|]. by destruct (datetime.fromtimestamp _). }
  split_and!.
  - intros d Hd. by rewrite Hrun, Hd.
  - intros Hnone _. by rewrite Hrun, Hnone.
  - intros Hnone info st'. rewrite Hrun, Hnone.
    unfold datetime.fromtimestamp.
    destruct (1 <=? datetime.year (mtime f)) eqn:E1; [|done].
    destruct (datetime.year (mtime f) <=? 9999) eqn:E2; [|done]. cbn.
    intros [= <- <-]. apply Nat.leb_le in E1, E2. done.
Qed.

(** ** Undoing a move *)



Global Instance dirs_removed_preorder : PreOrder dirs_removed.
Proof.
  split.
  - intros fs p. by left.
  - intros fs1 fs2 fs3 H12 H23 p.
    destruct (H23 p) as [->|[Hd ->]]; [done|].
    destruct (H12 p) as [<-|[_ Hn]]; [by right|]. by rewrite Hn in Hd.
Qed.






(** ** Scenarios *)

(** C1 (the code departs from it).  A subdirectory of the source is listed
    by [get_target_files] and [move] processes it like a file: the
    directory and what it holds end up under a bucket of the destination,
    and the manifest has an entry for it.  The sibling
    [get_target_folder_files_count] leaves it out. *)
Theorem move_takes_subdirectory :
  let st := mkState engine world_subdir in
  is_dir (fs (world st) !! ["src"; "sub"]) = true
  ∧ (get_target_files st).1 = Ok ["doc.txt"; "sub"]
  ∧ (get_target_folder_files_count st).1 = Ok 1
  ∧ (move st).1
    = Ok ([doc_entry;
           {| file := "sub"; from := ["src"; "sub"];
              to := ["dst"; "2023-01-15"; "sub"]; date_folder := "2023-01-15";
              date_source := "File modification time" |}], [])
  ∧ fs (world (move st).2) !! ["src"; "sub"] = None
  ∧ fs (world (move st).2) !! ["dst"; "2023-01-15"; "sub"]
    = Some (Dir (noon 2023 1 15))
  ∧ fs (world (move st).2) !! ["dst"; "2023-01-15"; "sub"; "x.txt"]
    = Some (plain "x" (noon 2023 1 15))
  ∧ (copy st).1
    = Ok ([doc_entry], ["Error processing file 'sub': Is a directory"])
  ∧ is_dir (fs (world (copy st).2) !! ["dst"; "2023-01-15"]) = true.
Proof. cbv zeta. split_and!; vm_compute; reflexivity. Qed.

(** C4 (the code departs from it).  In the in-place scenario [move] takes
    the bucket directory [2024-01-01] for a file to move, after it has
    moved [2024] into it under the name [2024_1]; the bucket is created
    anew for the file [2024_1], and the manifest holds the destination
    [/d/2024-01-01/2024_1] twice. *)
Theorem move_repeats_destination :
  let st := mkState engine_inplace world_inplace in
  (get_target_files st).1 = Ok ["2024"; "2024-01-01"; "2024_1"]
  ∧ to <$> (default ([], []) (to_option (move st).1)).1
    = [["d"; "2024-01-01"; "2024_1"]; ["d"; "2026-11-03"; "2024-01-01"];
       ["d"; "2024-01-01"; "2024_1"]]
  ∧ file <$> (default ([], []) (to_option (move st).1)).1
    = ["2024"; "2024-01-01"; "2024_1"]
  ∧ ¬ NoDup (to <$> (default ([], []) (to_option (move st).1)).1).
Proof.
  cbv zeta.
  assert (to <$> (default ([], []) (to_option (move (mkState engine_inplace world_inplace)).1)).1
    = [["d"; "2024-01-01"; "2024_1"]; ["d"; "2026-11-03"; "2024-01-01"];
       ["d"; "2024-01-01"; "2024_1"]]) as Hto by (vm_compute; reflexivity).
  split_and!; [vm_compute; reflexivity|done|vm_compute; reflexivity|].
  rewrite Hto. intros Hnd. apply NoDup_cons in Hnd as [Hnotin _].
  apply Hnotin. right. left.
Qed.

(** C6 (the code departs from it).  With a listable source and a
    destination root that is a regular file, [copy] is aborted by the
    exception that [os.makedirs] raises in [create_folder_with_date],
    where [move] records the same failure for the file and returns. *)
Theorem copy_aborts_on_unwritable_destination :
  let st := mkState engine world_destfile in
  os.listdir (fs (world st)) (target_folder_path (self st)) = Ok ["doc.txt"]
  ∧ (copy st).1 = Raise NotADirectoryError
  ∧ (create_folder_with_date st).1 = Raise NotADirectoryError
  ∧ (move st).1
    = Ok ([], ["Error processing file 'doc.txt': Not a directory"]).
Proof. cbv zeta. split_and!; vm_compute; reflexivity. Qed.

(** What does hold of C6: a batch is aborted by an unlistable source, and
    [move] and the copy loop are aborted by nothing else. *)
Lemma batch_aborts_on_source_only st :
  (∀ e, os.listdir (fs (world st)) (target_folder_path (self st)) = Raise e →
        (move st).1 = Raise e ∧ (copy_files_to_destination_folder st).1 = Raise e)
  ∧ (∀ names, os.listdir (fs (world st)) (target_folder_path (self st)) = Ok names →
        is_Ok (move st).1 = true
        ∧ is_Ok (copy_files_to_destination_folder st).1 = true).
Proof.
  pose proof (move_run st) as Hmove.
  pose proof (batch_files_run shutil.copy "copy" st) as Hcopy.
  rewrite <-copy_files_batch in Hcopy.
  split.
  - intros e He. rewrite He in Hmove, Hcopy. by rewrite Hmove, Hcopy.
  - intros names Hn. rewrite Hn in Hmove, Hcopy.
    destruct Hmove as (? & ? & ? & _ & ->), Hcopy as (? & ? & ? & _ & ->). done.
Qed.

(** What does hold of C4: the manifest of a copy never repeats a
    destination path. *)
Lemma copy_destinations_unique st entries errors st' :
  copy st = (Ok (entries, errors), st') → NoDup (to <$> entries).
Proof.
  intros Hcopy.
  destruct (copy_run st) as [(e & st1 & Hr & _)|
    (entries' & errors' & fsA & fs1 & _ & Hinv & Hr)];
    rewrite Hr in Hcopy; [done|].
  injection Hcopy as <- <- <-. by destruct Hinv as (_ & Hnd & _).
Qed.

(** C2, the claim as stated fails: for the tag value [2023:01:15] the
    procedure of the claim (convert, parse, retry the text against the
    date-only formats) finds a date, the code finds none and the file
    is filed under its modification time. *)
Lemma exif_retry_counterexample :
  first_tag_date spec_parse_value {[ 36867%Z := Text "2023:01:15" ]}
    = Some (datetime.mk 2023 1 15 0 0 0)
  ∧ probe_fields {[ 36867%Z := Text "2023:01:15" ]} date_fields = Ok None
  ∧ source <$> to_option (get_file_date_info "a.jpg" (mkState engine world_photos)).1
    = Some "File modification time"
  ∧ date <$> to_option (get_file_date_info "a.jpg" (mkState engine world_photos)).1
    = Some "2024-03-10".
Proof. split_and!; vm_compute; reflexivity. Qed.

Lemma exif_date_resolution_witness :
  get_file_date_info "c.jpg" (mkState engine world_photos)
  = (Ok {| date := "2023-01-15"; source := "EXIF data";
           original_date := datetime.mk 2023 1 15 10 20 30;
           datetime_original := "2023-01-15 10:20:30" |},
     mkState engine world_photos)
  ∧ probe_fields {[ 36867%Z := Int 20230115; 306%Z := Text "2023-01-15" ]}
      date_fields = Raise TypeError.
Proof.
  split.
  - destruct (exif_date_resolution engine world_photos "c.jpg"
                (mkfile "c" (noon 2024 3 10)
                   (Exif {[ 36867%Z := Text "2023:01:15:10:20:30" ]}))
                {[ 36867%Z := Text "2023:01:15:10:20:30" ]}) as (_ & H & _).
    + apply (bool_decide_unpack _). vm_compute. exact I.
    + reflexivity.
    + vm_compute. reflexivity.
    + reflexivity.
    + rewrite (H (datetime.mk 2023 1 15 10 20 30)); vm_compute; reflexivity.
  - destruct (exif_date_resolution engine world_photos "d.jpg"
                (mkfile "d" (noon 2024 3 10)
                   (Exif {[ 36867%Z := Int 20230115; 306%Z := Text "2023-01-15" ]}))
                {[ 36867%Z := Int 20230115; 306%Z := Text "2023-01-15" ]})
      as (H & _).
    + apply (bool_decide_unpack _). vm_compute. exact I.
    + reflexivity.
    + vm_compute. reflexivity.
    + reflexivity.
    + rewrite H. vm_compute. reflexivity.
Defined.

(** A value that is no text ends the probe: the date in tag 306 is not
    looked at, and the photo is dated by its modification time. *)
Example number_ends_the_probe :
  probe_fields {[ 36867%Z := Int 20230115; 306%Z := Text "2023-01-15" ]}
    date_fields = Raise TypeError
  ∧ probe_fields {[ 306%Z := Text "2023-01-15" ]} date_fields
    = Ok (Some (datetime.mk 2023 1 15 0 0 0))
  ∧ source <$> to_option (get_file_date_info "d.jpg" (mkState engine world_photos)).1
    = Some "File modification time".
Proof. split_and!; vm_compute; reflexivity. Qed.

(** The separators 0x1c to 0x1f count as blanks for [strptime]. *)
Example separators_count_as_blanks :
  code_parse_value
    ("2023:01:15:" +:+ String (ascii_of_nat 31) "10:20:30")
  = Some (datetime.mk 2023 1 15 10 20 30).
Proof. vm_compute. reflexivity. Qed.

(** The canonical EXIF text [YYYY:MM:DD HH:MM:SS] does not survive the
    conversion: its third colon is the one between hours and minutes. *)
Lemma canonical_exif_text_is_not_parsed :
  convert_colons "2023:01:15 10:20:30" = "2023-01-15 10 20:30"
  ∧ code_parse_value "2023:01:15 10:20:30" = None
  ∧ spec_parse_value "2023:01:15 10:20:30" = None
  ∧ source <$> to_option (get_file_date_info "b.jpg" (mkState engine world_photos)).1
    = Some "File modification time".
Proof. split_and!; vm_compute; reflexivity. Qed.

Lemma undo_reverses_copy_witness :
  ∃ st2, undo_last_action (copy (mkState engine world_plain)).2 = (Ok true, st2)
         ∧ last_operation (self st2) = None
         ∧ fs (world st2) !! ["dst"; "2024-03-10"; "doc.txt"] = None
         ∧ fs (world st2) !! ["src"; "doc.txt"]
           = Some (plain "hello" (noon 2024 3 10)).
Proof.
  destruct (undo_reverses_copy (mkState engine world_plain)
              [doc_entry] [] (copy (mkState engine world_plain)).2)
    as (st2 & Hundo & Hlast & Hto & _ & _ & Hfrom & _).
  - vm_compute. reflexivity.
  - discriminate.
  - exists st2. split_and!; [done..| |].
    + destruct (Hto doc_entry) as (_ & _ & H); [left|exact H].
    + destruct (Hfrom doc_entry) as (_ & _ & _ & H); [left|].
      etrans; [exact H|]. vm_compute. reflexivity.
Defined.



(** ** The manifest of a move over regular files *)

Lemma children_NoDup fs p : NoDup (children fs p).
Proof.
  unfold children. generalize (NoDup_elements (dom fs)).
  induction (elements (dom fs)) as [|k l IH]; intros Hnd; [constructor|].
  apply NoDup_cons in Hnd as [Hk Hnd]. cbn.
  destruct (child_name p k) as [n|] eqn:E; [|by apply IH].
  apply NoDup_cons. split; [|by apply IH].
  intros (k' & Hk' & E')%list_elem_of_omap.
  apply child_name_Some in E, E'. by subst.
Qed.

Lemma listdir_NoDup fs p names : os.listdir fs p = Ok names → NoDup names.
Proof.
  unfold os.listdir. destruct (fs !! p) as [[]|]; intros H; simplify_eq.
  rewrite merge_sort_Permutation. apply children_NoDup.
Qed.

(** Moving a regular file to an unused path. *)
Lemma shutil_move_fresh now fs src q f fs' :
  fs !! src = Some (File f) → fs !! q = None →
  shutil.move now fs src q = Ok fs' →
  fs' = <[q := File f]> (delete src fs).
Proof.
  intros Hsrc Hq. unfold shutil.move, os.path.isdir. rewrite Hq. cbn.
  unfold shutil.rename_or_copy. rewrite Hsrc.
  rewrite decide_False by (intros ->; by rewrite Hq in Hsrc). rewrite Hq.
  destruct (os.check_parent fs q); cbn; by intros [= <-].
Qed.

Lemma move_loop_unique names done errors st :
  move_inv (target_folder_path (self st)) names done (fs (world st)) →
  ∃ done' errors' fs',
    for_ names (transfer_body shutil.move) (done, errors) st
      = (Ok (done', errors'), with_fs st fs')
    ∧ NoDup (to <$> done').
Proof.
  revert done errors st.
  induction names as [|name names IH];
    intros done errors st (Hnames & Hnd & Hdone & Hrest & Hcross).
  - exists done, errors, (fs (world st)). by rewrite with_fs_id.
  - apply NoDup_cons in Hnames as [Hname Hnames]. rewrite for_cons.
    set (target := target_folder_path (self st)) in *.
    destruct (transfer_body_spec shutil.move name done errors st)
      as (done1 & errors1 & fs1 & -> & Hcase).
    apply (IH done1 errors1 (with_fs st fs1)). cbn [with_fs self world fs].
    fold target.
    destruct Hcase as [[-> [[Hsub _] _]]|
      (info & fsm & q & _ & [[Hsub _] _] & _ & Hq & _ & Hmv & -> & ->)].
    + split_and!; [done..| | |].
      * intros e [x Hx]%Hdone. exists x. by eapply lookup_weaken.
      * intros n Hn. specialize (Hrest n (list_elem_of_further _ _ _ Hn)).
        destruct (fs (world st) !! _) as [[f|]|] eqn:E; try done.
        by rewrite (lookup_weaken _ _ _ _ E Hsub).
      * intros e n He Hn. apply Hcross; [done|by right].
    + fold target in Hmv.
      assert (∀ n, n ∈ name :: names →
                is_file (fsm !! os.path.join target n) = true) as Hrestm.
      { intros n Hn. specialize (Hrest n Hn).
        destruct (fs (world st) !! _) as [[f|]|] eqn:E; try done.
        by rewrite (lookup_weaken _ _ _ _ E Hsub). }
      assert (∀ e, e ∈ done → is_Some (fsm !! to e)) as Hdonem.
      { intros e [x Hx]%Hdone. exists x. by eapply lookup_weaken. }
      pose proof (Hrestm name (list_elem_of_here _ _)) as Hsrc.
      destruct (fsm !! os.path.join target name) as [[f|]|] eqn:Esrc; try done.
      apply (shutil_move_fresh _ _ _ _ f) in Hmv as ->; [|done..].
      assert (∀ p, is_Some (fsm !! p) → p ≠ os.path.join target name →
                <[q:=File f]> (delete (os.path.join target name) fsm) !! p
                = fsm !! p) as Hkeep.
      { intros p Hp Hne. rewrite lookup_insert_ne, lookup_delete_ne; [done..|].
        intros ->. rewrite Hq in Hp. by destruct Hp. }
      assert (∀ n, n ∈ names → q ≠ os.path.join target n) as Hqn.
      { intros n Hn Heq.
        specialize (Hrestm n (list_elem_of_further _ _ _ Hn)).
        by rewrite <-Heq, Hq in Hrestm. }
      split_and!; [done| | | |].
      * rewrite fmap_app. apply NoDup_app. split_and!; [done| |apply NoDup_singleton].
        intros p (e & -> & He)%list_elem_of_fmap Heq%list_elem_of_singleton.
        apply Hdonem in He. cbn in Heq. rewrite Heq, Hq in He. by destruct He.
      * intros e [He| ->%list_elem_of_singleton]%elem_of_app.
        -- rewrite Hkeep; [by apply Hdonem|by apply Hdonem|].
           apply Hcross; [done|left].
        -- cbn. rewrite lookup_insert_eq. eauto.
      * intros n Hn. rewrite Hkeep.
        -- apply Hrestm. by right.
        -- specialize (Hrestm n (list_elem_of_further _ _ _ Hn)).
           destruct (fsm !! os.path.join target n) as [x|]; [eauto|done].
        -- unfold os.path.join. intros [_ ->]%app_inj_tail. done.
      * intros e n [He| ->%list_elem_of_singleton]%elem_of_app Hn.
        -- apply Hcross; [done|by right].
        -- cbn. by apply Hqn.
Qed.

(** What does hold of C4 for [move]: when the source directory holds no
    subdirectory, the manifest of a move never repeats a destination. *)
Lemma move_destinations_unique_without_subdirectories st entries errors st' :
  (∀ n, is_dir (fs (world st) !! os.path.join (target_folder_path (self st)) n)
        = false) →
  move st = (Ok (entries, errors), st') →
  NoDup (to <$> entries).
Proof.
  intros Hnodir Hmove. pose proof (move_run st) as Hrun.
  destruct (os.listdir _ _) as [names|e] eqn:Els; [|by rewrite Hrun in Hmove].
  destruct Hrun as (entries' & errors' & fs' & Hloop & Hrun).
  rewrite Hrun in Hmove. injection Hmove as <- <- <-.
  destruct (move_loop_unique names [] [] st) as (d & er & f & Hloop' & Hnd).
  - split_and!.
    + by eapply listdir_NoDup.
    + constructor.
    + intros e He. by apply elem_of_nil in He.
    + intros n Hn. apply (elem_of_listdir _ _ _ n Els) in Hn as [node Hn].
      specialize (Hnodir n). unfold os.path.join in *. rewrite Hn in Hnodir |- *.
      by destruct node.
    + intros e n He. by apply elem_of_nil in He.
  - rewrite Hloop in Hloop'. by simplify_eq.
Qed.

(** ** Further scenarios *)

(** C3, the claim as stated fails: when the source directory is the
    destination root, the bucket that the undo removes is an entry of the
    source directory.  Here it was there before the copy, so the source
    directory after the undo differs from the one before the copy and from
    the one before the undo. *)
Lemma undo_copy_in_place_counterexample :
  let st := mkState engine_inplace world_inplace_bucket in
  let st1 := (copy st).2 in
  let st2 := (undo_last_action st1).2 in
  (file <$> (default ([], []) (to_option (copy st).1)).1) = ["doc.txt"]
  ∧ (undo_last_action st1).1 = Ok true
  ∧ os.listdir (fs (world st)) ["d"] = Ok ["2024-03-10"; "doc.txt"]
  ∧ os.listdir (fs (world st1)) ["d"] = Ok ["2024-03-10"; "doc.txt"]
  ∧ os.listdir (fs (world st2)) ["d"] = Ok ["doc.txt"].
Proof. cbv zeta. split_and!; vm_compute; reflexivity. Qed.

(** An exception in the undo path: the source directory has been removed,
    [shutil.move] raises, [undo_last_action] returns [False] and keeps the
    last operation. *)
Example undo_converts_exception :
  let st := mkState engine_moved world_source_gone in
  shutil.move today (fs (world st)) (to doc_entry) (from doc_entry)
    = Raise FileNotFoundError
  ∧ (undo_last_action st).1 = Ok false
  ∧ self (undo_last_action st).2 = self st
  ∧ is_Some (last_operation (self (undo_last_action st).2)).
Proof. cbv zeta. split_and!; vm_compute; eauto. Qed.

(** ** The retry, read the other way *)

Lemma match_alt_split alt s m r :
  datetime.match_alt alt s = Some (m, r) →
  s = m ++ r ∧ Forall (λ a, ∃ p, p ∈ alt ∧ p a = true) m.
Proof.
  revert s m r. induction alt as [|p alt IH]; intros s m r; cbn.
  - intros [= <- <-]. by split.
  - destruct s as [|a s]; [done|]. destruct (p a) eqn:Hp; [|done].
    destruct (datetime.match_alt alt s) as [[m' r']|] eqn:E; [|done].
    intros [= <- <-]. apply IH in E as [-> Hm]. split; [done|].
    constructor.
    + exists p. split; [left|done].
    + eapply Forall_impl; [done|]. intros a' (p' & ? & ?). exists p'.
      split; [by right|done].
Qed.

Lemma alternatives_reject_colon c :
  forallb (forallb (λ p : datetime.cls, negb (p ":"%char)))
    (datetime.alternatives c) = true.
Proof. destruct c as [[] [] [] [] [] [] [] []]; vm_compute; reflexivity. Qed.

Lemma alternatives_no_colon c alt p :
  alt ∈ datetime.alternatives c → p ∈ alt → p ":"%char = false.
Proof.
  intros Halt Hp. pose proof (alternatives_reject_colon c) as H.
  rewrite forallb_forall in H. apply list_elem_of_In, H in Halt.
  rewrite forallb_forall in Halt. apply list_elem_of_In, Halt in Hp.
  by apply negb_true_iff in Hp.
Qed.

Lemma leading_spaces_take k s :
  k ≤ datetime.leading_spaces s → ":"%char ∉ take k s.
Proof.
  revert s. induction k as [|k IH]; intros s Hk; [apply not_elem_of_nil|].
  destruct s as [|a s]; cbn in *; [lia|].
  destruct (datetime.is_whitespace a) eqn:Ha; [|lia].
  apply not_elem_of_cons. split; [by intros <-|]. apply IH. lia.
Qed.

(** What a match of a format without a literal colon consumes holds no
    colon. *)
Lemma match_items_no_colon its s acc f r :
  (∀ c, datetime.Literal c ∈ its → pystr.lower_char c ≠ ":"%char) →
  (f, r) ∈ datetime.match_items its s acc →
  ∃ m, s = m ++ r ∧ ":"%char ∉ m.
Proof.
  revert s acc. induction its as [|it its IH]; intros s acc Hlit; cbn.
  - intros [= <- <-]%list_elem_of_singleton. exists []. split; [done|].
    apply not_elem_of_nil.
  - assert (∀ c, datetime.Literal c ∈ its → pystr.lower_char c ≠ ":"%char) as Hlit'.
    { intros c Hc. apply Hlit. by right. }
    destruct it as [c| |c].
    + intros (alt & Halt & Hin)%list_elem_of_In%in_flat_map.
      apply list_elem_of_In in Halt, Hin.
      destruct (datetime.match_alt alt s) as [[m1 r1]|] eqn:E;
        [|by apply elem_of_nil in Hin].
      apply match_alt_split in E as [-> Hm1].
      apply IH in Hin as (m2 & -> & Hm2); [|done].
      exists (m1 ++ m2). split; [by rewrite app_assoc|].
      intros [Hc|Hc]%elem_of_app; [|done].
      rewrite Forall_forall in Hm1. destruct (Hm1 _ Hc) as (p & Hp & Hpc).
      by rewrite (alternatives_no_colon c alt p) in Hpc.
    + intros (k & Hk & Hin)%list_elem_of_In%in_flat_map.
      apply list_elem_of_In in Hk, Hin.
      apply elem_of_reverse, elem_of_seq in Hk.
      apply IH in Hin as (m2 & Hs & Hm2); [|done].
      exists (take k s ++ m2). split.
      * by rewrite <-app_assoc, <-Hs, take_drop.
      * intros [Hc|Hc]%elem_of_app; [|done].
        revert Hc. apply leading_spaces_take. lia.
    + destruct s as [|a s]; [by intros ?%elem_of_nil|].
      case_decide as Ha; [|by intros ?%elem_of_nil].
      intros (m2 & -> & Hm2)%IH; [|done].
      exists (a :: m2). split; [done|].
      apply not_elem_of_cons. split; [|done].
      intros <-. apply (Hlit c); [left|]. by rewrite <-Ha.
Qed.

Lemma contains_elem_of c s :
  pystr.contains c s = true → c ∈ String.list_ascii_of_string s.
Proof.
  induction s as [|a s IH]; cbn; [done|].
  case_decide as Ha; [subst; intros _; left|]. intros H. right. by apply IH.
Qed.

Lemma replace_without c d n s :
  pystr.contains c s = false → pystr.replace c d n s = s.
Proof.
  revert n. induction s as [|a s IH]; intros n H; [by destruct n|].
  cbn in H. case_decide as Ha; [done|]. destruct n; [done|]. cbn.
  rewrite decide_False by done. by rewrite IH.
Qed.

(** A text with a colon is matched by neither date-only format. *)
Lemma date_only_formats_reject_colon date_str fmt :
  fmt ∈ ["%Y-%m-%d"; "%Y/%m/%d"] →
  pystr.contains ":" date_str = true →
  datetime.strptime date_str fmt = Raise ValueError.
Proof.
  intros Hfmt Hc. apply contains_elem_of in Hc.
  unfold datetime.strptime.
  destruct (datetime.match_items _ _ _) as [|[f [|a r]] l] eqn:E; try done.
  exfalso.
  assert ((f, []) ∈ datetime.match_items
            (datetime.compile (String.list_ascii_of_string fmt))
            (String.list_ascii_of_string date_str) datetime.no_fields) as Hin
    by (rewrite E; left).
  apply match_items_no_colon in Hin as (m & Hm & Hnc).
  - rewrite app_nil_r in Hm. by rewrite Hm in Hc.
  - intros c Hlit.
    apply elem_of_cons in Hfmt as [->|Hfmt];
      [|apply list_elem_of_singleton in Hfmt as ->];
      vm_compute in Hlit;
      repeat (apply elem_of_cons in Hlit as [Hlit|Hlit];
              [first [discriminate Hlit|injection Hlit as ->; by vm_compute]|]);
      by apply elem_of_nil in Hlit.
Qed.

(** Read with the retry applied to the stored tag value, the procedure of
    the claim computes what the code computes: for a value with a colon
    the two date-only formats never match, so the retry is idle. *)
Lemma spec_parse_stored_value_code date_str :
  spec_parse_stored_value date_str = code_parse_value date_str.
Proof.
  unfold spec_parse_stored_value, code_parse_value, exif_formats, first_parse.
  destruct (pystr.contains ":" date_str) eqn:Hc.
  - cbn. rewrite (date_only_formats_reject_colon date_str "%Y-%m-%d");
      [|left|done].
    rewrite (date_only_formats_reject_colon date_str "%Y/%m/%d");
      [|right; left|done].
    cbn. by destruct (datetime.strptime _ _).
  - unfold convert_colons. rewrite (replace_without ":" "-" 2) by done.
    rewrite replace_without by done. cbn.
    by destruct (datetime.strptime date_str "%Y-%m-%d %H:%M:%S").
Qed.

(** * Further properties of the engine *)

(** ** The collision policy *)

(** X1.  The renaming loop always ends, and on a path that is not in use:
    the plain destination when that is free, and otherwise the numbered
    name [stem_k.ext] with the least [k >= 1] that is free.  Nothing is
    changed by the search. *)
Theorem unique_destination_first_unused folder_path file_name destination_path st :
  let stem := (os.path.splitext file_name).1 in
  let ext := (os.path.splitext file_name).2 in
  let numbered (k : nat) :=
    os.path.join folder_path (stem +:+ "_" +:+ pretty k +:+ ext) in
  ∃ q, unique_destination folder_path file_name destination_path st = (Ok q, st)
    ∧ fs (world st) !! q = None
    ∧ (fs (world st) !! destination_path = None → q = destination_path)
    ∧ (is_Some (fs (world st) !! destination_path) →
         ∃ k, 1 ≤ k ∧ q = numbered k
              ∧ ∀ j, 1 ≤ j < k → is_Some (fs (world st) !! numbered j)).
Proof.
  intros stem ext numbered.
  destruct (unique_destination_spec folder_path file_name destination_path st)
    as (q & Hrun & Hq & Hcase).
  exists q. split_and!; [done..| |].
  - intros Hfree. destruct Hcase as [->|[[x Hx] _]]; [done|congruence].
  - intros [x Hx]. destruct Hcase as [->|(_ & k & Hk & -> & Hbelow)];
      [congruence|].
    exists k. split_and!; [done..|]. apply Hbelow.
Qed.

(** ** One round of a batch loop, with its error *)

(** [transfer_body_spec] again, keeping track of the error list: a round
    that adds no manifest entry adds exactly one error message. *)
Lemma transfer_body_outcome transfer file_name done errors st :
  let s := self st in
  let source_path := os.path.join (target_folder_path s) file_name in
  ∃ done' errors' fs',
    transfer_body transfer file_name (done, errors) st
      = (Ok (done', errors'), with_fs st fs')
    ∧ ((done' = done ∧ (∃ err, errors' = errors ++ [err])
        ∧ (fs' = fs (world st)
           ∨ ∃ info,
               get_file_date_info file_name st = (Ok info, st)
               ∧ grows_toward
                   (os.path.join (destination_folder_path s) (date info))
                   (fs (world st)) fs'))
       ∨ (∃ info fsm q,
            let folder_path :=
              os.path.join (destination_folder_path s) (date info) in
            get_file_date_info file_name st = (Ok info, st)
            ∧ grows_toward folder_path (fs (world st)) fsm
            ∧ is_Some (fsm !! source_path)
            ∧ fsm !! q = None
            ∧ (q = os.path.join folder_path file_name
               ∨ (is_Some (fsm !! os.path.join folder_path file_name) ∧
                  ∃ k, 1 ≤ k
                    ∧ q = candidate folder_path (os.path.splitext file_name).1
                            (os.path.splitext file_name).2 k
                    ∧ ∀ j, 1 ≤ j < k →
                        is_Some (fsm !! candidate folder_path
                                   (os.path.splitext file_name).1
                                   (os.path.splitext file_name).2 j)))
            ∧ transfer (clock (world st)) fsm source_path q = Ok fs'
            ∧ done' = done ++ [{| file := file_name; from := source_path;
                                  to := q; date_folder := date info;
                                  date_source := source info |}]
            ∧ errors' = errors)).
Proof.
  intros s source_path.
  unfold transfer_body, try_except, try_except_if.
  unfold mbind at 1, M_bind at 1.
  rewrite (pure_run _ st (get_file_date_info_pure file_name)).
  destruct (get_file_date_info file_name st).1 as [info|e] eqn:Einfo; simpl.
  2:{ eexists _, _, _. rewrite with_fs_id. split; [done|]. left.
      split_and!; [done|eauto|by left]. }
  assert (get_file_date_info file_name st = (Ok info, st)) as Hinfo.
  { by rewrite (pure_run _ st (get_file_date_info_pure file_name)), Einfo. }
  unfold mbind, M_bind, get_self, os_path_exists, reads, mret, M_ret, writes.
  fold s. fold source_path.
  set (folder_path := os.path.join (destination_folder_path s) (date info)).
  destruct (ensure_folder folder_path st) as [[[]|e] st1] eqn:Efolder;
    apply ensure_folder_spec in Efolder as (fsm & -> & Hgrow);
    simpl.
  2:{ eexists _, _, _. split; [done|]. left. split_and!; eauto. }
  destruct (os.path.exists_ fsm source_path) eqn:Esrc; simpl.
  2:{ eexists _, _, _. split; [done|]. left. split_and!; eauto. }
  destruct (unique_destination_spec folder_path file_name
              (os.path.join folder_path file_name) (with_fs st fsm))
    as (q & -> & Hq & Hcase); simpl in *.
  destruct (transfer (clock (world st)) fsm source_path q) as [fs'|e] eqn:Etr;
    simpl.
  2:{ eexists _, _, _. split; [done|]. left. split_and!; eauto. }
  eexists _, _, fs'. split; [done|]. right.
  exists info, fsm, q. split_and!; try done. by apply exists_true.
Qed.

(** ** One entry or one error for every listed name *)

Lemma transfer_loop_accounts transfer names done errors st done' errors' st' :
  for_ names (transfer_body transfer) (done, errors) st
    = (Ok (done', errors'), st') →
  length done' + length errors' = length done + length errors + length names
  ∧ ∃ l, file <$> done' = (file <$> done) ++ l ∧ l `sublist_of` names.
Proof.
  revert done errors st. induction names as [|name names IH]; intros done errors st.
  - intros [= <- <- <-]. split; [cbn; lia|]. exists []. by rewrite app_nil_r.
  - rewrite for_cons.
    destruct (transfer_body_outcome transfer name done errors st)
      as (done1 & errors1 & fs1 & -> & Hcase).
    intros [Hlen (l & Hl & Hsub)]%IH.
    destruct Hcase as [(-> & [err ->] & _)|(info & fsm & q & _ & _ & _ & _ & _ & _ & -> & ->)].
    + split.
      * rewrite length_app in Hlen. cbn in *. lia.
      * exists l. split; [done|]. by apply sublist_cons.
    + split.
      * rewrite length_app in Hlen. cbn in *. lia.
      * exists (name :: l). split.
        -- rewrite Hl, fmap_app, <-app_assoc. done.
        -- by apply sublist_skip.
Qed.

(** X2.  A batch that returns has accounted for every name of the source
    directory exactly once.  When [move], or one of the two batch methods
    called by itself, returns a manifest and a list of errors, the source
    directory could be listed when the call began, the manifest and the
    error list together are as long as the listing, and the manifest
    names its files in the order of the listing. *)
Theorem batch_accounts_for_every_name st entries errors st' :
  move st = (Ok (entries, errors), st')
  ∨ move_files_to_destination_folder st = (Ok (entries, errors), st')
  ∨ copy_files_to_destination_folder st = (Ok (entries, errors), st') →
  ∃ names,
    os.listdir (fs (world st)) (target_folder_path (self st)) = Ok names
    ∧ length entries + length errors = length names
    ∧ file <$> entries `sublist_of` names.
Proof.
  intros Hrun.
  pose proof (move_run st) as Hmove.
  pose proof (batch_files_run shutil.move "move" st) as Hmoves.
  pose proof (batch_files_run shutil.copy "copy" st) as Hcopy.
  rewrite <-move_files_batch in Hmoves. rewrite <-copy_files_batch in Hcopy.
  destruct (os.listdir _ _) as [names|e].
  2:{ rewrite Hmove, Hmoves, Hcopy in Hrun. by destruct Hrun as [|[|]]. }
  exists names. split; [done|].
  destruct Hmove as (en1 & er1 & fs1 & Hloop1 & Hmove).
  destruct Hmoves as (en2 & er2 & fs2 & Hloop2 & Hmoves).
  destruct Hcopy as (en3 & er3 & fs3 & Hloop3 & Hcopy).
  rewrite Hmove, Hmoves, Hcopy in Hrun.
  apply transfer_loop_accounts in Hloop1 as [Hlen1 (l1 & Hl1 & Hsub1)].
  apply transfer_loop_accounts in Hloop2 as [Hlen2 (l2 & Hl2 & Hsub2)].
  apply transfer_loop_accounts in Hloop3 as [Hlen3 (l3 & Hl3 & Hsub3)].
  cbn in *. subst.
  destruct Hrun as [Hrun|[Hrun|Hrun]]; injection Hrun as <- <- _;
    (split; [lia|done]).
Qed.

Lemma batch_accounts_for_every_name_witness :
  ∃ entries errors names,
    (move (mkState engine world_subdir)).1 = Ok (entries, errors)
    ∧ os.listdir (fs world_subdir) ["src"] = Ok names
    ∧ length entries + length errors = length names
    ∧ length names = 2.
Proof.
  destruct (move (mkState engine world_subdir)) as [[[entries errors]|e] st'] eqn:E.
  - destruct (batch_accounts_for_every_name (mkState engine world_subdir)
                entries errors st') as (names & Hls & Hlen & _); [by left|].
    exists entries, errors, names. split_and!; [done..|].
    vm_compute in Hls. by injection Hls as <-.
  - vm_compute in E. discriminate E.
Defined.

(** ** Reading the date of one entry *)

(** X3.  The two date queries agree and fail alike: in every state
    [read_file_date_properties] raises what [get_file_date_info] raises,
    or returns the bucket name that [get_file_date_info] reports, and
    neither changes the engine or the filesystem.  In what
    [get_file_date_info] returns, the bucket name and the full timestamp
    are renderings of the reported date, and the date is either taken from
    the EXIF data or is the modification time of the entry, which then
    lies in the years 1 to 9999. *)
Theorem date_queries_agree file_name st :
  let file_path := os.path.join (target_folder_path (self st)) file_name in
  (get_file_date_info file_name st).2 = st
  ∧ read_file_date_properties file_name st
    = (match (get_file_date_info file_name st).1 with
       | Ok info => Ok (date info)
       | Raise e => Raise e
       end, st)
  ∧ ∀ info,
      (get_file_date_info file_name st).1 = Ok info →
      date info = datetime.strftime (original_date info) (format_date (self st))
      ∧ datetime_original info
        = datetime.strftime (original_date info) "%Y-%m-%d %H:%M:%S"
      ∧ (source info = "EXIF data"
         ∨ (source info = "File modification time"
            ∧ ∃ node, fs (world st) !! file_path = Some node
                      ∧ original_date info = node_mtime node
                      ∧ 1 ≤ datetime.year (node_mtime node) ≤ 9999)).
Proof.
  intros file_path.
  rewrite get_file_date_info_run, read_file_date_properties_run.
  fold file_path. unfold os.stat, resolved_date.
  destruct (fs (world st) !! file_path) as [node|]; cbn -[datetime.strftime].
  2:{ split_and!; [done| |by destruct (os.below_file _ _)].
      by destruct (os.below_file _ _). }
  destruct (exif_date_of (world st) file_path) as [d|]; cbn -[datetime.strftime].
  { split_and!; [done..|]. intros info [= <-]. cbn -[datetime.strftime].
    split_and!; [done..|by left]. }
  destruct (datetime.fromtimestamp (node_mtime node)) as [d|e] eqn:E;
    cbn -[datetime.strftime]; [|done].
  apply fromtimestamp_Ok in E as [-> Hyear].
  split_and!; [done..|]. intros info [= <-]. cbn -[datetime.strftime].
  split_and!; [done..|]. right. split; [done|]. by exists node.
Qed.

(** X4.  An entry without readable EXIF data is dated by its modification
    time.  Where the extension is not one of the image extensions
    (compared in lower case), or PIL cannot be imported, or the image has
    no EXIF block, [get_file_date_info] returns the date information of
    the modification time, or raises what [datetime.fromtimestamp] raises
    for a time out of range.  Where the entry holds no tag dictionary at
    all (a directory or an undecodable file included), the date
    information is that of the modification time whenever the query
    returns. *)
Theorem date_without_exif_is_mtime s w file_name node :
  let file_path := os.path.join (target_folder_path s) file_name in
  fs w !! file_path = Some node →
  (pystr.lower (os.path.splitext file_name).2 ∉ image_extensions
   ∨ pil_available w = false
   ∨ (∃ f, node = File f ∧ image f = NoExif) →
   get_file_date_info file_name (mkState s w)
   = (match datetime.fromtimestamp (node_mtime node) with
      | Ok d => Ok (info_of s "File modification time" d)
      | Raise e => Raise e
      end, mkState s w))
  ∧ ((∀ f exif_data, node = File f → image f ≠ Exif exif_data) →
     ∀ info st',
       get_file_date_info file_name (mkState s w) = (Ok info, st') →
       info = info_of s "File modification time" (node_mtime node)
       ∧ st' = mkState s w).
Proof.
  intros file_path Hnode.
  assert (pystr.lower (os.path.splitext file_name).2 ∉ image_extensions
          ∨ pil_available w = false
          ∨ (∀ f exif_data, node = File f → image f ≠ Exif exif_data) →
          get_file_date_info file_name (mkState s w)
          = (match datetime.fromtimestamp (node_mtime node) with
             | Ok d => Ok (info_of s "File modification time" d)
             | Raise e => Raise e
             end, mkState s w)) as Hrun.
  { intros Hcase. rewrite get_file_date_info_run. cbn [self world].
    fold file_path. unfold os.stat, resolved_date. rewrite Hnode. cbn.
    assert (exif_date_of w file_path = None) as ->.
    2:{ by destruct (datetime.fromtimestamp _). }
    unfold exif_date_of, file_path, os.path.basename, os.path.join.
    rewrite last_last.
    destruct Hcase as [Hext|[Hpil|Hnoexif]].
    - by rewrite bool_decide_false.
    - rewrite Hpil. by destruct (negb _).
    - destruct (negb _); [done|]. destruct (negb _); [done|].
      unfold PIL.getexif. fold (os.path.join (target_folder_path s) file_name).
      fold file_path. rewrite Hnode. destruct node as [f|m]; [|done].
      destruct (image f) as [| |tags] eqn:E; [done..|].
      by destruct (Hnoexif f tags). }
  split.
  - intros [Hext|[Hpil|(f & -> & Himage)]]; apply Hrun; [by left|by right; left|].
    right; right. intros f' exif_data [= <-]. by rewrite Himage.
  - intros Hnoexif info st'. rewrite Hrun by (by right; right).
    destruct (datetime.fromtimestamp _) as [d|e] eqn:E; [|done].
    apply fromtimestamp_Ok in E as [-> _]. by intros [= <- <-].
Qed.

Lemma date_without_exif_is_mtime_witness :
  (get_file_date_info "doc.txt" (mkState engine world_plain)).1
  = Ok {| date := "2024-03-10"; source := "File modification time";
          original_date := noon 2024 3 10;
          datetime_original := "2024-03-10 12:00:00" |}.
Proof.
  destruct (date_without_exif_is_mtime engine world_plain "doc.txt"
              (plain "hello" (noon 2024 3 10))) as [H _].
  - reflexivity.
  - rewrite H.
    + reflexivity.
    + left. vm_compute. intros H'.
      repeat (inversion H' as [|? ? ? H'']; clear H'; rename H'' into H').
Defined.

(** ** An invariant rule for the batch loops *)

Section transfer_loop.
Context (transfer : datetime.t → filesystem → pathname → pathname → result filesystem).
Context (st0 : State).
Context (I : list string → list file_info → filesystem → Prop).

(** A round that records an error at most creates directories on the way
  to a bucket. *)
Hypothesis I_skip : ∀ name rest done fs fs',
I (name :: rest) done fs →
fs' = fs
∨ (∃ info,
     get_file_date_info name (with_fs st0 fs) = (Ok info, with_fs st0 fs)
     ∧ grows_toward
         (os.path.join (destination_folder_path (self st0)) (date info)) fs fs') →
I rest done fs'.

(** A round that transfers the entry [name]. *)
Hypothesis I_transfer : ∀ name rest done fs info fsm q fs',
I (name :: rest) done fs →
get_file_date_info name (with_fs st0 fs) = (Ok info, with_fs st0 fs) →
grows_toward
  (os.path.join (destination_folder_path (self st0)) (date info)) fs fsm →
is_Some (fsm !! os.path.join (target_folder_path (self st0)) name) →
fsm !! q = None →
(q = os.path.join (os.path.join (destination_folder_path (self st0)) (date info)) name
 ∨ ∃ k, 1 ≤ k ∧
     q = candidate (os.path.join (destination_folder_path (self st0)) (date info))
           (os.path.splitext name).1 (os.path.splitext name).2 k) →
transfer (clock (world st0)) fsm
  (os.path.join (target_folder_path (self st0)) name) q = Ok fs' →
I rest
  (done ++ [{| file := name;
               from := os.path.join (target_folder_path (self st0)) name;
               to := q; date_folder := date info;
               date_source := source info |}])
  fs'.

Lemma transfer_loop_rule names done errors fsi :
I names done fsi →
∃ done' errors' fs',
  for_ names (transfer_body transfer) (done, errors) (with_fs st0 fsi)
    = (Ok (done', errors'), with_fs st0 fs')
  ∧ I [] done' fs'.
Proof.
revert done errors fsi.
induction names as [|name names IH]; intros done errors fsi HI.
- by exists done, errors, fsi.
- rewrite for_cons.
  destruct (transfer_body_outcome transfer name done errors (with_fs st0 fsi))
    as (done1 & errors1 & fs1 & -> & Hcase).
  rewrite with_fs_with_fs. cbn [with_fs self world fs clock] in Hcase.
  apply IH.
  destruct Hcase as [(-> & _ & Hgrow)|
    (info & fsm & q & Hinfo & Hgrow & Hsrc & Hq & Hform & Htr & -> & _)].
  + by eapply I_skip.
  + eapply I_transfer; try done.
    destruct Hform as [->|(_ & k & Hk & -> & _)]; [by left|right; eauto].
Qed.

End transfer_loop.

(** The date of an entry is read off its own node only. *)
Lemma get_file_date_info_local file_name st fs1 fs2 :
  is_Some (fs1 !! os.path.join (target_folder_path (self st)) file_name) →
  fs1 !! os.path.join (target_folder_path (self st)) file_name
  = fs2 !! os.path.join (target_folder_path (self st)) file_name →
  (get_file_date_info file_name (with_fs st fs1)).1
  = (get_file_date_info file_name (with_fs st fs2)).1.
Proof.
  intros [node Hnode] Heq. rewrite !get_file_date_info_run.
  cbn [with_fs self world fs fst].
  unfold os.stat, resolved_date, exif_date_of, PIL.getexif. cbn [fs pil_available].
  by rewrite <-Heq, Hnode.
Qed.

(** ** What [copy] leaves behind *)

Lemma copy_loop_data st0 fs0 names errors :
  (∀ n, n ∈ names →
     is_Some (fs0 !! os.path.join (target_folder_path (self st0)) n)) →
  ∃ done' errors' fs',
    for_ names (transfer_body shutil.copy) ([], errors) (with_fs st0 fs0)
      = (Ok (done', errors'), with_fs st0 fs')
    ∧ copy_inv (target_folder_path (self st0)) (destination_folder_path (self st0))
        fs0 done' fs'
    ∧ copy_data st0 fs0 done' fs'.
Proof.
  intros Hnames.
  set (target := target_folder_path (self st0)).
  set (dest := destination_folder_path (self st0)).
  destruct (transfer_loop_rule shutil.copy st0
    (λ rest done fs,
       (∀ n, n ∈ rest → is_Some (fs0 !! os.path.join target n))
       ∧ copy_inv target dest fs0 done fs
       ∧ copy_data st0 fs0 done fs)) with (names := names) (done := @nil file_info)
       (errors := errors) (fsi := fs0)
    as (done' & errors' & fs' & Hrun & _ & Hinv & Hdata).
  - intros name rest done fs fs' (Hrest & Hinv & Hdata) Hgrow.
    assert (grows_in dest fs fs') as Hgrow'.
    { destruct Hgrow as [->|(info & _ & Hgrow%grows_toward_in)]; done. }
    clear Hgrow. rename Hgrow' into Hgrow. split_and!.
    + intros n Hn. apply Hrest. by right.
    + by eapply copy_inv_grows.
    + intros e He. destruct (Hdata e He) as (f & info & H1 & H2 & H3).
      exists f, info. split_and!; try done; try apply H3.
      destruct Hgrow as [[Hsub _] _]. by eapply lookup_weaken.
  - intros name rest done fs info fsm q fs' (Hrest & Hinv & Hdata) Hinfo Hgrow
      Hsrc Hq Hform Hcp.
    apply grows_toward_in in Hgrow.
    fold target dest in Hgrow, Hsrc, Hform, Hcp |- *.
    apply shutil_copy_fresh in Hcp as (f & Hf & ->); [|done].
    pose proof (copy_inv_grows _ _ _ _ _ _ Hinv Hgrow) as Hinvm.
    destruct (Hrest name (list_elem_of_here _ _)) as [n0 Hn0].
    assert (fs0 !! os.path.join target name = Some (File f)) as Hf0.
    { destruct Hinvm as (Hsub & _).
      pose proof (lookup_weaken _ _ _ _ Hn0 Hsub) as Hn0'. congruence. }
    split_and!.
    + intros n Hn. apply Hrest. by right.
    + apply copy_inv_step; try done.
      destruct Hform as [->|(k & _ & ->)]; eauto.
    + intros e [He| ->%list_elem_of_singleton]%elem_of_app.
      * destruct (Hdata e He) as (g & info' & H1 & H2 & H3).
        exists g, info'. split_and!; try done; try apply H3.
        destruct Hgrow as [[Hsub _] _].
        rewrite lookup_insert_ne; [by eapply lookup_weaken|].
        intros ->. by rewrite (lookup_weaken _ _ _ _ H2 Hsub) in Hq.
      * exists f, info. cbn [from to file date_folder date_source].
        split_and!; try done.
        -- by rewrite lookup_insert_eq.
        -- rewrite (get_file_date_info_local name st0 fs0 fs), Hinfo;
             [done|by (fold target; eauto)|].
           fold target. destruct Hinv as (Hsub & _).
           by rewrite Hn0, (lookup_weaken _ _ _ _ Hn0 Hsub).
  - split_and!; [done|apply copy_inv_start|].
    intros e He. by apply elem_of_nil in He.
  - exists done', errors', fs'. by split_and!.
Qed.

(** [copy] as a whole, with the data of the manifest. *)
Lemma copy_run_data st entries errors st' :
  copy st = (Ok (entries, errors), st') →
  ∃ fsA fs1 names,
    grows_in (destination_folder_path (self st)) (fs (world st)) fsA
    ∧ os.listdir (fs (world st)) (target_folder_path (self st)) = Ok names
    ∧ copy_inv (target_folder_path (self st)) (destination_folder_path (self st))
        fsA entries fs1
    ∧ copy_data st fsA entries fs1
    ∧ NoDup (file <$> entries)
    ∧ st' = mkState (after_batch (self st) "copy" entries (clock (world st)))
                    (world (with_fs st fs1)).
Proof.
  unfold copy. rewrite run_bind.
  destruct (create_folder_with_date_run st) as (r & fsA & Hcreate & Hgrow).
  rewrite Hcreate. destruct r as [[]|e]; [|done].
  assert (∃ names, os.listdir (fs (world st)) (target_folder_path (self st))
                   = Ok names) as [names0 Hnames0].
  { revert Hcreate. unfold create_folder_with_date. rewrite run_bind.
    rewrite get_target_files_run. destruct (os.listdir _ _); [eauto|done]. }
  rewrite copy_files_batch.
  pose proof (batch_files_run shutil.copy "copy" (with_fs st fsA)) as Hrun.
  cbn [with_fs self world fs clock] in Hrun.
  destruct (os.listdir fsA (target_folder_path (self st))) as [names|e] eqn:Els.
  2:{ rewrite Hrun. done. }
  destruct Hrun as (entries' & errors' & fs1 & Hloop & ->).
  intros [= <- <- <-].
  destruct (copy_loop_data st fsA names []) as (d & er & f & Hloop' & Hinv & Hdata).
  { intros n Hn. by eapply elem_of_listdir. }
  rewrite Hloop in Hloop'. injection Hloop' as <- <- <-.
  exists fsA, fs1, names0. split_and!; try done.
  apply transfer_loop_accounts in Hloop as [_ (l & Hl & Hsub)]. cbn in Hl.
  rewrite Hl. eapply sublist_NoDup; [|done]. by eapply listdir_NoDup.
Qed.

(** Where [copy] may stop. *)
Lemma copy_final_fs st :
  ∃ fsA,
    grows_in (destination_folder_path (self st)) (fs (world st)) fsA
    ∧ ((∃ e, copy st = (Raise e, with_fs st fsA))
       ∨ (∃ entries errors fs1,
            copy_inv (target_folder_path (self st))
              (destination_folder_path (self st)) fsA entries fs1
            ∧ copy st
              = (Ok (entries, errors),
                 mkState (after_batch (self st) "copy" entries (clock (world st)))
                         (world (with_fs st fs1))))).
Proof.
  unfold copy. rewrite run_bind.
  destruct (create_folder_with_date_run st) as (r & fsA & -> & Hgrow).
  exists fsA. split; [done|]. destruct r as [[]|e]; [|left; eauto].
  rewrite copy_files_batch.
  pose proof (batch_files_run shutil.copy "copy" (with_fs st fsA)) as Hrun.
  cbn [with_fs self world fs clock] in Hrun.
  destruct (os.listdir fsA (target_folder_path (self st))) as [names|e] eqn:Els.
  2:{ left. eauto. }
  destruct Hrun as (entries & errors & fs1 & Hloop & ->).
  right. exists entries, errors, fs1. split; [|done].
  destruct (copy_loop_data st fsA names []) as (d & er & f & Hloop' & Hinv & _).
  { intros n Hn. by eapply elem_of_listdir. }
  rewrite Hloop in Hloop'. by injection Hloop' as <- <- <-.
Qed.

(** X5.  [copy] destroys nothing, however it ends (with a result or with
    an exception): every path keeps the node it had.  What is new is a
    directory on the way to a bucket [destination/<bucket>], or a regular
    file directly inside a bucket. *)
Theorem copy_only_adds st :
  let dest := destination_folder_path (self st) in
  let fs0 := fs (world st) in
  let fs1 := fs (world (copy st).2) in
  fs0 ⊆ fs1
  ∧ ∀ p, fs0 !! p = None → is_Some (fs1 !! p) →
      (is_dir (fs1 !! p) = true ∧ ∃ bucket, p `prefix_of` os.path.join dest bucket)
      ∨ (is_file (fs1 !! p) = true
         ∧ ∃ bucket n, p = os.path.join (os.path.join dest bucket) n).
Proof.
  intros dest fs0 fs1. subst fs1.
  destruct (copy_final_fs st) as (fsA & [[HsubA HfilesA] HnewA] & Hcase).
  fold dest fs0 in HsubA, HfilesA, HnewA.
  assert (∀ p, fs0 !! p = None → is_Some (fsA !! p) →
            is_dir (fsA !! p) = true
            ∧ ∃ bucket, p `prefix_of` os.path.join dest bucket) as HA.
  { intros p Hp [n Hn]. split; [|apply HnewA; eauto].
    rewrite Hn. destruct n as [f|m]; [|done].
    apply HfilesA in Hn. congruence. }
  destruct Hcase as [[e ->]|(entries & errors & fs1 & Hinv & ->)];
    cbn [snd world fs with_fs].
  - split; [done|]. intros p Hp Hn. left. by apply HA.
  - destruct Hinv as (Hsub & _ & Hdone & Hfiles & Hdirs). fold dest in Hdone, Hdirs.
    split; [by etrans|]. intros p Hp [n Hn].
    destruct (fsA !! p) as [nA|] eqn:EA.
    { left. rewrite (lookup_weaken _ _ _ _ EA Hsub).
      rewrite <-EA. apply HA; [done|]. by rewrite EA. }
    destruct n as [f|m].
    + right. rewrite Hn. split; [done|].
      destruct (Hfiles p f Hn) as [?|(e & -> & He)%list_elem_of_fmap];
        [congruence|].
      destruct (Hdone e He) as (_ & _ & _ & _ & n & ->). eauto.
    + left. rewrite Hn. split; [done|]. apply Hdirs; [done|by rewrite Hn].
Qed.

(** X6.  Every manifest entry of a [copy] is a faithful record.  Its
    source is the entry [file] of the source directory, a regular file
    that is still there unchanged; its destination was not in use before
    the call and now holds a file with the same content and image data,
    stamped with the time of the copy; the bucket is named after the date
    that [get_file_date_info] reports for the file before the call; and
    the name inside the bucket is the file's own or a numbered one. *)
Theorem copy_manifest_is_faithful st entries errors st' :
  copy st = (Ok (entries, errors), st') →
  let target := target_folder_path (self st) in
  let dest := destination_folder_path (self st) in
  ∀ e, e ∈ entries →
    ∃ f info,
      from e = os.path.join target (file e)
      ∧ fs (world st) !! from e = Some (File f)
      ∧ fs (world st') !! from e = Some (File f)
      ∧ fs (world st) !! to e = None
      ∧ fs (world st') !! to e
        = Some (File (mkfile (content f) (clock (world st)) (image f)))
      ∧ get_file_date_info (file e) st = (Ok info, st)
      ∧ date_folder e = date info
      ∧ date_source e = source info
      ∧ (to e = os.path.join (os.path.join dest (date info)) (file e)
         ∨ ∃ k, 1 ≤ k ∧
             to e = os.path.join (os.path.join dest (date info))
                      ((os.path.splitext (file e)).1 +:+ "_" +:+ pretty k
                       +:+ (os.path.splitext (file e)).2)).
Proof.
  intros Hcopy target dest e He.
  apply copy_run_data in Hcopy
    as (fsA & fs1 & names & [[HsubA HfilesA] _] & _ & Hinv & Hdata & _ & ->).
  cbn [world with_fs fs].
  destruct (Hdata e He) as (f & info & Hfrom & Hto & Hinfo & Hdate & Hsource & Hform).
  destruct Hinv as (Hsub & _ & Hdone & _).
  destruct (Hdone e He) as (HtoA & _ & _ & Hfrome & _).
  pose proof (HfilesA _ _ Hfrom) as Hfrom0.
  exists f, info. split_and!; try done.
  - exact (lookup_weaken _ _ _ _ Hfrom Hsub).
  - exact (lookup_weaken_None _ _ _ HtoA HsubA).
  - rewrite (pure_run _ st (get_file_date_info_pure (file e))). f_equal.
    rewrite <-Hinfo, <-(with_fs_id st) at 1.
    apply get_file_date_info_local; rewrite <-Hfrome; [eauto|congruence].
Qed.

Lemma copy_manifest_is_faithful_witness :
  ∃ f, fs (world (copy (mkState engine world_plain)).2) !! to doc_entry
       = Some (File (mkfile (content f) today (image f)))
       ∧ fs world_plain !! from doc_entry = Some (File f).
Proof.
  destruct (copy_manifest_is_faithful (mkState engine world_plain)
              [doc_entry] [] (copy (mkState engine world_plain)).2)
    with (e := doc_entry) as (f & info & _ & Hfrom & _ & _ & Hto & _).
  - vm_compute. reflexivity.
  - left.
  - exists f. split; [exact Hto|exact Hfrom].
Defined.

(** X7.  [copy] never copies more entries than the file count announces:
    every manifest entry is a different regular file of the source
    directory, so the manifest is no longer than the number that
    [get_target_folder_files_count] returns before the call. *)
Theorem copy_manifest_within_file_count st entries errors st' :
  copy st = (Ok (entries, errors), st') →
  ∃ count, get_target_folder_files_count st = (Ok count, st)
           ∧ length entries ≤ count
           ∧ NoDup (file <$> entries).
Proof.
  intros Hcopy.
  apply copy_run_data in Hcopy
    as (fsA & fs1 & names & [[HsubA HfilesA] _] & Hnames & Hinv & Hdata & Hnd & ->).
  unfold get_target_folder_files_count.
  unfold mbind, M_bind, get_self, get_world, reads, mret, M_ret. rewrite Hnames.
  eexists. split_and!; [done| |done].
  rewrite <-(length_fmap file). apply submseteq_length, NoDup_submseteq; [done|].
  intros n (e & -> & He)%list_elem_of_fmap.
  destruct Hinv as (_ & _ & Hdone & _).
  destruct (Hdone e He) as (_ & _ & Hfile & Hfrom & _).
  assert (is_file (fs (world st) !! os.path.join (target_folder_path (self st)) (file e))
          = true) as Hfile0.
  { rewrite <-Hfrom. destruct (fsA !! from e) as [[f|]|] eqn:E; try done.
    by rewrite (HfilesA _ _ E). }
  apply list_elem_of_filter. split; [done|].
  apply (elem_of_listdir _ _ _ _ Hnames).
  unfold os.path.join in Hfile0. by destruct (fs (world st) !! _).
Qed.

Lemma copy_manifest_within_file_count_witness :
  ∃ count, get_target_folder_files_count (mkState engine world_subdir)
           = (Ok count, mkState engine world_subdir)
           ∧ 1 ≤ count.
Proof.
  destruct (copy_manifest_within_file_count (mkState engine world_subdir)
              [doc_entry] ["Error processing file 'sub': Is a directory"]
              (copy (mkState engine world_subdir)).2)
    as (count & Hcount & Hle & _).
  - vm_compute. reflexivity.
  - exists count. split; [exact Hcount|exact Hle].
Defined.

(** ** The buckets made ahead of a copy *)

Lemma makedirs_Ok_exists now fs p fs' :
  os.makedirs now fs p = Ok fs' → fs' !! p = Some (Dir now).
Proof.
  unfold os.makedirs. rewrite <-(reverse_involutive p) at 2.
  destruct (reverse p) as [|tail rhead]; cbn [os.makedirs_rev].
  - intros [_ ->]%mkdir_Ok. by rewrite lookup_insert_eq.
  - destruct (if _ : bool then _ else _) as [fs''|e]; [|done]. cbn.
    intros [_ ->]%mkdir_Ok. by rewrite lookup_insert_eq.
Qed.

Lemma ensure_folder_Ok folder_path st st' :
  ensure_folder folder_path st = (Ok (), st') →
  is_Some (fs (world st') !! folder_path).
Proof.
  unfold ensure_folder, os_path_exists, reads, writes, mbind, M_bind, mret, M_ret.
  destruct (os.path.exists_ _ _) eqn:Eex; cbn [negb].
  - intros [= <-]. by apply exists_true.
  - destruct (os.makedirs _ _ _) as [fs'|e] eqn:E; intros [= <-].
    cbn. rewrite (makedirs_Ok_exists _ _ _ _ E). eauto.
Qed.

Lemma create_folder_loop st fs0 names fsi st' :
  fs0 ⊆ fsi →
  (∀ n, n ∈ names →
     is_Some (fs0 !! os.path.join (target_folder_path (self st)) n)) →
  for_ names create_folder_body () (with_fs st fsi) = (Ok (), st') →
  ∃ fs', st' = with_fs st fs' ∧ fsi ⊆ fs'
    ∧ ∀ n, n ∈ names →
        ∃ info, (get_file_date_info n (with_fs st fs0)).1 = Ok info
                ∧ is_Some (fs' !! os.path.join (destination_folder_path (self st))
                                    (date info)).
Proof.
  revert fsi. induction names as [|name names IH]; intros fsi Hsub Hnames.
  - intros [= <-]. exists fsi. split_and!; [done..|].
    intros n Hn. by apply elem_of_nil in Hn.
  - rewrite for_cons.
    destruct (create_folder_body name () (with_fs st fsi)) as [[[]|e] st1] eqn:Ebody;
      [|done].
    pose proof Ebody as Hbody.
    apply create_folder_body_run in Ebody as (fs1 & -> & [[Hsub1 _] _]).
    cbn [with_fs world fs] in Hsub1. rewrite with_fs_with_fs in *.
    intros (fs' & -> & Hsub' & Hbuckets)%IH; first last.
    { intros n Hn. apply Hnames. by right. }
    { by etrans. }
    exists fs'. split_and!; [done|by etrans|].
    intros n [->|Hn]%elem_of_cons; [|by apply Hbuckets].
    revert Hbody. unfold create_folder_body. rewrite run_bind.
    rewrite read_file_date_properties_run.
    cbn [with_fs self world fs pil_available].
    destruct (Hnames name (list_elem_of_here _ _)) as [node Hnode].
    pose proof (lookup_weaken _ _ _ _ Hnode Hsub) as Hnodei.
    unfold os.stat. rewrite Hnodei. cbn [mbind result_bind].
    assert (resolved_date (mkWorld fsi (clock (world st)) (pil_available (world st)))
              (os.path.join (target_folder_path (self st)) name)
              {| os.st_mtime := node_mtime node |}
            = resolved_date (mkWorld fs0 (clock (world st)) (pil_available (world st)))
                (os.path.join (target_folder_path (self st)) name)
                {| os.st_mtime := node_mtime node |}) as Heq.
    { unfold resolved_date, exif_date_of, PIL.getexif. cbn. by rewrite Hnode, Hnodei. }
    rewrite Heq.
    match goal with
    | |- context [resolved_date ?w ?p ?stats ≫= _] =>
        destruct (resolved_date w p stats) as [d|e] eqn:Ed
    end; cbn [mbind result_bind]; [|done].
    rewrite run_bind. cbn [get_self].
    intros Hfolder%ensure_folder_Ok. cbn in Hfolder.
    rewrite get_file_date_info_run. cbn [with_fs self world fs].
    unfold os.stat. rewrite Hnode. cbn [mbind result_bind]. rewrite Ed.
    cbn [mbind result_bind fst]. eexists. split; [done|]. cbn [date].
    destruct Hfolder as [x Hx].
    exists x. by apply (lookup_weaken _ _ _ _ Hx Hsub').
Qed.

(** X8.  When [create_folder_with_date] returns, the bucket of every
    regular file of the source directory exists: for each listed name
    that is a regular file, [get_file_date_info] returns a date for it and
    the path [destination/<date>] exists.  The engine object is as before,
    the regular files are those from before, with what they held, and
    every directory is still a directory. *)
Theorem create_folder_with_date_makes_buckets st st' :
  create_folder_with_date st = (Ok (), st') →
  self st' = self st
  ∧ (∀ p f, fs (world st') !! p = Some (File f) ↔
            fs (world st) !! p = Some (File f))
  ∧ (∀ p, is_dir (fs (world st) !! p) = true →
          is_dir (fs (world st') !! p) = true)
  ∧ ∃ names,
      os.listdir (fs (world st)) (target_folder_path (self st)) = Ok names
      ∧ ∀ n f, n ∈ names →
          fs (world st) !! os.path.join (target_folder_path (self st)) n
          = Some (File f) →
          ∃ info, get_file_date_info n st = (Ok info, st)
                  ∧ is_Some (fs (world st')
                               !! os.path.join (destination_folder_path (self st))
                                    (date info)).
Proof.
  intros Hrun.
  destruct (create_folder_with_date_run st) as (r & fsA & Hrun' & [[Hsub Hfiles] _]).
  rewrite Hrun in Hrun'. injection Hrun' as <- ->. cbn [with_fs self world fs].
  split_and!; [done| | |].
  { intros p f. split; [apply Hfiles|]. intros Hp.
    exact (lookup_weaken _ _ _ _ Hp Hsub). }
  { intros p Hp. destruct (fs (world st) !! p) as [[|m]|] eqn:E; try done.
    by rewrite (lookup_weaken _ _ _ _ E Hsub). }
  revert Hrun. unfold create_folder_with_date. rewrite run_bind, get_target_files_run.
  destruct (os.listdir _ _) as [names|e] eqn:Els; [|done].
  rewrite <-(with_fs_id st) at 1.
  intros (fs' & Heq & _ & Hbuckets)%(create_folder_loop st (fs (world st))).
  - exists names. split; [done|]. intros n f Hn _.
    destruct (Hbuckets n Hn) as (info & Hinfo & Hb). exists info.
    rewrite with_fs_id in Hinfo.
    rewrite (pure_run _ st (get_file_date_info_pure n)), Hinfo.
    split; [done|]. injection Heq as ->. done.
  - done.
  - intros n Hn. by eapply elem_of_listdir.
Qed.

Lemma create_folder_with_date_makes_buckets_witness :
  is_Some (fs (world (create_folder_with_date (mkState engine world_plain)).2)
             !! ["dst"; "2024-03-10"]).
Proof.
  destruct (create_folder_with_date_makes_buckets (mkState engine world_plain)
              (create_folder_with_date (mkState engine world_plain)).2)
    as (_ & _ & _ & names & Hnames & Hbuckets).
  - vm_compute. reflexivity.
  - destruct (Hbuckets "doc.txt" (mkfile "hello" (noon 2024 3 10) NotAnImage))
      as (info & Hinfo & Hb).
    + vm_compute in Hnames. injection Hnames as <-. left.
    + vm_compute. reflexivity.
    + vm_compute in Hinfo. injection Hinfo as <-. exact Hb.
Defined.

(** ** What [move] leaves behind *)

Lemma move_data_grows st0 fs0 name rest done fs fs' :
  move_data st0 fs0 (name :: rest) done fs → fs ⊆ fs' →
  move_data st0 fs0 (name :: rest) done fs'.
Proof.
  intros (Hnd & Hrest & Hto & Hcross & Hdone) Hsub. split_and!; try done.
  - intros n Hn. destruct (Hrest n Hn) as (f & H0 & H1). exists f.
    split; [done|]. by eapply lookup_weaken.
  - intros e He. destruct (Hdone e He) as (f & info & H1 & H2 & H3 & H4).
    exists f, info. split_and!; try done; try apply H4. by eapply lookup_weaken.
Qed.

Lemma move_data_step st0 fs0 name rest done fsm info q fs' :
  move_data st0 fs0 (name :: rest) done fsm →
  (get_file_date_info name (with_fs st0 fs0)).1 = Ok info →
  fsm !! q = None →
  (q = os.path.join (os.path.join (destination_folder_path (self st0)) (date info)) name
   ∨ ∃ k, 1 ≤ k ∧
       q = candidate (os.path.join (destination_folder_path (self st0)) (date info))
             (os.path.splitext name).1 (os.path.splitext name).2 k) →
  shutil.move (clock (world st0)) fsm
    (os.path.join (target_folder_path (self st0)) name) q = Ok fs' →
  ∃ f, fsm !! os.path.join (target_folder_path (self st0)) name = Some (File f)
    ∧ fs' = <[q := File f]>
              (delete (os.path.join (target_folder_path (self st0)) name) fsm)
    ∧ move_data st0 fs0 rest
        (done ++ [{| file := name;
                     from := os.path.join (target_folder_path (self st0)) name;
                     to := q; date_folder := date info;
                     date_source := source info |}])
        fs'.
Proof.
  set (target := target_folder_path (self st0)).
  intros (Hnd & Hrest & Hto & Hcross & Hdone) Hinfo Hq Hform Hmv.
  apply NoDup_cons in Hnd as [Hname Hnd].
  destruct (Hrest name (list_elem_of_here _ _)) as (f & Hf0 & Hf).
  apply (shutil_move_fresh _ _ _ _ f) in Hmv as ->; [|done..].
  exists f. split_and!; [done..|]. split_and!; [done| | | |].
  - intros n Hn. destruct (Hrest n (list_elem_of_further _ _ _ Hn)) as (g & Hg0 & Hg).
    exists g. split; [done|].
    rewrite lookup_insert_ne, lookup_delete_ne; [done| |].
    + unfold os.path.join. intros [_ ->]%app_inj_tail. done.
    + intros ->. congruence.
  - rewrite fmap_app. apply NoDup_app. split_and!; [done| |apply NoDup_singleton].
    intros p (e & -> & He)%list_elem_of_fmap Heq%list_elem_of_singleton.
    destruct (Hdone e He) as (g & info' & _ & _ & Hg & _). cbn in Heq. congruence.
  - intros e n [He| ->%list_elem_of_singleton]%elem_of_app Hn.
    + apply Hcross; [done|by right].
    + cbn. split; [|by intros ->].
      intros ->. destruct (Hrest n (list_elem_of_further _ _ _ Hn)) as (g & _ & Hg).
      congruence.
  - intros e [He| ->%list_elem_of_singleton]%elem_of_app.
    + destruct (Hdone e He) as (g & info' & H1 & H2 & H3 & H4).
      exists g, info'. split_and!; try done; try apply H4.
      rewrite lookup_insert_ne, lookup_delete_ne; [done| |].
      * intros Heq. by destruct (Hcross e name He (list_elem_of_here _ _)).
      * intros ->. congruence.
    + exists f, info. cbn. split_and!; try done. by rewrite lookup_insert_eq.
Qed.

Lemma move_loop_data st0 fs0 names errors :
  NoDup names →
  (∀ n, n ∈ names →
     is_file (fs0 !! os.path.join (target_folder_path (self st0)) n) = true) →
  ∃ done' errors' fs',
    for_ names (transfer_body shutil.move) ([], errors) (with_fs st0 fs0)
      = (Ok (done', errors'), with_fs st0 fs')
    ∧ move_data st0 fs0 [] done' fs'.
Proof.
  intros Hnd Hfiles.
  apply (transfer_loop_rule shutil.move st0 (move_data st0 fs0)).
  - intros name rest done fs fs' Hinv Hgrow.
    assert (fs ⊆ fs') as Hsub.
    { destruct Hgrow as [->|(info & _ & [[Hsub _] _])]; done. }
    apply (move_data_grows _ _ _ _ _ _ _ Hinv) in Hsub
      as (Hnd' & Hrest & Hto & Hcross & Hdone).
    apply NoDup_cons in Hnd' as [_ Hnd']. split_and!; try done.
    + intros n Hn. apply Hrest. by right.
    + intros e n He Hn. apply Hcross; [done|by right].
  - intros name rest done fs info fsm q fs' Hinv Hinfo [[Hsub _] _] Hsrc Hq Hform Hmv.
    pose proof (move_data_grows _ _ _ _ _ _ _ Hinv Hsub) as Hinvm.
    destruct (move_data_step st0 fs0 name rest done fsm info q fs')
      as (f & _ & _ & Hstep); try done.
    destruct Hinv as (_ & Hrest & _).
    destruct (Hrest name (list_elem_of_here _ _)) as (f & Hf0 & Hf).
    rewrite (get_file_date_info_local name st0 fs0 fs), Hinfo; [done|eauto|].
    congruence.
  - split_and!; [done| |constructor| |].
    + intros n Hn. specialize (Hfiles n Hn).
      destruct (fs0 !! _) as [[f|]|]; try done. eauto.
    + intros e n He. by apply elem_of_nil in He.
    + intros e He. by apply elem_of_nil in He.
Qed.

(** A directory holds no subdirectory when none of its entries is one. *)
Lemma no_subdirectory_check fs p :
  forallb (λ n, negb (is_dir (fs !! os.path.join p n))) (children fs p) = true →
  ∀ n, is_dir (fs !! os.path.join p n) = false.
Proof.
  intros Hall n. destruct (fs !! os.path.join p n) as [node|] eqn:E; [|done].
  rewrite forallb_forall in Hall. specialize (Hall n).
  rewrite E in Hall. apply negb_true_iff, Hall, list_elem_of_In, elem_of_children.
  unfold os.path.join in E. eauto.
Qed.

(** X9.  Over a source directory without subdirectories every manifest
    entry of a [move] is a faithful record: the entries are different
    files of the source directory, no destination is used twice, and each
    destination holds exactly the file that was at the source before the
    call, its modification time and image data included; the bucket is
    named after the date that [get_file_date_info] reported for the file
    before the call. *)
Theorem move_manifest_is_faithful st entries errors st' :
  (∀ n, is_dir (fs (world st) !! os.path.join (target_folder_path (self st)) n)
        = false) →
  move st = (Ok (entries, errors), st') →
  let target := target_folder_path (self st) in
  let dest := destination_folder_path (self st) in
  NoDup (to <$> entries)
  ∧ NoDup (file <$> entries)
  ∧ ∀ e, e ∈ entries →
      ∃ f info,
        from e = os.path.join target (file e)
        ∧ fs (world st) !! from e = Some (File f)
        ∧ fs (world st') !! to e = Some (File f)
        ∧ get_file_date_info (file e) st = (Ok info, st)
        ∧ date_folder e = date info
        ∧ date_source e = source info
        ∧ (to e = os.path.join (os.path.join dest (date info)) (file e)
           ∨ ∃ k, 1 ≤ k ∧
               to e = os.path.join (os.path.join dest (date info))
                        ((os.path.splitext (file e)).1 +:+ "_" +:+ pretty k
                         +:+ (os.path.splitext (file e)).2)).
Proof.
  intros Hnodir Hmove target dest. pose proof (move_run st) as Hrun.
  destruct (os.listdir _ _) as [names|e] eqn:Els; [|by rewrite Hrun in Hmove].
  destruct Hrun as (entries' & errors' & fs' & Hloop & Hrun).
  rewrite Hrun in Hmove. injection Hmove as <- <- <-.
  destruct (move_loop_data st (fs (world st)) names [])
    as (d & er & f & Hloop' & _ & _ & Hto & _ & Hdone).
  { by eapply listdir_NoDup. }
  { intros n Hn. apply (elem_of_listdir _ _ _ n Els) in Hn as [node Hn].
    specialize (Hnodir n). unfold os.path.join in *. rewrite Hn in Hnodir |- *.
    by destruct node. }
  rewrite with_fs_id, Hloop in Hloop'. injection Hloop' as <- <- <-.
  cbn [world with_fs fs]. split_and!; [done| |].
  - apply transfer_loop_accounts in Hloop as [_ (l & Hl & Hsub)]. cbn in Hl.
    rewrite Hl. eapply sublist_NoDup; [|done]. by eapply listdir_NoDup.
  - intros e He. destruct (Hdone e He) as (g & info & H1 & H2 & H3 & H4 & H5).
    exists g, info. split_and!; try done; try apply H5.
    rewrite with_fs_id in H4.
    by rewrite (pure_run _ st (get_file_date_info_pure (file e))), H4.
Qed.

Lemma move_manifest_is_faithful_witness :
  fs (world (move (mkState engine world_plain)).2) !! to doc_entry
  = Some (plain "hello" (noon 2024 3 10)).
Proof.
  destruct (move_manifest_is_faithful (mkState engine world_plain)
              [doc_entry] [] (move (mkState engine world_plain)).2)
    as (_ & _ & Hentries).
  - apply no_subdirectory_check. vm_compute. reflexivity.
  - vm_compute. reflexivity.
  - destruct (Hentries doc_entry) as (f & info & _ & Hfrom & Hto & _); [left|].
    rewrite Hto, <-Hfrom. vm_compute. reflexivity.
Defined.

(** ** Moving and moving back *)

Section move_frame.
Context (st0 : State) (fs0 : filesystem).

(** No entry of the source directory lies on the way to a bucket, and the
  source directory is not itself a bucket. *)
Hypothesis Hway : ∀ n n' info,
is_Some (fs0 !! os.path.join (target_folder_path (self st0)) n) →
(get_file_date_info n' (with_fs st0 fs0)).1 = Ok info →
¬ os.path.join (target_folder_path (self st0)) n
    `prefix_of` os.path.join (destination_folder_path (self st0)) (date info).
Hypothesis Hbucket : ∀ n' info,
(get_file_date_info n' (with_fs st0 fs0)).1 = Ok info →
target_folder_path (self st0)
≠ os.path.join (destination_folder_path (self st0)) (date info).

Lemma move_frame_grows name rest done fsi info fs' :
move_data st0 fs0 (name :: rest) done fsi →
move_frame fs0 done fsi →
(get_file_date_info name (with_fs st0 fs0)).1 = Ok info →
grows_toward (os.path.join (destination_folder_path (self st0)) (date info))
  fsi fs' →
move_frame fs0 done fs'.
Proof.
intros (_ & _ & _ & _ & Hdone) [Hvac Hframe] Hinfo [[Hsub Hfiles] Hnew]. split.
- intros e He. destruct (Hvac e He) as [Hfrom Hto]. split; [|done].
  destruct (fs' !! from e) as [x|] eqn:E; [|done]. exfalso.
  destruct (Hdone e He) as (f & _ & Hfrome & Hf0 & _).
  apply (Hway (file e) name info); [rewrite <-Hfrome; eauto|done|].
  rewrite <-Hfrome. apply Hnew; [done|]. by rewrite E.
- intros p Hp1 Hp2. destruct (fsi !! p) as [x|] eqn:E.
  + rewrite (lookup_weaken _ _ _ _ E Hsub).
    destruct (Hframe p Hp1 Hp2) as [<-|[H0 Hd]]; [by left|right].
    split; [done|]. by rewrite E in Hd.
  + destruct (Hframe p Hp1 Hp2) as [H0|[_ Hd]]; [|by rewrite E in Hd].
    rewrite E in H0. destruct (fs' !! p) as [[f|m]|] eqn:E'.
    * apply Hfiles in E'. congruence.
    * by right.
    * by left.
Qed.

Lemma move_frame_step name rest done fsm info q f :
move_data st0 fs0 (name :: rest) done fsm →
move_frame fs0 done fsm →
(get_file_date_info name (with_fs st0 fs0)).1 = Ok info →
fsm !! q = None →
(∃ n, q = os.path.join
            (os.path.join (destination_folder_path (self st0)) (date info)) n) →
move_frame fs0
  (done ++ [{| file := name;
               from := os.path.join (target_folder_path (self st0)) name;
               to := q; date_folder := date info;
               date_source := source info |}])
  (<[q := File f]>
     (delete (os.path.join (target_folder_path (self st0)) name) fsm)).
Proof.
set (target := target_folder_path (self st0)).
intros (_ & Hrest & _ & _ & Hdone) [Hvac Hframe] Hinfo Hq [nq Hform].
destruct (Hrest name (list_elem_of_here _ _)) as (g & Hg0 & Hg).
assert (∀ n, q ≠ os.path.join target n) as Hqn.
{ intros n. rewrite Hform. unfold os.path.join at 1 3.
  intros [Heq _]%app_inj_tail. by eapply Hbucket. }
assert (q ∉ from <$> done) as Hq1.
{ intros (e & -> & He)%list_elem_of_fmap.
  destruct (Hdone e He) as (? & ? & Hfrome & _). by eapply Hqn. }
assert (q ∉ to <$> done) as Hq2.
{ intros (e & -> & He)%list_elem_of_fmap.
  destruct (Hdone e He) as (? & ? & _ & _ & Hto & _). congruence. }
split.
- intros e [He| ->%list_elem_of_singleton]%elem_of_app.
  + destruct (Hvac e He) as [Hfrom Hto]. split; [|done].
    rewrite lookup_insert_ne.
    * destruct (decide (os.path.join target name = from e)) as [<-|?];
        [by rewrite lookup_delete_eq|by rewrite lookup_delete_ne].
    * intros ->. apply Hq1, list_elem_of_fmap. eauto.
  + cbn. split.
    * rewrite lookup_insert_ne by apply Hqn. by rewrite lookup_delete_eq.
    * destruct (Hframe q Hq1 Hq2) as [<-|[? _]]; done.
- intros p Hp1 Hp2. rewrite fmap_app in Hp1, Hp2.
  apply not_elem_of_app in Hp1 as [Hp1 Hp1'%not_elem_of_cons],
    Hp2 as [Hp2 Hp2'%not_elem_of_cons].
  cbn in Hp1', Hp2'. destruct Hp1' as [Hp1' _], Hp2' as [Hp2' _].
  rewrite lookup_insert_ne, lookup_delete_ne by done. by apply Hframe.
Qed.

Lemma move_loop_frame names errors :
NoDup names →
(∀ n, n ∈ names →
   is_file (fs0 !! os.path.join (target_folder_path (self st0)) n) = true) →
∃ done' errors' fs',
  for_ names (transfer_body shutil.move) ([], errors) (with_fs st0 fs0)
    = (Ok (done', errors'), with_fs st0 fs')
  ∧ move_data st0 fs0 [] done' fs'
  ∧ move_frame fs0 done' fs'.
Proof.
intros Hnd Hfiles.
assert (∀ name rest done fs info,
          move_data st0 fs0 (name :: rest) done fs →
          get_file_date_info name (with_fs st0 fs) = (Ok info, with_fs st0 fs) →
          (get_file_date_info name (with_fs st0 fs0)).1 = Ok info) as Hlocal.
{ intros name rest done fs info (_ & Hrest & _) Hinfo.
  destruct (Hrest name (list_elem_of_here _ _)) as (f & Hf0 & Hf).
  rewrite (get_file_date_info_local name st0 fs0 fs), Hinfo; [done|eauto|]. congruence. }
apply (transfer_loop_rule shutil.move st0
         (λ rest done fs, move_data st0 fs0 rest done fs ∧ move_frame fs0 done fs)).
- intros name rest done fs fs' [Hdata Hframe] Hgrow.
  assert (fs ⊆ fs') as Hsub.
  { destruct Hgrow as [->|(info & _ & [[Hsub _] _])]; done. }
  split.
  + apply (move_data_grows _ _ _ _ _ _ _ Hdata) in Hsub
      as (Hnd' & Hrest & Hto & Hcross & Hdone).
    apply NoDup_cons in Hnd' as [_ Hnd']. split_and!; try done.
    * intros n Hn. apply Hrest. by right.
    * intros e n He Hn. apply Hcross; [done|by right].
  + destruct Hgrow as [->|(info & Hinfo & Hgrow)]; [done|].
    eapply move_frame_grows; eauto.
- intros name rest done fs info fsm q fs' [Hdata Hframe] Hinfo Hgrow Hsrc Hq
    Hform Hmv.
  pose proof (Hlocal _ _ _ _ _ Hdata Hinfo) as Hinfo0.
  pose proof (move_frame_grows _ _ _ _ _ _ Hdata Hframe Hinfo0 Hgrow) as Hframem.
  destruct Hgrow as [[Hsub _] _].
  pose proof (move_data_grows _ _ _ _ _ _ _ Hdata Hsub) as Hdatam.
  destruct (move_data_step st0 fs0 name rest done fsm info q fs')
    as (f & _ & -> & Hstep); try done.
  split; [done|]. apply move_frame_step with (rest := rest); try done.
  destruct Hform as [->|(k & _ & ->)]; eauto.
- split; [split_and!; [done| |constructor| |]|split].
  + intros n Hn. specialize (Hfiles n Hn).
    destruct (fs0 !! _) as [[f|]|]; try done. eauto.
  + intros e n He. by apply elem_of_nil in He.
  + intros e He. by apply elem_of_nil in He.
  + intros e He. by apply elem_of_nil in He.
  + intros p _ _. by left.
Qed.

End move_frame.

(** Moving a regular file to a vacant path of an existing directory. *)
Lemma shutil_move_to_vacant now fs src d n f :
  fs !! src = Some (File f) → fs !! os.path.join d n = None →
  is_dir (fs !! d) = true →
  shutil.move now fs src (os.path.join d n)
  = Ok (<[os.path.join d n := File f]> (delete src fs)).
Proof.
  intros Hsrc Hdst Hd. unfold shutil.move, os.path.isdir. rewrite Hdst. cbn.
  unfold shutil.rename_or_copy. rewrite Hsrc.
  rewrite decide_False by (intros ->; congruence). rewrite Hdst.
  unfold os.check_parent. rewrite dirname_join.
  assert (os.path.join d n ≠ []) as Hne by (unfold os.path.join; by destruct d).
  destruct (os.path.join d n); [done|].
  by destruct (fs !! d) as [[]|].
Qed.

(** The loop of [_undo_move_operation] over entries whose destinations
    hold regular files and whose sources are vacant. *)
Lemma undo_move_loop_back es n folders st :
  NoDup (to <$> es) → NoDup (from <$> es) →
  (∀ e, e ∈ es →
     is_file (fs (world st) !! to e) = true
     ∧ fs (world st) !! from e = None
     ∧ ∃ d nm, from e = os.path.join d nm ∧ is_dir (fs (world st) !! d) = true) →
  ∃ fs',
    for_ es undo_move_body (n, folders) st
    = (Ok (length es + n,
           list_to_set (os.path.dirname ∘ to <$> es) ∪ folders),
       with_fs st fs')
    ∧ (∀ e, e ∈ es → fs' !! from e = fs (world st) !! to e ∧ fs' !! to e = None)
    ∧ (∀ p, p ∉ to <$> es → p ∉ from <$> es → fs' !! p = fs (world st) !! p).
Proof.
  revert n folders st.
  induction es as [|e es IH]; intros n folders st Hto Hfrom Hfiles.
  - exists (fs (world st)). rewrite with_fs_id. cbn.
    rewrite (left_id_L ∅ (∪)). split_and!; [done| |done].
    intros e He. by apply elem_of_nil in He.
  - rewrite fmap_cons in Hto, Hfrom.
    apply NoDup_cons in Hto as [Hto1 Hto], Hfrom as [Hfrom1 Hfrom].
    destruct (Hfiles e) as (Ht & Hf & d & nm & Hd & Hdir); [left|].
    destruct (fs (world st) !! to e) as [[f|]|] eqn:Et; try done.
    rewrite for_cons. unfold undo_move_body at 1.
    rewrite run_bind. unfold os_path_exists, reads.
    assert (os.path.exists_ (fs (world st)) (to e) = true) as ->
      by (apply exists_true; eauto).
    rewrite run_bind. unfold writes. rewrite Hd in Hf |- *.
    rewrite (shutil_move_to_vacant _ _ _ _ _ f) by done. rewrite <-Hd in Hf |- *.
    cbn [mret M_ret]. set (fs1 := <[from e:=File f]> (delete (to e) (fs (world st)))).
    assert (to e ≠ from e) as Hne by (intros Heq; congruence).
    assert (∀ p, p ≠ to e → p ≠ from e → fs1 !! p = fs (world st) !! p) as Hfs1.
    { intros p ??. unfold fs1. by rewrite lookup_insert_ne, lookup_delete_ne. }
    assert (∀ e', e' ∈ es → to e' ≠ to e ∧ from e' ≠ from e
                            ∧ to e' ≠ from e ∧ from e' ≠ to e) as Hdiff.
    { intros e' He'. destruct (Hfiles e') as (Ht' & Hf' & _); [by right|].
      split_and!.
      - intros Heq. apply Hto1. rewrite <-Heq. apply list_elem_of_fmap; eauto.
      - intros Heq. apply Hfrom1. rewrite <-Heq. apply list_elem_of_fmap; eauto.
      - intros Heq. rewrite Heq, Hf in Ht'. done.
      - intros Heq. rewrite Heq, Et in Hf'. done. }
    destruct (IH (S n) ({[os.path.dirname (to e)]} ∪ folders)
                (mkState (self st) (mkWorld fs1 (clock (world st))
                                      (pil_available (world st)))))
      as (fs' & -> & Hes & Hother); try done.
    + intros e' He'. cbn [world fs].
      destruct (Hdiff e' He') as (? & ? & ? & ?).
      destruct (Hfiles e') as (Ht' & Hf' & d' & nm' & Hd' & Hdir'); [by right|].
      rewrite !Hfs1 by done. split_and!; [done..|].
      exists d', nm'. split; [done|]. rewrite Hfs1; [done| |].
      * intros ->. by rewrite Et in Hdir'.
      * intros ->. by rewrite Hf in Hdir'.
    + exists fs'. cbn [world fs] in *. split_and!.
      * replace (length es + S n) with (length (e :: es) + n) by (cbn; lia).
        replace (list_to_set (os.path.dirname ∘ to <$> es)
                 ∪ ({[os.path.dirname (to e)]} ∪ folders))
          with (list_to_set (os.path.dirname ∘ to <$> e :: es) ∪ folders);
          [done|].
        rewrite fmap_cons, list_to_set_cons. cbn.
        by rewrite (assoc_L (∪)), (comm_L (∪) (list_to_set _)).
      * intros e' [->|He']%elem_of_cons.
        -- rewrite !Hother.
           ++ unfold fs1. rewrite lookup_insert_eq, lookup_insert_ne by done.
              by rewrite lookup_delete_eq.
           ++ intros (e' & Heq & He')%list_elem_of_fmap.
              destruct (Hdiff e' He') as (? & _). congruence.
           ++ intros (e' & Heq & He')%list_elem_of_fmap.
              destruct (Hdiff e' He') as (_ & _ & _ & ?). congruence.
           ++ intros (e' & Heq & He')%list_elem_of_fmap.
              destruct (Hdiff e' He') as (_ & _ & ? & _). congruence.
           ++ done.
        -- destruct (Hes e' He') as [-> ->]. split; [|done].
           destruct (Hdiff e' He') as (? & _ & ? & _). by apply Hfs1.
      * intros p Hp1 Hp2. rewrite fmap_cons in Hp1, Hp2.
        apply not_elem_of_cons in Hp1 as [??], Hp2 as [??].
        rewrite Hother by done. by apply Hfs1.
Qed.

(** X10.  Moving and undoing is a round trip for the files.  Let the
    source directory hold no subdirectory, let none of its entries lie on
    the path to a bucket of the batch, and let it not be such a bucket
    itself (as is the case when source and destination root are apart, or
    when a directory is organised in place and none of its files is named
    like a bucket).  Then after a [move] that moved something,
    [undo_last_action] returns [True] and clears the last operation; every
    manifest entry, moved from its source to a vacant destination, is back
    at its source with the data it had, and its destination is vacant
    again; no bucket of the manifest is left behind empty; and the regular
    files of the filesystem are exactly those from before the move. *)
Theorem undo_reverses_move st entries errors st1 :
  let target := target_folder_path (self st) in
  let dest := destination_folder_path (self st) in
  let fs0 := fs (world st) in
  let fs1 := fs (world st1) in
  (∀ n, is_dir (fs0 !! os.path.join target n) = false) →
  (∀ n n' info,
     is_Some (fs0 !! os.path.join target n) →
     get_file_date_info n' st = (Ok info, st) →
     ¬ os.path.join target n `prefix_of` os.path.join dest (date info)) →
  (∀ n' info,
     get_file_date_info n' st = (Ok info, st) →
     target ≠ os.path.join dest (date info)) →
  move st = (Ok (entries, errors), st1) →
  entries ≠ [] →
  ∃ st2,
    undo_last_action st1 = (Ok true, st2)
    ∧ last_operation (self st2) = None
    ∧ (∀ e, e ∈ entries →
         ∃ f, fs0 !! from e = Some (File f)
              ∧ fs0 !! to e = None
              ∧ fs1 !! from e = None
              ∧ fs1 !! to e = Some (File f)
              ∧ fs (world st2) !! from e = Some (File f)
              ∧ fs (world st2) !! to e = None)
    ∧ (∀ e, e ∈ entries →
         ¬ empty_dir (fs (world st2)) (os.path.dirname (to e)))
    ∧ (∀ p f, fs (world st2) !! p = Some (File f) ↔ fs0 !! p = Some (File f)).
Proof.
  intros target dest fs0 fs1 Hnodir Hway Hbucket Hmove Hne.
  pose proof (move_run st) as Hrun. fold target fs0 in Hrun.
  destruct (os.listdir fs0 target) as [names|e] eqn:Els;
    [|by rewrite Hrun in Hmove].
  destruct Hrun as (entries' & errors' & fs1' & Hloop & Hrun).
  rewrite Hrun in Hmove. injection Hmove as <- <- <-.
  assert (∀ n info, (get_file_date_info n (with_fs st fs0)).1 = Ok info →
                    get_file_date_info n st = (Ok info, st)) as Hfull.
  { intros n info. unfold fs0. rewrite with_fs_id. intros Hinfo.
    by rewrite (pure_run _ st (get_file_date_info_pure n)), Hinfo. }
  destruct (move_loop_frame st fs0) with (names := names) (errors := @nil string)
    as (d & er & f & Hloop' & Hdata & Hvac & Hframe).
  { intros n n' info Hn Hinfo. apply (Hway n n' info); [done|by apply Hfull]. }
  { intros n' info Hinfo. apply (Hbucket n' info). by apply Hfull. }
  { by eapply listdir_NoDup. }
  { intros n Hn. apply (elem_of_listdir _ _ _ n Els) in Hn as [node Hn].
    specialize (Hnodir n). fold target. unfold os.path.join in *.
    rewrite Hn in Hnodir |- *. by destruct node. }
  unfold fs0 in Hloop'. rewrite with_fs_id, Hloop in Hloop'.
  injection Hloop' as <- <- <-.
  destruct Hdata as (_ & _ & Hto & _ & Hdone).
  subst fs1. cbn [world with_fs fs] in *.
  (* the source directory is still there *)
  assert (is_dir (fs0 !! target) = true) as Htarget0.
  { revert Els. unfold os.listdir. by destruct (fs0 !! target) as [[]|]. }
  assert (NoDup (from <$> entries')) as Hfrom.
  { apply transfer_loop_accounts in Hloop as [_ (l & Hl & Hsub)]. cbn in Hl.
    assert (from <$> entries' = os.path.join target <$> (file <$> entries')) as ->.
    { rewrite <-list_fmap_compose. apply list_fmap_ext.
      intros i e He%list_elem_of_lookup_2.
      by destruct (Hdone e He) as (? & ? & -> & _). }
    apply NoDup_fmap_2.
    - intros x y. unfold os.path.join. by intros [_ ?]%app_inj_tail.
    - rewrite Hl. eapply sublist_NoDup; [|done]. by eapply listdir_NoDup. }
  assert (fs1' !! target = fs0 !! target) as Htarget1.
  { destruct (Hframe target) as [->|[H0 _]]; [| |done|by rewrite H0 in Htarget0].
    - intros (e & Heq & He)%list_elem_of_fmap.
      destruct (Hdone e He) as (? & ? & Hfrome & _). rewrite Hfrome in Heq.
      apply (f_equal length) in Heq. unfold os.path.join, target in Heq.
      rewrite length_app in Heq. cbn in Heq. lia.
    - intros (e & Heq & He)%list_elem_of_fmap.
      destruct (Hvac e He) as [_ H0]. rewrite <-Heq in H0.
      by rewrite H0 in Htarget0. }
  set (st1 := mkState (after_batch (self st) "move" entries' (clock (world st)))
                (mkWorld fs1' (clock (world st)) (pil_available (world st)))).
  destruct (undo_move_loop_back entries' 0 ∅ st1)
    as (fs' & Hundo & Hback & Hother); [done..| |].
  { intros e He. destruct (Hdone e He) as (g & info & Hfrome & _ & Hg & _).
    destruct (Hvac e He) as [Hv _]. cbn [st1 world with_fs fs].
    rewrite Hg. split_and!; [done..|].
    exists target, (file e). by rewrite Htarget1. }
  cbn [st1 world with_fs fs] in Hback, Hother.
  set (folders := (list_to_set (os.path.dirname ∘ to <$> entries') ∪ ∅
                   : gset pathname)) in *.
  set (fs2 := delete_all (filter (empty_dir fs') (elements folders)) fs').
  assert (∀ p, p ∈ elements folders → ∃ e, e ∈ entries' ∧ p = os.path.dirname (to e)
                                           ∧ length p = S (length dest)) as Hfold.
  { intros p Hp. unfold folders in Hp. rewrite (right_id_L ∅ (∪)) in Hp.
    apply elem_of_elements, elem_of_list_to_set, list_elem_of_fmap in Hp
      as (e & -> & He).
    exists e. split_and!; [done..|]. unfold compose.
    destruct (Hdone e He) as (? & info & _ & _ & _ & _ & _ & _ & Hform).
    destruct Hform as [->|(k & _ & ->)]; unfold candidate;
      rewrite dirname_join; unfold os.path.join, dest; rewrite length_app; cbn; lia. }
  assert (∀ p, fs2 !! p = if decide (p ∈ filter (empty_dir fs') (elements folders))
                          then None else fs' !! p) as Hfs2.
  { intros p. unfold fs2. by rewrite lookup_delete_all. }
  assert (∀ p, p ∈ filter (empty_dir fs') (elements folders) →
               is_dir (fs' !! p) = true ∧ length p = S (length dest)) as Hfilt.
  { intros p [[Hd _] Hin]%list_elem_of_filter. split; [done|].
    by destruct (Hfold p Hin) as (? & _ & _ & ?). }
  exists (mkState (clear_last (self st1)) (world (with_fs st1 fs2))). split.
  { rewrite undo_last_action_run.
    assert (last_operation (self st1)
            = Some (mk_operation "move" entries' (clock (world st)))) as ->
      by (by apply after_batch_last).
    cbn [type files]. rewrite decide_True by done.
    unfold _undo_move_operation, try_except, try_except_if.
    rewrite run_bind, Hundo, run_bind.
    rewrite _remove_empty_folders_run.
    - rewrite run_bind, set_last_operation_run. reflexivity.
    - intros p q Hp%elem_of_elements Hq%elem_of_elements.
      destruct (Hfold p Hp) as (_ & _ & _ & ->).
      by destruct (Hfold q Hq) as (_ & _ & _ & ->). }
  cbn [self world fs with_fs clear_last last_operation]. split; [done|].
  assert (∀ e, e ∈ entries' →
            ∃ g, fs0 !! from e = Some (File g) ∧ fs0 !! to e = None
                 ∧ fs1' !! from e = None ∧ fs1' !! to e = Some (File g)
                 ∧ fs2 !! from e = Some (File g) ∧ fs2 !! to e = None) as Hentries.
  { intros e He. destruct (Hdone e He) as (g & info & _ & Hg0 & Hg & _).
    destruct (Hvac e He) as [Hv Hv0]. destruct (Hback e He) as [Hb1 Hb2].
    exists g. split_and!; [done..| |].
    - rewrite Hfs2, decide_False; [congruence|].
      intros [Hd _]%Hfilt. rewrite Hb1, Hg in Hd. done.
    - rewrite Hfs2. by case_decide. }
  split_and!.
  - done.
  - intros e He [Hd Hc].
    set (dir := os.path.dirname (to e)) in *.
    assert (dir ∈ elements folders) as Hin.
    { unfold folders. rewrite (right_id_L ∅ (∪)).
      apply elem_of_elements, elem_of_list_to_set, list_elem_of_fmap. eauto. }
    assert (dir ∉ filter (empty_dir fs') (elements folders)) as Hnf.
    { intros Hf. rewrite Hfs2, decide_True in Hd by done. done. }
    assert (fs2 !! dir = fs' !! dir) as Hd' by (by rewrite Hfs2, decide_False).
    apply Hnf, list_elem_of_filter. split; [|done].
    split; [by rewrite <-Hd'|].
    apply children_nil. intros n. rewrite children_nil in Hc.
    specialize (Hc n). rewrite Hfs2 in Hc.
    case_decide as Hcf; [|done].
    apply Hfilt in Hcf as [_ Hlen].
    destruct (Hfold dir Hin) as (_ & _ & _ & Hlen').
    rewrite length_app in Hlen. cbn in Hlen. lia.
  - intros p g. rewrite Hfs2. split.
    + case_decide as Hcf; [done|]. intros Hp.
      destruct (decide (p ∈ from <$> entries')) as [(e & -> & He)%list_elem_of_fmap|Hp1].
      { destruct (Hdone e He) as (g' & info & _ & Hg0 & Hg & _).
        destruct (Hback e He) as [Hb1 _]. congruence. }
      destruct (decide (p ∈ to <$> entries')) as [(e & -> & He)%list_elem_of_fmap|Hp2].
      { destruct (Hback e He) as [_ Hb2]. congruence. }
      rewrite Hother in Hp by done.
      destruct (Hframe p Hp1 Hp2) as [<-|[_ Hd]]; [done|]. by rewrite Hp in Hd.
    + intros Hp.
      destruct (decide (p ∈ from <$> entries')) as [(e & -> & He)%list_elem_of_fmap|Hp1].
      { destruct (Hentries e He) as (g' & Hg0 & _ & _ & _ & Hg2 & _).
        rewrite Hfs2 in Hg2. congruence. }
      destruct (decide (p ∈ to <$> entries')) as [(e & -> & He)%list_elem_of_fmap|Hp2].
      { destruct (Hvac e He) as [_ Hv0]. congruence. }
      rewrite decide_False.
      * rewrite Hother by done.
        destruct (Hframe p Hp1 Hp2) as [->|[H0 _]]; [done|congruence].
      * intros [Hd _]%Hfilt. rewrite Hother in Hd by done.
        destruct (Hframe p Hp1 Hp2) as [Heq|[H0 _]]; [|congruence].
        rewrite Heq, Hp in Hd. done.
Qed.

Lemma undo_reverses_move_witness :
  ∃ st2, undo_last_action (move (mkState engine world_plain)).2 = (Ok true, st2)
         ∧ fs (world st2) !! ["src"; "doc.txt"]
           = Some (plain "hello" (noon 2024 3 10))
         ∧ fs (world st2) !! ["dst"; "2024-03-10"; "doc.txt"] = None.
Proof.
  destruct (undo_reverses_move (mkState engine world_plain)
              [doc_entry] [] (move (mkState engine world_plain)).2)
    as (st2 & Hundo & _ & Hentries & _).
  - apply no_subdirectory_check. vm_compute. reflexivity.
  - intros n n' info _ _ [k Hk]. cbn in Hk. discriminate.
  - intros n' info _. cbn. discriminate.
  - vm_compute. reflexivity.
  - discriminate.
  - exists st2. split; [exact Hundo|].
    destruct (Hentries doc_entry) as (f & Hf0 & _ & _ & _ & Hf2 & Ht2); [left|].
    split; [|exact Ht2]. etrans; [exact Hf2|]. etrans; [symmetry; exact Hf0|].
    vm_compute. reflexivity.
Defined.

(** ** What an undo may remove *)

Global Instance removes_only_preorder T D : PreOrder (removes_only T D).
Proof.
  split.
  - intros fs p. by left.
  - intros fs1 fs2 fs3 H12 H23 p.
    assert (∀ q, fs2 !! q = None → fs3 !! q = None) as Hnone.
    { intros q Hq. destruct (H23 q) as [->|[-> _]]; done. }
    destruct (H23 p) as [->|[Hn Hcase]].
    + destruct (H12 p) as [->|[Hn [Hf|(HD & Hd & Hc)]]]; [by left|right..].
      * split; [done|]. by left.
      * split; [done|]. right. split_and!; [done..|]. intros n. by apply Hnone.
    + right. split; [done|].
      destruct (H12 p) as [Heq|[Hn2 _]].
      * by rewrite <-Heq.
      * rewrite Hn2 in Hcase. by destruct Hcase as [[_ ?]|(_ & ? & _)].
Qed.

Lemma removes_only_mono (T T' D D' : pathname → Prop) fs fs' :
  (∀ p, T p → T' p) → (∀ p, D p → D' p) →
  removes_only T D fs fs' → removes_only T' D' fs fs'.
Proof.
  intros HT HD H p. destruct (H p) as [?|[Hn [[??]|(? & ? & ?)]]]; [by left|right..].
  - split; [done|]. left. auto.
  - split; [done|]. right. auto.
Qed.

(** A loop whose rounds keep [R], each for the element it is run on. *)
Lemma steps_for_elem (R : relation State) `{!PreOrder R} {A S}
    (xs : list A) (body : A → S → M S) (s : S) :
  (∀ x s, x ∈ xs → steps R (body x s)) → steps R (for_ xs body s).
Proof.
  revert s. induction xs as [|x xs IH]; intros s Hbody st; [reflexivity|].
  rewrite for_cons. pose proof (Hbody x s (list_elem_of_here _ _) st) as Hx.
  destruct (body x s st) as [[s'|e] st1]; [|done]. cbn in Hx.
  etrans; [done|]. apply IH. intros y s0 Hy. apply Hbody. by right.
Qed.

Lemma remove_empty_body_removes_only (T D : pathname → Prop) p n :
  D p → steps (state_rel eq (removes_only T D)) (remove_empty_body p n).
Proof.
  intros HD st. rewrite remove_empty_body_run.
  case_decide as He; cbn; [|reflexivity].
  apply state_rel_with_fs; [apply _|]. intros q.
  destruct (decide (p = q)) as [<-|].
  - right. rewrite lookup_delete_eq. split; [done|]. right.
    destruct He as [Hd Hc]. split_and!; [done..|]. intros n'.
    rewrite lookup_delete_ne.
    + by apply children_nil.
    + intros Heq. apply (f_equal length) in Heq. rewrite length_app in Heq.
      cbn in Heq. lia.
  - left. by rewrite lookup_delete_ne.
Qed.

Lemma _remove_empty_folders_removes_only (T D : pathname → Prop)
    (folders : gset pathname) :
  (∀ p, p ∈ folders → D p) →
  steps (state_rel eq (removes_only T D)) (_remove_empty_folders folders).
Proof.
  intros HD. unfold _remove_empty_folders.
  apply steps_try_except; [apply _| |intros ?; apply steps_ret; apply _].
  apply steps_bind; [apply _| |intros ?; apply steps_ret; apply _].
  apply steps_for_elem; [apply _|]. intros p n Hp%elem_of_elements.
  apply remove_empty_body_removes_only. by apply HD.
Qed.

(** X11.  [_remove_empty_folders] never raises and removes nothing but
    directories of the set it is given that have no entry: whatever is
    missing afterwards was such a directory, and it has no entry left
    behind; everything else, every regular file in particular, is as
    before, and so is the engine object. *)
Theorem remove_empty_folders_removes_only_empty (folders : gset pathname) st :
  ∃ st',
    _remove_empty_folders folders st = (Ok (), st')
    ∧ self st' = self st
    ∧ ∀ p, fs (world st') !! p = fs (world st) !! p
           ∨ (p ∈ folders
              ∧ is_dir (fs (world st) !! p) = true
              ∧ fs (world st') !! p = None
              ∧ ∀ n, fs (world st') !! os.path.join p n = None).
Proof.
  destruct (_remove_empty_folders_Ok folders st) as (st' & Hrun).
  pose proof (_remove_empty_folders_removes_only (λ _, False) (λ p, p ∈ folders)
                folders (λ p H, H) st) as Hrel.
  rewrite Hrun in Hrel. destruct Hrel as (Hself & _ & _ & Hfs). cbn in Hself, Hfs.
  exists st'. split_and!; [done..|]. intros p.
  destruct (Hfs p) as [?|[Hn [[[] _]|(HD & Hd & Hc)]]]; [by left|by right].
Qed.

(** The loop of [_undo_copy_operation], whatever the manifest and the
    filesystem: it removes regular files at destinations of the manifest,
    and collects parent directories of such destinations. *)
Lemma undo_copy_loop_footprint (es : list file_info) (n : nat)
    (F : gset pathname) st :
  state_rel eq (removes_only (λ p, p ∈ to <$> es) (λ _, False))
    st (for_ es undo_copy_body (n, F) st).2
  ∧ ∀ (n' : nat) (F' : gset pathname),
      (for_ es undo_copy_body (n, F) st).1 = Ok (n', F') →
      ∀ p, p ∈ F' → p ∈ (os.path.dirname ∘ to) <$> es ∨ p ∈ F.
Proof.
  revert n F st. induction es as [|e es IH]; intros n F st.
  - split; [reflexivity|]. cbn. intros n' F' [= <- <-] p Hp. by right.
  - assert (∀ sta stb,
              state_rel eq (removes_only (λ p, p ∈ to <$> es) (λ _, False)) sta stb →
              state_rel eq (removes_only (λ p, p ∈ to <$> e :: es) (λ _, False))
                sta stb) as Hweak.
    { intros sta stb (? & ? & ? & Hr). split_and!; [done..|].
      eapply removes_only_mono; [| |exact Hr]; [|done].
      intros p Hp. rewrite fmap_cons. by right. }
    rewrite for_cons. unfold undo_copy_body at 1 3.
    rewrite run_bind. unfold os_path_exists, reads.
    destruct (os.path.exists_ (fs (world st)) (to e)) eqn:Eex.
    2:{ cbn [mret M_ret]. destruct (IH n F st) as [Hrel Hval]. split.
        - by apply Hweak.
        - intros n' F' Hr p Hp. destruct (Hval n' F' Hr p Hp) as [?|?];
            [left; rewrite fmap_cons; by right|by right]. }
    rewrite run_bind. unfold writes.
    destruct (os.remove (fs (world st)) (to e)) as [fs1|err] eqn:Erm.
    2:{ split; [reflexivity|]. done. }
    apply remove_Ok in Erm as [Hfile ->]. cbn [mret M_ret].
    set (st1 := mkState (self st)
                  (mkWorld (delete (to e) (fs (world st))) (clock (world st))
                     (pil_available (world st)))).
    destruct (IH (S n) ({[os.path.dirname (to e)]} ∪ F) st1) as [Hrel Hval].
    split.
    + etrans; [|apply Hweak, Hrel].
      change st1 with (with_fs st (delete (to e) (fs (world st)))).
      apply state_rel_with_fs; [apply _|]. intros p.
      destruct (decide (to e = p)) as [<-|Hne].
      * right. rewrite lookup_delete_eq. split; [done|]. left.
        split; [|done]. rewrite fmap_cons. left.
      * left. by rewrite lookup_delete_ne.
    + intros n' F' Hr p Hp.
      destruct (Hval n' F' Hr p Hp) as [?|[->%elem_of_singleton|?]%elem_of_union].
      * left. rewrite fmap_cons. by right.
      * left. rewrite fmap_cons. left.
      * by right.
Qed.

(** X12.  Undoing a copy can only remove: whatever the recorded manifest
    and whatever has happened to the filesystem since, and whether the
    undo returns [True] or [False], every path is as before or has gone,
    and what has gone was a regular file at a destination of the manifest
    or a directory holding such a destination that has no entry left. *)
Theorem undo_copy_removes_only st op :
  last_operation (self st) = Some op →
  type op = "copy" →
  let fs0 := fs (world st) in
  let fs' := fs (world (undo_last_action st).2) in
  ∀ p, fs' !! p = fs0 !! p
       ∨ (fs' !! p = None
          ∧ ((p ∈ to <$> files op ∧ is_file (fs0 !! p) = true)
             ∨ (p ∈ (os.path.dirname ∘ to) <$> files op
                ∧ is_dir (fs0 !! p) = true
                ∧ ∀ n, fs' !! os.path.join p n = None))).
Proof.
  intros Hlast Htype fs0 fs'. subst fs'.
  rewrite undo_last_action_run, Hlast, Htype.
  rewrite decide_False by done. rewrite decide_True by done.
  unfold _undo_copy_operation, try_except, try_except_if. rewrite run_bind.
  destruct (undo_copy_loop_footprint (files op) 0 ∅ st) as [Hrel Hval].
  set (T := λ p, p ∈ to <$> files op) in *.
  set (D := λ p, p ∈ (os.path.dirname ∘ to) <$> files op).
  assert (∀ st', state_rel eq (removes_only T D) st st' →
            ∀ p, fs (world st') !! p = fs0 !! p
                 ∨ (fs (world st') !! p = None
                    ∧ ((T p ∧ is_file (fs0 !! p) = true)
                       ∨ (D p ∧ is_dir (fs0 !! p) = true
                          ∧ ∀ n, fs (world st') !! os.path.join p n = None))))
    as Hfinal.
  { intros st' (_ & _ & _ & Hr) p. exact (Hr p). }
  assert (state_rel eq (removes_only T D)
            st (for_ (files op) undo_copy_body (0, ∅) st).2) as Hrel'.
  { destruct Hrel as (? & ? & ? & Hr). split_and!; [done..|].
    eapply removes_only_mono; [| |exact Hr]; [done|intros ? []]. }
  destruct (for_ (files op) undo_copy_body (0, ∅) st) as [[[n' F']|e] st1];
    cbn [fst snd] in Hrel', Hval.
  - rewrite run_bind.
    destruct (_remove_empty_folders_Ok F' st1) as (st2 & Hst2).
    assert (∀ p, p ∈ F' → D p) as HF.
    { intros p Hp. destruct (Hval n' F' eq_refl p Hp) as [?|Hemp]; [done|].
      by apply not_elem_of_empty in Hemp. }
    pose proof (_remove_empty_folders_removes_only T D F' HF st1) as Hclean.
    rewrite Hst2 in Hclean |- *. cbn [snd] in Hclean.
    rewrite run_bind, set_last_operation_run. cbn [mret M_ret snd world].
    apply Hfinal. etrans; [exact Hrel'|]. exact Hclean.
  - cbn [mret M_ret snd]. by apply Hfinal.
Qed.

Lemma undo_copy_removes_only_witness :
  fs (world (undo_last_action (copy (mkState engine world_plain)).2).2)
    !! ["src"; "doc.txt"]
  = Some (plain "hello" (noon 2024 3 10)).
Proof.
  destruct (undo_copy_removes_only (copy (mkState engine world_plain)).2
              (mk_operation "copy" [doc_entry] today)) with (p := ["src"; "doc.txt"])
    as [Heq|[_ [[Hin _]|[Hin _]]]].
  - vm_compute. reflexivity.
  - reflexivity.
  - etrans; [exact Heq|]. vm_compute. reflexivity.
  - exfalso. apply list_elem_of_singleton in Hin. discriminate.
  - exfalso. apply list_elem_of_singleton in Hin. discriminate.
Defined.

(** ** Which EXIF values are read *)

Lemma str_count_colons s : str_count ":" s = colons (String.list_ascii_of_string s).
Proof.
  unfold colons. induction s as [|a s IH]; [done|].
  change (String.list_ascii_of_string (String a s))
    with (a :: String.list_ascii_of_string s).
  rewrite filter_cons. cbn [str_count]. case_decide; cbn; by rewrite IH.
Qed.

Lemma colons_app s t : colons (s ++ t) = colons s + colons t.
Proof. unfold colons. by rewrite filter_app, length_app. Qed.

Lemma colons_without s : ":"%char ∉ s → colons s = 0.
Proof.
  unfold colons. induction s as [|a s IH]; [done|].
  intros [Ha Hs]%not_elem_of_cons. rewrite filter_cons.
  rewrite decide_False by done. by apply IH.
Qed.

Lemma lower_char_colon a : pystr.lower_char a = ":"%char ↔ a = ":"%char.
Proof.
  destruct a as [[] [] [] [] [] [] [] []]; vm_compute; split; congruence.
Qed.

(** A match consumes as many colons as the format has literal ones. *)
Lemma match_items_colons its s acc f r :
  (f, r) ∈ datetime.match_items its s acc →
  colons s = literal_colons its + colons r.
Proof.
  revert s acc. induction its as [|it its IH]; intros s acc; cbn.
  - by intros [= <- <-]%list_elem_of_singleton.
  - destruct it as [c| |c]; cbn [literal_colons].
    + intros (alt & Halt & Hin)%list_elem_of_In%in_flat_map.
      apply list_elem_of_In in Halt, Hin.
      destruct (datetime.match_alt alt s) as [[m1 r1]|] eqn:E;
        [|by apply elem_of_nil in Hin].
      apply match_alt_split in E as [-> Hm1]. apply IH in Hin.
      rewrite colons_app, Hin, colons_without; [done|].
      intros Hc. rewrite Forall_forall in Hm1.
      destruct (Hm1 _ Hc) as (p & Hp & Hpc).
      by rewrite (alternatives_no_colon c alt p) in Hpc.
    + intros (k & Hk & Hin)%list_elem_of_In%in_flat_map.
      apply list_elem_of_In in Hk, Hin.
      apply elem_of_reverse, elem_of_seq in Hk. apply IH in Hin.
      rewrite <-(take_drop k s) at 1.
      rewrite colons_app, Hin, colons_without; [done|].
      apply leading_spaces_take. lia.
    + destruct s as [|a s]; [by intros ?%elem_of_nil|].
      case_decide as Ha; [|by intros ?%elem_of_nil].
      intros Hin%IH. change (a :: s) with ([a] ++ s).
      rewrite colons_app, Hin. unfold colons at 1. rewrite filter_cons.
      destruct (decide (c = ":"%char)) as [->|Hc].
      * apply lower_char_colon in Ha as ->. by rewrite decide_True.
      * rewrite decide_False; [cbn; lia|].
        intros ->. apply Hc. apply lower_char_colon. by rewrite <-Ha.
Qed.

(** A text that a format parses has as many colons as the format. *)
Lemma strptime_colons s fmt d :
  datetime.strptime s fmt = Ok d →
  str_count ":" s
  = literal_colons (datetime.compile (String.list_ascii_of_string fmt)).
Proof.
  unfold datetime.strptime.
  destruct (datetime.match_items _ _ _) as [|[f [|a r]] l] eqn:E; try done.
  intros _. rewrite str_count_colons.
  rewrite (match_items_colons
             (datetime.compile (String.list_ascii_of_string fmt))
             (String.list_ascii_of_string s) datetime.no_fields f []);
    [cbn; lia|].
  rewrite E. left.
Qed.

Lemma str_count_replace (d : ascii) n s :
  d ≠ ":"%char →
  str_count ":" (pystr.replace ":" d n s) = str_count ":" s - n.
Proof.
  intros Hd. revert n. induction s as [|a s IH]; intros n; [by destruct n|].
  destruct n as [|n]; [cbn; lia|]. cbn.
  destruct (decide (a = ":"%char)) as [->|Ha]; cbn.
  - rewrite decide_False by done. by rewrite IH.
  - rewrite decide_False by done. rewrite IH. cbn.
    destruct (str_count ":" s); lia.
Qed.

Lemma contains_str_count s :
  pystr.contains ":" s = true ↔ 1 ≤ str_count ":" s.
Proof.
  induction s as [|a s IH]; cbn; [split; [done|lia]|].
  case_decide; [split; [lia|done]|]. rewrite IH. cbn. done.
Qed.

(** X13.  A tag value with a colon is read only if it holds exactly five
    colons: the conversion turns the first three into two hyphens and a
    blank, and the format asks for two more.  Every other value with a
    colon, the usual EXIF text [YYYY:MM:DD HH:MM:SS] with its four colons
    among them, makes [strptime] raise [ValueError], and the loop moves on
    to the next tag. *)
Theorem exif_value_with_colon_needs_five date_str :
  pystr.contains ":" date_str = true →
  str_count ":" date_str ≠ 5 →
  parse_exif_value date_str = Raise ValueError.
Proof.
  intros Hc Hn. unfold parse_exif_value. rewrite Hc.
  destruct (datetime.strptime _ _) as [d|e] eqn:E; cbn.
  - exfalso. apply strptime_colons in E.
    rewrite !str_count_replace in E by done.
    vm_compute literal_colons in E. lia.
  - by apply strptime_raises in E as ->.
Qed.

Lemma exif_value_with_colon_needs_five_witness :
  parse_exif_value "2023:01:15 10:20:30" = Raise ValueError.
Proof.
  apply exif_value_with_colon_needs_five.
  - reflexivity.
  - vm_compute. lia.
Defined.

Lemma probe_fields_all_rejected exif_data fields :
  (∀ field_id v,
     field_id ∈ fields → exif_data !! field_id = Some v →
     ∃ date_str, v = Text date_str
                 ∧ parse_exif_value date_str = Raise ValueError) →
  probe_fields exif_data fields = Ok None.
Proof.
  induction fields as [|field_id fields IH]; intros Hall; [done|]. cbn.
  assert (probe_fields exif_data fields = Ok None) as ->.
  { apply IH. intros ????. eapply Hall; [by right|done]. }
  destruct (exif_data !! field_id) as [v|] eqn:E; [|done].
  destruct (Hall field_id v (list_elem_of_here _ _) E) as (date_str & -> & Hp).
  cbn. destruct (pystr.truthy date_str); [|done]. by rewrite Hp.
Qed.

(** X14.  A photo whose date tags hold the usual EXIF text is dated by its
    modification time: when every date tag that is present holds a text
    with between one and four colons (as [YYYY:MM:DD HH:MM:SS] and
    [YYYY:MM:DD] do), no tag is read, and [get_file_date_info] reports the
    modification time with the source [File modification time], or raises
    what [datetime.fromtimestamp] raises for a time out of range. *)
Theorem usual_exif_timestamps_fall_back_to_mtime s w file_name f exif_data :
  let file_path := os.path.join (target_folder_path s) file_name in
  fs w !! file_path = Some (File f) →
  image f = Exif exif_data →
  (∀ field_id v,
     field_id ∈ date_fields → exif_data !! field_id = Some v →
     ∃ date_str, v = Text date_str ∧ 1 ≤ str_count ":" date_str ≤ 4) →
  get_file_date_info file_name (mkState s w)
  = (match datetime.fromtimestamp (mtime f) with
     | Ok d => Ok (info_of s "File modification time" d)
     | Raise e => Raise e
     end, mkState s w).
Proof.
  intros file_path Hfile Himage Htags. rewrite get_file_date_info_run.
  cbn [self world]. fold file_path. unfold os.stat, resolved_date.
  rewrite Hfile. cbn [mbind result_bind os.st_mtime node_mtime].
  assert (exif_date_of w file_path = None) as ->.
  2:{ by destruct (datetime.fromtimestamp _). }
  unfold exif_date_of. destruct (negb _); [done|]. destruct (negb _); [done|].
  unfold PIL.getexif. rewrite Hfile, Himage.
  rewrite probe_fields_all_rejected; [done|].
  intros field_id v Hin Hlook.
  destruct (Htags field_id v Hin Hlook) as (date_str & -> & Hlo & Hhi).
  exists date_str. split; [done|].
  unfold parse_exif_value.
  rewrite (proj2 (contains_str_count date_str)) by done.
  destruct (datetime.strptime _ _) as [d|e] eqn:E; cbn.
  - exfalso. apply strptime_colons in E.
    rewrite !str_count_replace in E by done.
    vm_compute literal_colons in E. lia.
  - by apply strptime_raises in E as ->.
Qed.

Lemma usual_exif_timestamps_fall_back_to_mtime_witness :
  (get_file_date_info "b.jpg" (mkState engine world_photos)).1
  = Ok {| date := "2024-03-10"; source := "File modification time";
          original_date := noon 2024 3 10;
          datetime_original := "2024-03-10 12:00:00" |}.
Proof.
  rewrite (usual_exif_timestamps_fall_back_to_mtime engine world_photos "b.jpg"
             (mkfile "b" (noon 2024 3 10)
                (Exif {[ 36867%Z := Text "2023:01:15 10:20:30" ]}))
             {[ 36867%Z := Text "2023:01:15 10:20:30" ]}).
  - reflexivity.
  - vm_compute. reflexivity.
  - reflexivity.
  - intros field_id v Hin Hlook. exists "2023:01:15 10:20:30".
    assert (v = Text "2023:01:15 10:20:30") as ->.
    { repeat (apply elem_of_cons in Hin as [->|Hin]);
        [vm_compute in Hlook; congruence..|by apply elem_of_nil in Hin]. }
    split; [done|]. vm_compute. lia.
Defined.

(** What the directives of a format without [%H], [%M] and [%S] leave of
    the time fields. *)
Lemma set_field_time c v acc :
  c ≠ "H"%char → c ≠ "M"%char → c ≠ "S"%char →
  datetime.fH (datetime.set_field c v acc) = datetime.fH acc
  ∧ datetime.fM (datetime.set_field c v acc) = datetime.fM acc
  ∧ datetime.fS (datetime.set_field c v acc) = datetime.fS acc.
Proof.
  intros HH HM HS.
  destruct c as [[] [] [] [] [] [] [] []]; try done.
Qed.

Lemma match_items_time its s acc f r :
  (∀ c, datetime.Directive c ∈ its →
        c ≠ "H"%char ∧ c ≠ "M"%char ∧ c ≠ "S"%char) →
  (f, r) ∈ datetime.match_items its s acc →
  datetime.fH f = datetime.fH acc
  ∧ datetime.fM f = datetime.fM acc
  ∧ datetime.fS f = datetime.fS acc.
Proof.
  revert s acc. induction its as [|it its IH]; intros s acc Hdir; cbn.
  - by intros [= <- <-]%list_elem_of_singleton.
  - assert (∀ c, datetime.Directive c ∈ its →
                 c ≠ "H"%char ∧ c ≠ "M"%char ∧ c ≠ "S"%char) as Hdir'.
    { intros c Hc. apply Hdir. by right. }
    destruct it as [c| |c].
    + intros (alt & Halt & Hin)%list_elem_of_In%in_flat_map.
      apply list_elem_of_In in Hin.
      destruct (datetime.match_alt alt s) as [[m1 r1]|];
        [|by apply elem_of_nil in Hin].
      apply IH in Hin as (-> & -> & ->); [|done].
      destruct (Hdir c (list_elem_of_here _ _)) as (? & ? & ?).
      by apply set_field_time.
    + intros (k & Hk & Hin)%list_elem_of_In%in_flat_map.
      apply list_elem_of_In in Hin. by apply IH in Hin.
    + destruct s as [|a s]; [by intros ?%elem_of_nil|].
      case_decide; [|by intros ?%elem_of_nil]. by apply IH.
Qed.

Lemma strptime_date_only s fmt d :
  fmt ∈ ["%Y-%m-%d"; "%Y/%m/%d"] →
  datetime.strptime s fmt = Ok d →
  datetime.hour d = 0 ∧ datetime.minute d = 0 ∧ datetime.second d = 0.
Proof.
  intros Hfmt. unfold datetime.strptime.
  destruct (datetime.match_items _ _ _) as [|[f [|a r]] l] eqn:E; try done.
  assert (datetime.fH f = None ∧ datetime.fM f = None ∧ datetime.fS f = None)
    as (HH & HM & HS).
  { apply (match_items_time
             (datetime.compile (String.list_ascii_of_string fmt))
             (String.list_ascii_of_string s) datetime.no_fields f []);
      [|rewrite E; left].
    intros c Hc.
    apply elem_of_cons in Hfmt as [->|Hfmt];
      [|apply list_elem_of_singleton in Hfmt as ->];
      vm_compute in Hc;
      repeat (apply elem_of_cons in Hc as [Hc|Hc];
              [first [discriminate Hc|injection Hc as ->; by split_and!]|]);
      by apply elem_of_nil in Hc. }
  unfold datetime.construct. rewrite HH, HM, HS. cbn.
  destruct (_ && _); [|done]. by intros [= <-].
Qed.

(** X15.  For a tag value without a colon the first of the three formats
    tried, [%Y-%m-%d %H:%M:%S], can never match; the value is read by
    [%Y-%m-%d] or by [%Y/%m/%d] or not at all, no exception leaves the
    loop over the formats, and a date that is read is a date at
    midnight. *)
Theorem exif_value_without_colon_is_a_date date_str :
  pystr.contains ":" date_str = false →
  parse_exif_value date_str = try_formats date_str ["%Y-%m-%d"; "%Y/%m/%d"]
  ∧ (∃ o, parse_exif_value date_str = Ok o)
  ∧ ∀ d, parse_exif_value date_str = Ok (Some d) →
         datetime.hour d = 0 ∧ datetime.minute d = 0 ∧ datetime.second d = 0.
Proof.
  intros Hc.
  assert (parse_exif_value date_str
          = try_formats date_str ["%Y-%m-%d"; "%Y/%m/%d"]) as Heq.
  { unfold parse_exif_value. rewrite Hc. cbn [try_formats].
    destruct (datetime.strptime date_str "%Y-%m-%d %H:%M:%S") as [d|e] eqn:E.
    - exfalso. apply strptime_colons in E. vm_compute literal_colons in E.
      pose proof (contains_str_count date_str) as Hcount.
      rewrite Hc in Hcount. destruct Hcount as [_ Hcount].
      rewrite E in Hcount. by specialize (Hcount ltac:(lia)).
    - by apply strptime_raises in E as ->. }
  rewrite Heq. split; [done|]. rewrite try_formats_first_parse.
  split; [eauto|]. intros d [= Hd]. revert Hd. unfold first_parse. cbn.
  destruct (datetime.strptime date_str "%Y-%m-%d") as [d1|] eqn:E1; cbn.
  - intros [= <-]. eapply strptime_date_only; [|done]. left.
  - destruct (datetime.strptime date_str "%Y/%m/%d") as [d2|] eqn:E2; cbn; [|done].
    intros [= <-]. eapply strptime_date_only; [|done]. right. left.
Qed.

Lemma exif_value_without_colon_is_a_date_witness :
  parse_exif_value "2023/01/15" = Ok (Some (datetime.mk 2023 1 15 0 0 0)).
Proof.
  destruct (exif_value_without_colon_is_a_date "2023/01/15") as (-> & _).
  - reflexivity.
  - vm_compute. reflexivity.
Defined.

(** ** The preview *)

Lemma group_step_lookup date_groups l x k :
  (∀ k, date_groups !! k = group_of k l) →
  group_step date_groups x !! k = group_of k (l ++ [x]).
Proof.
  intros Hinv. unfold group_step, group_of.
  rewrite filter_app, filter_cons, filter_nil.
  destruct (decide (preview.date x = k)) as [<-|Hne].
  - rewrite lookup_insert_eq. rewrite (Hinv (preview.date x)). unfold group_of.
    destruct (filter _ l) as [|y g] eqn:E.
    + by rewrite lookup_insert_eq.
    + rewrite Hinv. unfold group_of. rewrite E. done.
  - rewrite app_nil_r, lookup_insert_ne by done.
    destruct (date_groups !! preview.date x);
      [|rewrite lookup_insert_ne by done]; apply Hinv.
Qed.

Lemma group_fold_lookup l0 l date_groups :
  (∀ k, date_groups !! k = group_of k l0) →
  ∀ k, foldl group_step date_groups l !! k = group_of k (l0 ++ l).
Proof.
  revert l0 date_groups. induction l as [|x l IH]; intros l0 date_groups Hinv k.
  - by rewrite app_nil_r.
  - cbn [foldl]. rewrite (IH (l0 ++ [x])); [by rewrite <-app_assoc|].
    intros k'. by apply group_step_lookup.
Qed.

Lemma preview_round_run file_name acc st info :
  get_file_date_info file_name st = (Ok info, st) →
  preview_round file_name acc st
  = (Ok (acc ++ [{| preview.name := file_name; preview.date := date info;
                    preview.source := source info;
                    preview.source_path :=
                      os.path.join (target_folder_path (self st)) file_name |}]),
     st).
Proof.
  intros Hinfo. unfold preview_round, try_except, try_except_if.
  by rewrite run_bind, Hinfo.
Qed.

Lemma preview_round_skip file_name acc st e :
  get_file_date_info file_name st = (Raise e, st) →
  preview_round file_name acc st = (Ok acc, st).
Proof.
  intros Hinfo. unfold preview_round, try_except, try_except_if.
  by rewrite run_bind, Hinfo.
Qed.

Lemma files_with_dates_loop st names acc :
  ∃ l,
    for_ names preview_round acc st = (Ok (acc ++ l), st)
    ∧ preview.name <$> l = dated st names
    ∧ ∀ x, x ∈ l →
        ∃ info, get_file_date_info (preview.name x) st = (Ok info, st)
                ∧ preview.date x = date info
                ∧ preview.source x = source info
                ∧ preview.source_path x
                  = os.path.join (target_folder_path (self st)) (preview.name x).
Proof.
  unfold dated. revert acc. induction names as [|name names IH]; intros acc.
  - exists []. rewrite app_nil_r. split_and!; [done..|].
    intros x Hx. by apply elem_of_nil in Hx.
  - rewrite for_cons, filter_cons.
    pose proof (pure_run _ st (get_file_date_info_pure name)) as Hpure.
    destruct (get_file_date_info name st).1 as [info|e] eqn:E.
    + rewrite (preview_round_run name acc st info Hpure).
      destruct (IH (acc ++ [{| preview.name := name; preview.date := date info;
                               preview.source := source info;
                               preview.source_path :=
                                 os.path.join (target_folder_path (self st)) name |}]))
        as (l & -> & Hl & Hall).
      eexists (_ :: l). rewrite <-app_assoc. split_and!; [done| |].
      * cbn [is_Ok]. rewrite decide_True by done. cbn. by rewrite Hl.
      * intros x [->|Hx]%elem_of_cons; [|by apply Hall]. cbn. eauto.
    + rewrite (preview_round_skip name acc st e Hpure).
      destruct (IH acc) as (l & -> & Hl & Hall).
      exists l. split_and!; [done| |done].
      cbn [is_Ok]. by rewrite decide_False by done.
Qed.

Lemma preview_organization_run st names :
  os.listdir (fs (world st)) (target_folder_path (self st)) = Ok names →
  ∃ shown,
    preview_organization st = (Ok (foldl group_step ∅ shown), st)
    ∧ preview.name <$> shown = dated st names
    ∧ ∀ x, x ∈ shown →
        ∃ info, get_file_date_info (preview.name x) st = (Ok info, st)
                ∧ preview.date x = date info
                ∧ preview.source x = source info
                ∧ preview.source_path x
                  = os.path.join (target_folder_path (self st)) (preview.name x).
Proof.
  intros Els. unfold preview_organization, files_with_dates.
  rewrite !run_bind, get_target_files_run, Els. fold preview_round.
  destruct (files_with_dates_loop st names []) as (l & -> & Hl & Hall).
  by exists l.
Qed.

(** X16.  When [preview_organization] returns, it has changed nothing, the
    source directory could be listed, and the dictionary returned is the
    listing grouped by date: the names shown are the listed names whose
    date [get_file_date_info] can read, in the order of the listing (a
    name whose date read raises is left out), each with the date and the
    date source that [get_file_date_info] reports for it; under every
    date stand the files of that date in the order of the listing, and
    there is no date without a file. *)
Theorem preview_groups_the_listing st date_groups st' :
  preview_organization st = (Ok date_groups, st') →
  st' = st
  ∧ ∃ names shown,
      os.listdir (fs (world st)) (target_folder_path (self st)) = Ok names
      ∧ preview.name <$> shown
        = filter (λ n, is_Ok (get_file_date_info n st).1 = true) names
      ∧ (∀ x, x ∈ shown →
           ∃ info, get_file_date_info (preview.name x) st = (Ok info, st)
                   ∧ preview.date x = date info
                   ∧ preview.source x = source info
                   ∧ preview.source_path x
                     = os.path.join (target_folder_path (self st))
                         (preview.name x))
      ∧ ∀ k, date_groups !! k
             = match filter (λ x, preview.date x = k) shown with
               | [] => None
               | g => Some g
               end.
Proof.
  intros Hrun.
  destruct (os.listdir (fs (world st)) (target_folder_path (self st)))
    as [names|err] eqn:Els.
  2:{ revert Hrun. unfold preview_organization, files_with_dates.
      by rewrite !run_bind, get_target_files_run, Els. }
  destruct (preview_organization_run st names Els) as (shown & Hrun' & Hshown & Hall).
  rewrite Hrun' in Hrun. injection Hrun as <- <-. split; [done|].
  exists names, shown. split_and!; [done..|].
  intros k. by rewrite (group_fold_lookup [] shown ∅).
Qed.

Lemma preview_groups_the_listing_witness :
  ∃ names,
    os.listdir (fs world_subdir) ["src"] = Ok names
    ∧ length names = 2.
Proof.
  destruct (preview_groups_the_listing (mkState engine world_subdir)
              (default ∅ (to_option (preview_organization (mkState engine world_subdir)).1))
              (mkState engine world_subdir)) as (_ & names & shown & Hls & _).
  - vm_compute. reflexivity.
  - exists names. split; [exact Hls|].
    vm_compute in Hls. by injection Hls as <-.
Defined.

(** The date under which a batch files an entry of its manifest. *)
Lemma copy_entry_date st entries errors st' e :
  copy st = (Ok (entries, errors), st') → e ∈ entries →
  ∃ info, get_file_date_info (file e) st = (Ok info, st)
          ∧ date_folder e = date info
          ∧ date_source e = source info
          ∧ from e = os.path.join (target_folder_path (self st)) (file e)
          ∧ is_Some (fs (world st) !! from e).
Proof.
  intros Hcopy He.
  apply copy_run_data in Hcopy
    as (fsA & fs1 & names & [[HsubA HfilesA] _] & _ & Hinv & Hdata & _ & ->).
  destruct (Hdata e He) as (f & info & Hfrom & _ & Hinfo & Hdate & Hsource & _).
  destruct Hinv as (_ & _ & Hdone & _).
  destruct (Hdone e He) as (_ & _ & _ & Hfrome & _).
  pose proof (HfilesA _ _ Hfrom) as Hfrom0.
  exists info. split_and!; [|done..|eauto].
  rewrite (pure_run _ st (get_file_date_info_pure (file e))). f_equal.
  rewrite <-Hinfo, <-(with_fs_id st) at 1.
  apply get_file_date_info_local; rewrite <-Hfrome; [eauto|congruence].
Qed.

Lemma move_entry_date st entries errors st' e :
  (∀ n, is_dir (fs (world st) !! os.path.join (target_folder_path (self st)) n)
        = false) →
  move st = (Ok (entries, errors), st') → e ∈ entries →
  ∃ info, get_file_date_info (file e) st = (Ok info, st)
          ∧ date_folder e = date info
          ∧ date_source e = source info
          ∧ from e = os.path.join (target_folder_path (self st)) (file e)
          ∧ is_Some (fs (world st) !! from e).
Proof.
  intros Hnodir Hmove He. pose proof (move_run st) as Hrun.
  destruct (os.listdir _ _) as [names|err] eqn:Els; [|by rewrite Hrun in Hmove].
  destruct Hrun as (entries' & errors' & fs' & Hloop & Hrun).
  rewrite Hrun in Hmove. injection Hmove as <- <- <-.
  destruct (move_loop_data st (fs (world st)) names [])
    as (d & er & f & Hloop' & _ & _ & _ & _ & Hdone).
  { by eapply listdir_NoDup. }
  { intros n Hn. apply (elem_of_listdir _ _ _ n Els) in Hn as [node Hn].
    specialize (Hnodir n). unfold os.path.join in *. rewrite Hn in Hnodir |- *.
    by destruct node. }
  rewrite with_fs_id, Hloop in Hloop'. injection Hloop' as <- <- <-.
  destruct (Hdone e He) as (g & info & H1 & H2 & H3 & H4 & H5 & H6 & _).
  exists info. split_and!; [|done..|eauto].
  rewrite with_fs_id in H4.
  by rewrite (pure_run _ st (get_file_date_info_pure (file e))), H4.
Qed.

Lemma previewed_entry st names shown e info :
  os.listdir (fs (world st)) (target_folder_path (self st)) = Ok names →
  preview.name <$> shown = dated st names →
  (∀ x, x ∈ shown →
     ∃ info, get_file_date_info (preview.name x) st = (Ok info, st)
             ∧ preview.date x = date info
             ∧ preview.source x = source info
             ∧ preview.source_path x
               = os.path.join (target_folder_path (self st)) (preview.name x)) →
  get_file_date_info (file e) st = (Ok info, st) →
  date_folder e = date info → date_source e = source info →
  from e = os.path.join (target_folder_path (self st)) (file e) →
  is_Some (fs (world st) !! from e) →
  ∃ g x, foldl group_step ∅ shown !! date_folder e = Some g
         ∧ x ∈ g
         ∧ preview.name x = file e
         ∧ preview.source x = date_source e
         ∧ preview.source_path x = from e.
Proof.
  intros Els Hshown Hall Hinfo Hdate Hsource Hfrom Hex.
  assert (file e ∈ names) as Hin.
  { apply (elem_of_listdir _ _ _ _ Els). by rewrite Hfrom in Hex. }
  assert (file e ∈ dated st names) as Hin'.
  { apply list_elem_of_filter. split; [by rewrite Hinfo|done]. }
  clear Hin. rename Hin' into Hin.
  rewrite <-Hshown in Hin. apply list_elem_of_fmap in Hin as (x & Hx & Hxin).
  destruct (Hall x Hxin) as (info' & Hinfo' & Hd & Hs & Hp).
  rewrite <-Hx, Hinfo in Hinfo'. injection Hinfo' as <-.
  rewrite (group_fold_lookup [] shown ∅) by done. cbn [app].
  unfold group_of.
  assert (x ∈ filter (λ y, preview.date y = date_folder e) shown) as Hxg.
  { apply list_elem_of_filter. split; [congruence|done]. }
  destruct (filter _ shown) as [|y g] eqn:E; [by apply elem_of_nil in Hxg|].
  exists (y :: g), x. split_and!; [done..| | |]; congruence.
Qed.

(** X17.  The preview shows what a batch will do.  Every manifest entry of
    a [copy] started in the previewed state is shown in the preview under
    the date that names its bucket, with the same date source and source
    path; and so is every manifest entry of a [move] when the source
    directory holds no subdirectory. *)
Theorem preview_shows_the_buckets st date_groups st0 :
  preview_organization st = (Ok date_groups, st0) →
  (∀ entries errors st' e,
     copy st = (Ok (entries, errors), st') → e ∈ entries →
     ∃ g x, date_groups !! date_folder e = Some g
            ∧ x ∈ g
            ∧ preview.name x = file e
            ∧ preview.source x = date_source e
            ∧ preview.source_path x = from e)
  ∧ ((∀ n, is_dir (fs (world st)
                     !! os.path.join (target_folder_path (self st)) n) = false) →
     ∀ entries errors st' e,
       move st = (Ok (entries, errors), st') → e ∈ entries →
       ∃ g x, date_groups !! date_folder e = Some g
              ∧ x ∈ g
              ∧ preview.name x = file e
              ∧ preview.source x = date_source e
              ∧ preview.source_path x = from e).
Proof.
  intros Hpreview.
  destruct (os.listdir (fs (world st)) (target_folder_path (self st)))
    as [names|err] eqn:Els.
  2:{ revert Hpreview. unfold preview_organization, files_with_dates.
      by rewrite !run_bind, get_target_files_run, Els. }
  destruct (preview_organization_run st names Els) as (shown & Hrun & Hshown & Hall).
  rewrite Hrun in Hpreview. injection Hpreview as <- <-.
  split.
  - intros entries errors st' e Hcopy He.
    destruct (copy_entry_date _ _ _ _ _ Hcopy He) as (info & ? & ? & ? & ? & ?).
    by eapply previewed_entry.
  - intros Hnodir entries errors st' e Hmove He.
    destruct (move_entry_date _ _ _ _ _ Hnodir Hmove He) as (info & ? & ? & ? & ? & ?).
    by eapply previewed_entry.
Qed.

Lemma preview_shows_the_buckets_witness :
  ∃ g x, (default ∅ (to_option (preview_organization (mkState engine world_subdir)).1))
           !! "2024-03-10" = Some g
         ∧ x ∈ g ∧ preview.name x = "doc.txt".
Proof.
  destruct (preview_shows_the_buckets (mkState engine world_subdir)
              (default ∅ (to_option (preview_organization (mkState engine world_subdir)).1))
              (mkState engine world_subdir)) as [Hcopy _].
  - vm_compute. reflexivity.
  - destruct (Hcopy [doc_entry] ["Error processing file 'sub': Is a directory"]
                (copy (mkState engine world_subdir)).2 doc_entry)
      as (g & x & Hg & Hx & Hn & _).
    + vm_compute. reflexivity.
    + left.
    + exists g, x. split_and!; [exact Hg|exact Hx|exact Hn].
Defined.

(** ** The history as a queue *)

Lemma track_loop ops st :
  length (operation_history (self st)) ≤ 10 →
  ∃ s',
    for_ ops (λ (op : string * list file_info) (_ : unit),
                _track_operation op.1 op.2) () st
    = (Ok (), mkState s' (world st))
    ∧ operation_history s'
      = (let all := operation_history (self st)
                    ++ ((λ op : string * list file_info,
                           mk_operation op.1 op.2 (clock (world st))) <$> ops) in
         drop (length all - 10) all)
    ∧ last_operation s'
      = from_option Some (last_operation (self st))
          (last ((λ op : string * list file_info,
                    mk_operation op.1 op.2 (clock (world st))) <$> ops))
    ∧ target_folder_path s' = target_folder_path (self st)
    ∧ destination_folder_path s' = destination_folder_path (self st)
    ∧ format_type s' = format_type (self st).
Proof.
  revert st. induction ops as [|op ops IH]; intros st Hlen.
  - exists (self st). cbn. rewrite app_nil_r.
    replace (length (operation_history (self st)) - 10) with 0 by lia.
    by destruct st.
  - rewrite for_cons, _track_operation_run.
    set (op1 := mk_operation op.1 op.2 (clock (world st))).
    destruct (IH (mkState (track (self st) op1) (world st))) as (s' & -> & Hh & Hl & Ht).
    { cbn [self]. rewrite track_history_drop by done.
      rewrite length_drop, length_app. cbn. lia. }
    exists s'. cbn [self world] in *. split_and!; [done| | |apply Ht..].
    + rewrite Hh. cbn zeta. rewrite track_history_drop by done.
      rewrite drop_latest, fmap_cons, <-app_assoc. done.
    + rewrite Hl, fmap_cons. fold op1.
      destruct ((λ op0 : string * list file_info,
                   mk_operation op0.1 op0.2 (clock (world st))) <$> ops)
        as [|o l] eqn:E; [reflexivity|].
      rewrite last_cons_cons.
      destruct (last (o :: l)) as [x|] eqn:El; [done|]. by apply last_None in El.
Qed.

(** X18.  The history is a queue of the ten latest operations.  Starting
    from a history of at most ten entries (an empty one after
    [__init__]), any number of calls of [_track_operation] leaves the
    history holding the last ten of the old entries followed by the new
    operations, oldest first; the last operation is the one recorded
    last; and the folders, the date format and the world are untouched. *)
Theorem operation_history_keeps_the_latest
    (ops : list (string * list file_info)) st :
  length (operation_history (self st)) ≤ 10 →
  let recorded :=
    (λ op : string * list file_info,
       mk_operation op.1 op.2 (clock (world st))) <$> ops in
  let all := operation_history (self st) ++ recorded in
  ∃ st',
    for_ ops (λ (op : string * list file_info) (_ : unit),
                _track_operation op.1 op.2) () st = (Ok (), st')
    ∧ operation_history (self st') = drop (length all - 10) all
    ∧ length (operation_history (self st')) = length all `min` 10
    ∧ last_operation (self st')
      = from_option Some (last_operation (self st)) (last recorded)
    ∧ target_folder_path (self st') = target_folder_path (self st)
    ∧ destination_folder_path (self st') = destination_folder_path (self st)
    ∧ format_type (self st') = format_type (self st)
    ∧ world st' = world st.
Proof.
  intros Hlen recorded all.
  destruct (track_loop ops st Hlen) as (s' & Hrun & Hh & Hl & Ht & Hd & Hf).
  exists (mkState s' (world st)). cbn [self world].
  split_and!; try done.
  rewrite Hh. cbn zeta. fold recorded all. rewrite length_drop. lia.
Qed.

Lemma operation_history_keeps_the_latest_witness :
  ∃ st',
    for_ (replicate 12 ("copy", [doc_entry]))
      (λ (op : string * list file_info) (_ : unit), _track_operation op.1 op.2)
      () (mkState engine world_plain) = (Ok (), st')
    ∧ length (operation_history (self st')) = 10.
Proof.
  destruct (operation_history_keeps_the_latest
              (replicate 12 ("copy", [doc_entry])) (mkState engine world_plain))
    as (st' & Hrun & _ & Hlen & _).
  - cbn. lia.
  - exists st'. split; [exact Hrun|]. etrans; [exact Hlen|]. reflexivity.
Defined.

(** ** Undoing twice *)

(** X19.  An undo that succeeded cannot be repeated: it has cleared the
    last operation, so a second [undo_last_action] returns [False] and
    changes nothing.  The history is not rewound: it still lists the
    operation that was undone. *)
Theorem undo_is_not_repeatable st st' :
  undo_last_action st = (Ok true, st') →
  undo_last_action st' = (Ok false, st')
  ∧ last_operation (self st') = None
  ∧ operation_history (self st') = operation_history (self st).
Proof.
  intros Hundo.
  assert (self st' = clear_last (self st)) as Hself.
  { revert Hundo. rewrite undo_last_action_run.
    destruct (last_operation (self st)) as [op|]; [|done].
    destruct (decide (type op = "move")).
    - destruct (_undo_move_operation_shape (files op) st) as (b & st1 & -> & Hs).
      by intros [= -> ->].
    - destruct (decide (type op = "copy")); [|done].
      destruct (_undo_copy_operation_shape (files op) st) as (b & st1 & -> & Hs).
      by intros [= -> ->]. }
  rewrite undo_last_action_run, Hself. by split_and!.
Qed.

Lemma undo_is_not_repeatable_witness :
  (undo_last_action
     (undo_last_action (copy (mkState engine world_plain)).2).2).1 = Ok false.
Proof.
  destruct (undo_is_not_repeatable (copy (mkState engine world_plain)).2
              (undo_last_action (copy (mkState engine world_plain)).2).2)
    as (Hagain & _).
  - vm_compute. reflexivity.
  - rewrite Hagain. reflexivity.
Defined.

(** ** The names of the buckets *)

Lemma pretty_N_char_dig x : datetime.dig (pretty_N_char x) = true.
Proof. unfold pretty_N_char. by repeat case_match. Qed.

Lemma pretty_N_go_dig x s :
  Forall (λ a, datetime.dig a = true) (String.list_ascii_of_string s) →
  Forall (λ a, datetime.dig a = true)
    (String.list_ascii_of_string (pretty_N_go x s)).
Proof.
  revert s. induction (N.lt_wf_0 x) as [x _ IH]; intros s Hs.
  destruct (decide (x = 0%N)) as [->|Hx]; [by rewrite pretty_N_go_0|].
  rewrite pretty_N_go_step by lia. apply IH.
  - apply N.div_lt; lia.
  - constructor; [apply pretty_N_char_dig|done].
Qed.

Lemma pretty_nat_dig (n : nat) :
  Forall (λ a, datetime.dig a = true) (String.list_ascii_of_string (pretty n)).
Proof.
  unfold pretty, pretty_nat, pretty, pretty_N. case_decide.
  - by repeat constructor.
  - apply pretty_N_go_dig. constructor.
Qed.

Lemma pretty_N_go_nonempty x a s : pretty_N_go x (String a s) ≠ "".
Proof.
  revert a s. induction (N.lt_wf_0 x) as [x _ IH]; intros a s.
  destruct (decide (x = 0%N)) as [->|Hx]; [by rewrite pretty_N_go_0|].
  rewrite pretty_N_go_step by lia. apply IH. apply N.div_lt; lia.
Qed.

Lemma pretty_nat_nonempty (n : nat) : pretty n ≠ "".
Proof.
  unfold pretty, pretty_nat, pretty, pretty_N. case_decide; [done|].
  rewrite pretty_N_go_step by lia. apply pretty_N_go_nonempty.
Qed.

Lemma list_ascii_of_string_app s t :
  String.list_ascii_of_string (s +:+ t)
  = String.list_ascii_of_string s ++ String.list_ascii_of_string t.
Proof.
  induction s as [|a s IH]; [done|].
  change (String a s +:+ t) with (String a (s +:+ t)). cbn. by f_equal.
Qed.

Lemma string_app_nil_r s : s +:+ "" = s.
Proof.
  induction s as [|a s IH]; [done|].
  change (String a s +:+ "") with (String a (s +:+ "")). by f_equal.
Qed.

Lemma string_app_inj_length s1 s2 t1 t2 :
  String.length t1 = String.length t2 →
  s1 +:+ t1 = s2 +:+ t2 → s1 = s2 ∧ t1 = t2.
Proof.
  intros Hlen. revert s2. induction s1 as [|a s1 IH]; intros [|b s2] Heq.
  - done.
  - apply (f_equal String.length) in Heq.
    rewrite !string_length_app in Heq. cbn [String.length] in Heq. lia.
  - apply (f_equal String.length) in Heq.
    rewrite !string_length_app in Heq. cbn [String.length] in Heq. lia.
  - change (String a (s1 +:+ t1) = String b (s2 +:+ t2)) in Heq.
    injection Heq as -> Heq. apply IH in Heq as [-> ->]. done.
Qed.

Lemma string_app_inj_length_l s1 s2 t1 t2 :
  String.length s1 = String.length s2 →
  s1 +:+ t1 = s2 +:+ t2 → s1 = s2 ∧ t1 = t2.
Proof.
  revert s2. induction s1 as [|a s1 IH]; intros [|b s2] Hlen Heq; try done.
  change (String a (s1 +:+ t1) = String b (s2 +:+ t2)) in Heq.
  injection Heq as -> Heq. cbn in Hlen. apply IH in Heq as [-> ->]; [done|lia].
Qed.

(** Two digits for every number below one hundred, and the number can be
    read back. *)
Lemma pad2_spec n :
  n < 100 →
  String.length (datetime.pad2 n) = 2
  ∧ datetime.value (String.list_ascii_of_string (datetime.pad2 n)) = n.
Proof.
  intros Hn.
  assert (forallb (λ n, (String.length (datetime.pad2 n) =? 2)
                        && (datetime.value
                              (String.list_ascii_of_string (datetime.pad2 n)) =? n))
            (seq 0 100) = true) as Hall by (vm_compute; reflexivity).
  rewrite forallb_forall in Hall. specialize (Hall n).
  rewrite andb_true_iff, !Nat.eqb_eq in Hall. apply Hall, in_seq. lia.
Qed.

Lemma pad2_inj n n' :
  n < 100 → n' < 100 → datetime.pad2 n = datetime.pad2 n' → n = n'.
Proof.
  intros [_ Hn]%pad2_spec [_ Hn']%pad2_spec Heq. by rewrite <-Hn, <-Hn', Heq.
Qed.

Lemma pad2_dig n :
  Forall (λ a, datetime.dig a = true)
    (String.list_ascii_of_string (datetime.pad2 n)).
Proof.
  unfold datetime.pad2. destruct (n <? 10); [|apply pretty_nat_dig].
  rewrite list_ascii_of_string_app. apply Forall_app. split.
  - by repeat constructor.
  - apply pretty_nat_dig.
Qed.

Lemma pad2_nonempty n : datetime.pad2 n ≠ "".
Proof.
  unfold datetime.pad2. destruct (n <? 10); [done|apply pretty_nat_nonempty].
Qed.

(** X20.  A bucket name is a safe folder name that tells the calendar
    date.  Whatever the format selector, the name that [strftime] makes of
    a date with the format of [format_date] is not empty and consists of
    digits and hyphens only (so it holds no path separator and adds a
    single path component); and for dates with month and day below one
    hundred, two dates get the same bucket exactly when they agree in
    year, month and day. *)
Theorem bucket_name_tells_the_date s d d' :
  let bucket x := datetime.strftime x (format_date s) in
  bucket d ≠ ""
  ∧ Forall (λ a, datetime.dig a = true ∨ a = "-"%char)
      (String.list_ascii_of_string (bucket d))
  ∧ (datetime.month d < 100 → datetime.day d < 100 →
     datetime.month d' < 100 → datetime.day d' < 100 →
     bucket d = bucket d'
     ↔ datetime.year d = datetime.year d'
       ∧ datetime.month d = datetime.month d'
       ∧ datetime.day d = datetime.day d').
Proof.
  intros bucket.
  assert (∀ n : nat, Forall (λ a, datetime.dig a = true ∨ a = "-"%char)
                 (String.list_ascii_of_string (pretty n))) as Hy.
  { intros n. eapply Forall_impl; [apply pretty_nat_dig|]. by left. }
  assert (∀ n, Forall (λ a, datetime.dig a = true ∨ a = "-"%char)
                 (String.list_ascii_of_string (datetime.pad2 n))) as Hp.
  { intros n. eapply Forall_impl; [apply pad2_dig|]. by left. }
  assert (format_date s = "%d-%m-%Y" ∨ format_date s = "%m-%d-%Y"
          ∨ format_date s = "%Y-%m-%d") as Hfmt.
  { unfold format_date. repeat case_decide; auto. }
  unfold bucket.
  destruct d as [y m dd hh mi ss], d' as [y' m' dd' hh' mi' ss'].
  cbn [datetime.year datetime.month datetime.day].
  destruct Hfmt as [->|[->| ->]]; cbn [datetime.strftime datetime.directive
    datetime.year datetime.month datetime.day]; rewrite !string_app_nil_r.
  - (* DD-MM-YYYY *)
    split_and!.
    + intros Heq. apply (f_equal String.length) in Heq.
      rewrite string_length_app in Heq. cbn in Heq.
      pose proof (pad2_nonempty dd). destruct (datetime.pad2 dd); [done|cbn in Heq; lia].
    + rewrite list_ascii_of_string_app. apply Forall_app. split; [done|].
      constructor; [by right|].
      rewrite list_ascii_of_string_app. apply Forall_app. split; [done|].
      constructor; [by right|done].
    + intros Hm Hd Hm' Hd'. split.
      * intros Heq.
        destruct (pad2_spec dd Hd) as [L1 _], (pad2_spec dd' Hd') as [L1' _].
        destruct (pad2_spec m Hm) as [L2 _], (pad2_spec m' Hm') as [L2' _].
        apply string_app_inj_length_l in Heq as [Hdd Heq]; [|lia].
        injection Heq as Heq.
        apply string_app_inj_length_l in Heq as [Hmm Heq]; [|lia].
        injection Heq as Heq%(inj pretty).
        split_and!; [done|by apply pad2_inj..].
      * by intros (-> & -> & ->).
  - (* MM-DD-YYYY *)
    split_and!.
    + intros Heq. apply (f_equal String.length) in Heq.
      rewrite string_length_app in Heq. cbn in Heq.
      pose proof (pad2_nonempty m). destruct (datetime.pad2 m); [done|cbn in Heq; lia].
    + rewrite list_ascii_of_string_app. apply Forall_app. split; [done|].
      constructor; [by right|].
      rewrite list_ascii_of_string_app. apply Forall_app. split; [done|].
      constructor; [by right|done].
    + intros Hm Hd Hm' Hd'. split.
      * intros Heq.
        destruct (pad2_spec dd Hd) as [L1 _], (pad2_spec dd' Hd') as [L1' _].
        destruct (pad2_spec m Hm) as [L2 _], (pad2_spec m' Hm') as [L2' _].
        apply string_app_inj_length_l in Heq as [Hmm Heq]; [|lia].
        injection Heq as Heq.
        apply string_app_inj_length_l in Heq as [Hdd Heq]; [|lia].
        injection Heq as Heq%(inj pretty).
        split_and!; [done|by apply pad2_inj..].
      * by intros (-> & -> & ->).
  - (* YYYY-MM-DD *)
    split_and!.
    + intros Heq. apply (f_equal String.length) in Heq.
      rewrite string_length_app in Heq. cbn in Heq.
      pose proof (pretty_nat_nonempty y). destruct (pretty y); [done|cbn in Heq; lia].
    + rewrite list_ascii_of_string_app. apply Forall_app. split; [done|].
      constructor; [by right|].
      rewrite list_ascii_of_string_app. apply Forall_app. split; [done|].
      constructor; [by right|done].
    + intros Hm Hd Hm' Hd'. split.
      * intros Heq.
        destruct (pad2_spec dd Hd) as [L1 _], (pad2_spec dd' Hd') as [L1' _].
        destruct (pad2_spec m Hm) as [L2 _], (pad2_spec m' Hm') as [L2' _].
        apply string_app_inj_length in Heq as [Hyy%(inj pretty) Heq].
        2:{ cbn [String.length]. rewrite !string_length_app.
            cbn [String.length]. lia. }
        injection Heq as Heq.
        apply string_app_inj_length_l in Heq as [Hmm Heq]; [|lia].
        injection Heq as Hdd.
        split_and!; [done|by apply pad2_inj..].
      * by intros (-> & -> & ->).
Qed.

(** ** The EXIF values that are read *)

Lemma year_spec y :
  1000 ≤ y ≤ 9999 →
  ∃ a b c d,
    String.list_ascii_of_string (pretty y) = [a; b; c; d]
    ∧ datetime.dig a = true ∧ datetime.dig b = true
    ∧ datetime.dig c = true ∧ datetime.dig d = true
    ∧ datetime.value [a; b; c; d] = y.
Proof.
  intros Hy. change 9999 with (9 * 1111) in Hy.
  assert (forallb year_digits_ok (seq 1000 (9 * 1000)) = true) as Hall
    by (vm_compute; reflexivity).
  rewrite forallb_forall in Hall.
  assert (year_digits_ok y = true) as Hok by (apply Hall, in_seq; lia).
  unfold year_digits_ok in Hok.
  destruct (String.list_ascii_of_string (pretty y)) as [|a [|b [|c [|d [|]]]]];
    try discriminate Hok.
  rewrite !andb_true_iff, Nat.eqb_eq in Hok.
  destruct Hok as ((((?&?)&?)&?)&?). by exists a, b, c, d.
Qed.

Lemma match_year y its r acc :
  1000 ≤ y ≤ 9999 →
  datetime.match_items (datetime.Directive "Y" :: its)
    (String.list_ascii_of_string (pretty y) ++ r) acc
  = datetime.match_items its r (datetime.set_field "Y" y acc).
Proof.
  intros (a & b & c & d & -> & Ha & Hb & Hc & Hd & Hv)%year_spec.
  cbn [datetime.match_items datetime.alternatives flat_map app datetime.match_alt].
  rewrite Ha, Hb, Hc, Hd, Hv. by rewrite app_nil_r.
Qed.

Lemma match_literal c its r acc :
  datetime.match_items (datetime.Literal c :: its) (c :: r) acc
  = datetime.match_items its r acc.
Proof. cbn. by rewrite decide_True. Qed.

Lemma match_month n its r acc :
  1 ≤ n ≤ 12 →
  ∃ others,
    datetime.match_items (datetime.Directive "m" :: its)
      (String.list_ascii_of_string (datetime.pad2 n) ++ r) acc
    = datetime.match_items its r (datetime.set_field "m" n acc) ++ others.
Proof.
  intros Hn.
  do 13 (destruct n as [|n]; [try lia; eexists; cbn; reflexivity|]). lia.
Qed.

Lemma match_day n its r acc :
  1 ≤ n ≤ 31 →
  ∃ others,
    datetime.match_items (datetime.Directive "d" :: its)
      (String.list_ascii_of_string (datetime.pad2 n) ++ r) acc
    = datetime.match_items its r (datetime.set_field "d" n acc) ++ others.
Proof.
  intros Hn.
  do 32 (destruct n as [|n]; [try lia; eexists; cbn; reflexivity|]). lia.
Qed.

Lemma year_in_range y :
  1000 ≤ y ≤ 9999 → (1 <=? y) && (y <=? 9999) = true.
Proof.
  intros [Hlo Hhi]. apply andb_true_iff. split.
  - apply Nat.leb_le. lia.
  - by apply Nat.leb_le.
Qed.

(** A date written with the separator [sep] and read with the format that
    has this separator. *)
Lemma strptime_date sep y m dd :
  sep = "-"%char ∨ sep = "/"%char →
  1000 ≤ y ≤ 9999 → 1 ≤ m ≤ 12 → 1 ≤ dd ≤ datetime.days_in_month y m →
  datetime.strptime
    (pretty y +:+ String sep (datetime.pad2 m +:+ String sep (datetime.pad2 dd)))
    (String "%" (String "Y" (String sep (String "%" (String "m"
       (String sep (String "%" (String "d" EmptyString))))))))
  = Ok (datetime.mk y m dd 0 0 0).
Proof.
  intros Hsep Hy Hm Hd.
  assert (dd ≤ 31) as Hd31.
  { destruct Hd as [_ Hd]. etrans; [exact Hd|]. unfold datetime.days_in_month.
    repeat case_match; lia. }
  unfold datetime.strptime.
  rewrite list_ascii_of_string_app.
  change (String.list_ascii_of_string (String sep ?s))
    with (sep :: String.list_ascii_of_string s).
  rewrite list_ascii_of_string_app.
  change (String.list_ascii_of_string (String sep ?s))
    with (sep :: String.list_ascii_of_string s).
  assert (datetime.compile
            (String.list_ascii_of_string
               (String "%" (String "Y" (String sep (String "%" (String "m"
                  (String sep (String "%" (String "d" EmptyString)))))))))
          = [datetime.Directive "Y"; datetime.Literal sep; datetime.Directive "m";
             datetime.Literal sep; datetime.Directive "d"]) as ->.
  { by destruct Hsep as [->| ->]. }
  rewrite match_year by done. rewrite match_literal.
  destruct (match_month m [datetime.Literal sep; datetime.Directive "d"]
              (sep :: String.list_ascii_of_string (datetime.pad2 dd))
              (datetime.set_field "Y" y datetime.no_fields)) as (o1 & ->); [done|].
  rewrite match_literal.
  rewrite <-(app_nil_r (String.list_ascii_of_string (datetime.pad2 dd))).
  destruct (match_day dd []  []
              (datetime.set_field "m" m
                 (datetime.set_field "Y" y datetime.no_fields))) as (o2 & ->); [lia|].
  cbn [datetime.match_items app datetime.set_field datetime.no_fields
       datetime.fY datetime.fm datetime.fd datetime.fH datetime.fM datetime.fS].
  unfold datetime.construct.
  cbn [datetime.fY datetime.fm datetime.fd datetime.fH datetime.fM datetime.fS
       default from_option id].
  rewrite year_in_range by done.
  destruct Hm as [Hm1 Hm2], Hd as [Hd1 Hd2].
  apply Nat.leb_le in Hm1, Hm2, Hd1, Hd2. rewrite Hm1, Hm2, Hd1, Hd2. done.
Qed.

Lemma contains_false c s :
  c ∉ String.list_ascii_of_string s → pystr.contains c s = false.
Proof.
  induction s as [|a s IH]; [done|]. cbn.
  intros [Ha Hs]%not_elem_of_cons. rewrite decide_False by done. by apply IH.
Qed.

Lemma date_text_without_colon sep (y m dd : nat) :
  sep = "-"%char ∨ sep = "/"%char →
  pystr.contains ":"
    (pretty y +:+ String sep (datetime.pad2 m +:+ String sep (datetime.pad2 dd)))
  = false.
Proof.
  intros Hsep. apply contains_false.
  assert (∀ l, Forall (λ a, datetime.dig a = true) l → ":"%char ∉ l) as Hdig.
  { intros l Hl Hin. rewrite Forall_forall in Hl. by apply Hl in Hin. }
  rewrite list_ascii_of_string_app.
  change (String.list_ascii_of_string (String sep ?s))
    with (sep :: String.list_ascii_of_string s).
  rewrite list_ascii_of_string_app.
  change (String.list_ascii_of_string (String sep ?s))
    with (sep :: String.list_ascii_of_string s).
  intros [Hin|[Hin|[Hin|[Hin|Hin]%elem_of_cons]%elem_of_app]%elem_of_cons]%elem_of_app.
  - by apply (Hdig _ (pretty_nat_dig y)).
  - by destruct Hsep as [->| ->].
  - by apply (Hdig _ (pad2_dig m)).
  - by destruct Hsep as [->| ->].
  - by apply (Hdig _ (pad2_dig dd)).
Qed.

Lemma parse_exif_value_without_colon date_str :
  pystr.contains ":" date_str = false →
  parse_exif_value date_str = try_formats date_str ["%Y-%m-%d"; "%Y/%m/%d"].
Proof.
  intros Hc. unfold parse_exif_value. rewrite Hc. cbn [try_formats].
  destruct (datetime.strptime date_str "%Y-%m-%d %H:%M:%S") as [d|e] eqn:E.
  - exfalso. apply strptime_colons in E. vm_compute literal_colons in E.
    pose proof (contains_str_count date_str) as Hcount.
    rewrite Hc in Hcount. destruct Hcount as [_ Hcount].
    rewrite E in Hcount. by specialize (Hcount ltac:(lia)).
  - by apply strptime_raises in E as ->.
Qed.

(** A date written with slashes is not matched by the format with
    hyphens. *)
Lemma strptime_slashes_as_hyphens (y m dd : nat) :
  1000 ≤ y ≤ 9999 →
  datetime.strptime
    (pretty y +:+ String "/" (datetime.pad2 m +:+ String "/" (datetime.pad2 dd)))
    "%Y-%m-%d"
  = Raise ValueError.
Proof.
  intros Hy. unfold datetime.strptime. rewrite list_ascii_of_string_app.
  change (datetime.compile (String.list_ascii_of_string "%Y-%m-%d"))
    with [datetime.Directive "Y"; datetime.Literal "-"; datetime.Directive "m";
          datetime.Literal "-"; datetime.Directive "d"].
  by rewrite match_year.
Qed.

(** X21.  Date-only tag values are read.  For every valid calendar date
    with a four-digit year, the texts [YYYY-MM-DD] and [YYYY/MM/DD] of the
    date (as [strftime] writes them) are read back by the EXIF value
    parser as that date at midnight. *)
Theorem exif_date_only_values_are_read y m dd :
  1000 ≤ y ≤ 9999 →
  1 ≤ m ≤ 12 →
  1 ≤ dd ≤ datetime.days_in_month y m →
  let d := datetime.mk y m dd 0 0 0 in
  parse_exif_value (datetime.strftime d "%Y-%m-%d") = Ok (Some d)
  ∧ parse_exif_value (datetime.strftime d "%Y/%m/%d") = Ok (Some d).
Proof.
  intros Hy Hm Hd d.
  cbn [datetime.strftime datetime.directive d datetime.year datetime.month
       datetime.day].
  rewrite !string_app_nil_r. split.
  - rewrite parse_exif_value_without_colon by (apply date_text_without_colon; auto).
    cbn [try_formats]. rewrite (strptime_date "-") by auto. done.
  - rewrite parse_exif_value_without_colon by (apply date_text_without_colon; auto).
    cbn [try_formats]. rewrite strptime_slashes_as_hyphens by done.
    cbn [is_ValueError]. rewrite (strptime_date "/") by auto. done.
Qed.

Lemma exif_date_only_values_are_read_witness :
  parse_exif_value "2023/01/15" = Ok (Some (datetime.mk 2023 1 15 0 0 0)).
Proof.
  destruct (exif_date_only_values_are_read 2023 1 15) as [_ H].
  - split; [|apply Nat.leb_le]; vm_compute; first [reflexivity|lia].
  - lia.
  - cbn. lia.
  - exact H.
Defined.

(** ** The entry points *)

Lemma organize_files_by_date_run st :
  organize_files_by_date st = move_files_to_destination_folder st.
Proof.
  unfold organize_files_by_date.
  rewrite run_bind, get_target_files_run.
  destruct (os.listdir _ _) as [names|e] eqn:Els.
  2:{ unfold move_files_to_destination_folder.
      by rewrite run_bind, get_target_files_run, Els. }
  rewrite run_bind.
  match goal with
  | |- context [for_ names ?body [] st] =>
      destruct (for_total_pure body) with (xs := names)
        (s := @nil (string * string)) (st := st) as (fwd & ->)
  end; [|done].
  intros x s st0.
  match goal with
  | |- ∃ s', ?m st0 = _ =>
      assert (steps eq m) as Hpure by (steps_tac);
      destruct (try_except_Ok
        (file_date_info ← get_file_date_info x; mret (s ++ [(x, date file_date_info)]))
        s st0) as (r & st1 & Hr)
  end.
  exists r. rewrite Hr. f_equal. specialize (Hpure st0).
  rewrite Hr in Hpure. done.
Qed.

(** X22.  The grouping pass of [organize_files_by_date] adds nothing to
    the outcome: it reads dates and changes neither the engine nor the
    filesystem.  When [move], that is [organize_files_by_date], returns a
    manifest and a list of errors, [move_files_to_destination_folder]
    called in the same state returns the same manifest and the same
    errors, and ends in the same state. *)
Theorem move_is_the_move_batch st entries errors st' :
  move st = (Ok (entries, errors), st') →
  organize_files_by_date st = (Ok (entries, errors), st')
  ∧ move_files_to_destination_folder st = (Ok (entries, errors), st').
Proof.
  unfold move. intros Hmove. split; [done|].
  by rewrite <-organize_files_by_date_run.
Qed.

Lemma move_is_the_move_batch_witness :
  file <$> (default ([], [])
              (to_option (move_files_to_destination_folder
                            (mkState engine world_plain)).1)).1
  = ["doc.txt"].
Proof.
  destruct (move (mkState engine world_plain)) as [[[entries errors]|e] st'] eqn:E.
  - destruct (move_is_the_move_batch (mkState engine world_plain)
                entries errors st' E) as [_ ->].
    vm_compute in E. injection E as <- _ _. reflexivity.
  - vm_compute in E. discriminate E.
Defined.

(** ** No file is lost by a move *)

Lemma move_loop_keeps st0 fs0 names errors :
  NoDup names →
  (∀ n, n ∈ names →
     is_file (fs0 !! os.path.join (target_folder_path (self st0)) n) = true) →
  ∃ done' errors' fs',
    for_ names (transfer_body shutil.move) ([], errors) (with_fs st0 fs0)
      = (Ok (done', errors'), with_fs st0 fs')
    ∧ move_data st0 fs0 [] done' fs'
    ∧ ∀ p f, fs0 !! p = Some (File f) → p ∉ from <$> done' →
             fs' !! p = Some (File f).
Proof.
  intros Hnd Hfiles.
  apply (transfer_loop_rule shutil.move st0
           (λ rest done fs,
              move_data st0 fs0 rest done fs
              ∧ ∀ p f, fs0 !! p = Some (File f) → p ∉ from <$> done →
                       fs !! p = Some (File f))).
  - intros name rest done fs fs' [Hdata Hkeep] Hgrow.
    assert (fs ⊆ fs') as Hsub.
    { destruct Hgrow as [->|(info & _ & [[Hsub _] _])]; done. }
    split.
    + apply (move_data_grows _ _ _ _ _ _ _ Hdata) in Hsub
        as (Hnd' & Hrest & Hto & Hcross & Hdone).
      apply NoDup_cons in Hnd' as [_ Hnd']. split_and!; try done.
      * intros n Hn. apply Hrest. by right.
      * intros e n He Hn. apply Hcross; [done|by right].
    + intros p f Hp Hnot. eapply lookup_weaken; [|done]. by apply Hkeep.
  - intros name rest done fs info fsm q fs' [Hdata Hkeep] Hinfo [[Hsub _] _] Hsrc Hq
      Hform Hmv.
    pose proof (move_data_grows _ _ _ _ _ _ _ Hdata Hsub) as Hdatam.
    destruct (move_data_step st0 fs0 name rest done fsm info q fs')
      as (f & _ & -> & Hstep); try done.
    { destruct Hdata as (_ & Hrest & _).
      destruct (Hrest name (list_elem_of_here _ _)) as (f & Hf0 & Hf).
      rewrite (get_file_date_info_local name st0 fs0 fs), Hinfo; [done|eauto|].
      congruence. }
    split; [done|]. intros p g Hp Hnot.
    rewrite fmap_app in Hnot. apply not_elem_of_app in Hnot as [Hnot Hne].
    apply not_elem_of_cons in Hne as [Hne _]. cbn in Hne.
    pose proof (lookup_weaken _ _ _ _ (Hkeep p g Hp Hnot) Hsub) as Hpm.
    rewrite lookup_insert_ne, lookup_delete_ne; [done..|].
    intros ->. congruence.
  - split; [split_and!; [done| |constructor| |]|].
    + intros n Hn. specialize (Hfiles n Hn).
      destruct (fs0 !! _) as [[f|]|]; try done. eauto.
    + intros e n He. by apply elem_of_nil in He.
    + intros e He. by apply elem_of_nil in He.
    + done.
Qed.

(** X24.  A move loses no file.  Over a source directory without
    subdirectories, whatever errors the batch runs into, every regular
    file of the filesystem is afterwards either where it was, unchanged,
    or at the destination that the manifest records for it, with its
    data. *)
Theorem move_loses_no_file st entries errors st' :
  (∀ n, is_dir (fs (world st) !! os.path.join (target_folder_path (self st)) n)
        = false) →
  move st = (Ok (entries, errors), st') →
  ∀ p f, fs (world st) !! p = Some (File f) →
    (fs (world st') !! p = Some (File f) ∧ p ∉ from <$> entries)
    ∨ (∃ e, e ∈ entries ∧ from e = p ∧ fs (world st') !! to e = Some (File f)).
Proof.
  intros Hnodir Hmove p f Hp. pose proof (move_run st) as Hrun.
  destruct (os.listdir _ _) as [names|e] eqn:Els; [|by rewrite Hrun in Hmove].
  destruct Hrun as (entries' & errors' & fs' & Hloop & Hrun).
  rewrite Hrun in Hmove. injection Hmove as <- <- <-.
  destruct (move_loop_keeps st (fs (world st)) names [])
    as (d & er & fs1 & Hloop' & (_ & _ & _ & _ & Hdone) & Hkeep).
  { by eapply listdir_NoDup. }
  { intros n Hn. apply (elem_of_listdir _ _ _ n Els) in Hn as [node Hn].
    specialize (Hnodir n). unfold os.path.join in *. rewrite Hn in Hnodir |- *.
    by destruct node. }
  rewrite with_fs_id, Hloop in Hloop'. injection Hloop' as <- <- <-.
  cbn [world with_fs fs].
  destruct (decide (p ∈ from <$> entries')) as [(e & -> & He)%list_elem_of_fmap|Hnot].
  - right. exists e. split_and!; [done..|].
    destruct (Hdone e He) as (g & info & _ & Hg0 & Hg & _). congruence.
  - left. split; [by apply Hkeep|done].
Qed.

Lemma move_loses_no_file_witness :
  ∃ e, e ∈ [doc_entry] ∧ from e = ["src"; "doc.txt"]
       ∧ fs (world (move (mkState engine world_plain)).2) !! to e
         = Some (plain "hello" (noon 2024 3 10)).
Proof.
  destruct (move_loses_no_file (mkState engine world_plain)
              [doc_entry] [] (move (mkState engine world_plain)).2)
    with (p := ["src"; "doc.txt"]) (f := mkfile "hello" (noon 2024 3 10) NotAnImage)
    as [[_ Hnot]|H].
  - apply no_subdirectory_check. vm_compute. reflexivity.
  - vm_compute. reflexivity.
  - vm_compute. reflexivity.
  - exfalso. apply Hnot. left.
  - exact H.
Defined.

(** ** Undoing what is no longer there *)



